(** * Order scaling tool: a shallow embedding of [scale_orders.py]

    The script reads one account's BTC position, its open orders and its
    recent fills, derives the ratio between the size the user wants and
    the size the account holds, scales every pending order by that ratio
    and prints two what-if summaries.

    Layout of this file:
    - the decimal arithmetic the script computes with (Python's [decimal]
      module under its default context);
    - the JSON-shaped records, the pure helpers and the printing
      procedures of [scale_orders.py], in source order, with the float
      arithmetic in which the elapsed time is rendered;
    - [main], in a monad that collects the printed lines and stops at
      [sys.exit] or at an uncaught exception;
    - the statements of the specification, and their proofs. *)

From Stdlib Require Import ZArith NArith QArith Qround Qpower Qabs Lqa.
From Stdlib Require Import List Permutation Sorted String Ascii Bool Lia.
From Stdlib Require Import DecimalString.
From Stdlib Require SpecFloat.
Import ListNotations.

Local Open Scope Z_scope.

(* ================================================================== *)
(** ** 1. Decimal arithmetic (module [decimal], default context)       *)
(* ================================================================== *)

(** A finite decimal number is a sign, a coefficient and an exponent;
    its value is [(-1)^sign * coefficient * 10^exponent].  [Decimal(str)]
    converts a decimal literal exactly, so a field that holds such a
    literal is represented by the number it denotes.  NaN and the
    infinities never appear in size and price fields and are not part of
    this type. *)
Record Decimal : Set := mkDecimal {
  d_sign : bool;      (* true: negative *)
  d_int  : N;         (* coefficient, [_int] *)
  d_exp  : Z          (* exponent, [_exp] *)
}.

(** The signals that the default context traps: each one is raised as an
    exception. *)
Inductive Signal : Set := InvalidOperation | DivisionByZero | Overflow.

(** Result of an arithmetic operation: a value, or a raised signal. *)
Inductive Exc (A : Type) : Type :=
| Ok (a : A)
| Raise (e : Signal).
Arguments Ok {A} a.
Arguments Raise {A} e.

Definition exc_bind {A B} (x : Exc A) (f : A -> Exc B) : Exc B :=
  match x with
  | Ok a => f a
  | Raise e => Raise e
  end.

Declare Scope exc_scope.
Delimit Scope exc_scope with exc.
Notation "x <- c1 ;; c2" := (exc_bind c1 (fun x => c2))
  (at level 61, c1 at next level, right associativity) : exc_scope.

(** The default context: [prec=28, rounding=ROUND_HALF_EVEN,
    Emin=-999999, Emax=999999, clamp=0]. *)
Definition prec : Z := 28.
Definition Emax : Z := 999999.
Definition Emin : Z := -999999.
Definition Etiny : Z := Emin - prec + 1.
Definition Etop : Z := Emax - prec + 1.

Inductive Rounding : Set := ROUND_DOWN | ROUND_HALF_EVEN.

(** [len(str(n))]: the number of decimal digits of a coefficient; the
    coefficient [0] is the one-digit string ["0"]. *)
Fixpoint ndigits_aux (fuel : nat) (n : N) : Z :=
  match fuel with
  | O => 1
  | S fuel' => if (n <? 10)%N then 1 else 1 + ndigits_aux fuel' (n / 10)%N
  end.

Definition ndigits (n : N) : Z := ndigits_aux (N.to_nat (N.size n)) n.

Definition pow10 (k : Z) : N := (10 ^ Z.to_N k)%N.

(** Slices of the coefficient's digit string [s] of length [len]:
    [s[:k]] (or ['0'] when that slice is empty), [s[k:]] and [s[k]]. *)
Definition digits_head (c : N) (len k : Z) : N := (c / pow10 (len - k))%N.
Definition digits_tail (c : N) (len k : Z) : N := (c mod pow10 (len - k))%N.
Definition digit_at (c : N) (len k : Z) : N :=
  ((c / pow10 (len - k - 1)) mod 10)%N.

(** [_all_zeros(s, k)]: the digits from position [k] on are all zero. *)
Definition all_zeros (c : N) (len k : Z) : bool :=
  (digits_tail c len k =? 0)%N.

(** [_exact_half(s, k)]: the digits from position [k] on are a 5 followed
    by zeros only. *)
Definition exact_half (c : N) (len k : Z) : bool :=
  (digits_tail c len k =? 5 * pow10 (len - k - 1))%N.

(** The rounding functions take the coefficient (with its length) and the
    number [k] of digits to keep, [0 <= k < len]; they answer [1] (round
    away from zero), [0] (the dropped digits are all zero) or [-1]
    (truncate, something non-zero is dropped). *)
Definition round_down (c : N) (len k : Z) : Z :=
  if all_zeros c len k then 0 else -1.

Definition round_half_up (c : N) (len k : Z) : Z :=
  if (5 <=? digit_at c len k)%N then 1
  else if all_zeros c len k then 0
  else -1.

Definition round_half_even (c : N) (len k : Z) : Z :=
  if exact_half c len k && ((k =? 0) || N.even (digit_at c len (k - 1)))
  then -1
  else round_half_up c len k.

Definition pick_rounding_function (r : Rounding) : N -> Z -> Z -> Z :=
  match r with
  | ROUND_DOWN => round_down
  | ROUND_HALF_EVEN => round_half_even
  end.

Definition is_zero (d : Decimal) : bool := (d_int d =? 0)%N.

(** [adjusted()]: the exponent of the most significant digit. *)
Definition adjusted (d : Decimal) : Z := d_exp d + ndigits (d_int d) - 1.

Definition copy_abs (d : Decimal) : Decimal :=
  mkDecimal false (d_int d) (d_exp d).
Definition copy_negate (d : Decimal) : Decimal :=
  mkDecimal (negb (d_sign d)) (d_int d) (d_exp d).

(** [_fix]: bring a number into the context: clamp the exponent of a
    zero, raise [Overflow] above [Emax], and round a coefficient that has
    more than [prec] digits (or lies below [Etiny]) half-even. *)
Definition dec_fix (d : Decimal) : Exc Decimal :=
  if is_zero d then
    Ok (mkDecimal (d_sign d) 0 (Z.min (Z.max (d_exp d) Etiny) Emax))
  else
    let len := ndigits (d_int d) in
    let exp_min := len + d_exp d - prec in
    if Etop <? exp_min then Raise Overflow
    else
      let exp_min := if exp_min <? Etiny then Etiny else exp_min in
      if d_exp d <? exp_min then
        let digits := len + d_exp d - exp_min in
        (* fewer than zero digits left: round 1E(exp_min-1) to zero digits *)
        let c := if digits <? 0 then 1%N else d_int d in
        let clen := if digits <? 0 then 1 else len in
        let digits := if digits <? 0 then 0 else digits in
        let changed := round_half_even c clen digits in
        let coeff := digits_head c clen digits in
        let coeff' := if 0 <? changed then (coeff + 1)%N else coeff in
        let carry := (0 <? changed) && (prec <? ndigits coeff') in
        let coeff'' := if carry then (coeff' / 10)%N else coeff' in
        let exp_min := if carry then exp_min + 1 else exp_min in
        if Etop <? exp_min then Raise Overflow
        else Ok (mkDecimal (d_sign d) coeff'' exp_min)
      else Ok d.

(** [_rescale(exp, rounding)]: the same value at exponent [e], padded
    with zeros or rounded; the context is not applied. *)
Definition dec_rescale (d : Decimal) (e : Z) (r : Rounding) : Decimal :=
  if is_zero d then mkDecimal (d_sign d) 0 e
  else if e <=? d_exp d then
    mkDecimal (d_sign d) (d_int d * pow10 (d_exp d - e))%N e
  else
    let len := ndigits (d_int d) in
    let digits := len + d_exp d - e in
    let c := if digits <? 0 then 1%N else d_int d in
    let clen := if digits <? 0 then 1 else len in
    let digits := if digits <? 0 then 0 else digits in
    let changed := pick_rounding_function r c clen digits in
    let coeff := digits_head c clen digits in
    mkDecimal (d_sign d) (if changed =? 1 then (coeff + 1)%N else coeff) e.

(** [self.quantize(q, rounding=r)]: round [d] to the exponent of [q];
    [InvalidOperation] when the result would need more than [prec]
    digits. *)
Definition dec_quantize (d q : Decimal) (r : Rounding) : Exc Decimal :=
  if negb ((Etiny <=? d_exp q) && (d_exp q <=? Emax)) then
    Raise InvalidOperation
  else if is_zero d then dec_fix (mkDecimal (d_sign d) 0 (d_exp q))
  else if Emax <? adjusted d then Raise InvalidOperation
  else if prec <? adjusted d - d_exp q + 1 then Raise InvalidOperation
  else
    let ans := dec_rescale d (d_exp q) r in
    if Emax <? adjusted ans then Raise InvalidOperation
    else if prec <? ndigits (d_int ans) then Raise InvalidOperation
    else dec_fix ans.

(** [__pos__], [__neg__], [__abs__]: each rounds to the context; the
    sign of a zero is dropped. *)
Definition dec_pos (d : Decimal) : Exc Decimal :=
  dec_fix (if is_zero d then copy_abs d else d).
Definition dec_neg (d : Decimal) : Exc Decimal :=
  dec_fix (if is_zero d then copy_abs d else copy_negate d).
Definition dec_abs (d : Decimal) : Exc Decimal :=
  if d_sign d then dec_neg d else dec_pos d.

(** The exact product and the exact sum of two numbers, before the
    context is applied. *)
Definition raw_mul (a b : Decimal) : Decimal :=
  mkDecimal (xorb (d_sign a) (d_sign b)) (d_int a * d_int b)%N
            (d_exp a + d_exp b).

(** The coefficient of [d] counted at exponent [e <= d_exp d], signed. *)
Definition signed_at (d : Decimal) (e : Z) : Z :=
  let m := Z.of_N (d_int d * pow10 (d_exp d - e)) in
  if d_sign d then - m else m.

Definition raw_add (a b : Decimal) : Decimal :=
  let e := Z.min (d_exp a) (d_exp b) in
  let s := signed_at a e + signed_at b e in
  mkDecimal (if s =? 0 then d_sign a && d_sign b else s <? 0) (Z.abs_N s) e.

(** [a * b] and [a + b]: the exact result, rounded to the context.  A
    zero sum is negative only when both operands are. *)
Definition dec_mul (a b : Decimal) : Exc Decimal := dec_fix (raw_mul a b).
Definition dec_add (a b : Decimal) : Exc Decimal := dec_fix (raw_add a b).

(** Exact quotients are brought as close to the ideal exponent as their
    trailing zeros allow: the [while] loop of [__truediv__], which runs at
    most [ideal_exp - exp] times. *)
Fixpoint strip_zeros (fuel : nat) (coeff : N) (e ideal : Z) : N * Z :=
  match fuel with
  | O => (coeff, e)
  | S fuel' =>
      if (e <? ideal) && (coeff mod 10 =? 0)%N
      then strip_zeros fuel' (coeff / 10)%N (e + 1) ideal
      else (coeff, e)
  end.

(** [a / b]: [prec + 1] significant digits of the quotient are computed,
    with a sticky last digit when the division is inexact, and the
    context rounds them. *)
Definition dec_div (a b : Decimal) : Exc Decimal :=
  let sign := xorb (d_sign a) (d_sign b) in
  if is_zero b then
    if is_zero a then Raise InvalidOperation   (* DivisionUndefined: 0 / 0 *)
    else Raise DivisionByZero
  else if is_zero a then
    dec_fix (mkDecimal sign 0 (d_exp a - d_exp b))
  else
    let shift := ndigits (d_int b) - ndigits (d_int a) + prec + 1 in
    let e := d_exp a - d_exp b - shift in
    let num := if 0 <=? shift then (d_int a * pow10 shift)%N else d_int a in
    let den := if 0 <=? shift then d_int b else (d_int b * pow10 (- shift))%N in
    let coeff := (num / den)%N in
    let remainder := (num mod den)%N in
    if (remainder =? 0)%N then
      let ideal := d_exp a - d_exp b in
      let '(coeff, e) := strip_zeros (Z.to_nat (ideal - e)) coeff e ideal in
      dec_fix (mkDecimal sign coeff e)
    else
      dec_fix (mkDecimal sign
                 (if (coeff mod 5 =? 0)%N then coeff + 1 else coeff)%N e).

(** [_cmp]: -1, 0 or 1 as [a] is below, equal to or above [b]; the two
    zeros are equal. *)
Definition sgn (d : Decimal) : Z := if d_sign d then -1 else 1.

Definition dec_cmp (a b : Decimal) : Z :=
  if is_zero a then (if is_zero b then 0 else - sgn b)
  else if is_zero b then sgn a
  else if d_sign a && negb (d_sign b) then -1
  else if negb (d_sign a) && d_sign b then 1
  else
    let a_adj := adjusted a in
    let b_adj := adjusted b in
    if a_adj =? b_adj then
      let a_padded := (d_int a * pow10 (d_exp a - d_exp b))%N in
      let b_padded := (d_int b * pow10 (d_exp b - d_exp a))%N in
      if (a_padded =? b_padded)%N then 0
      else if (a_padded <? b_padded)%N then - sgn a
      else sgn a
    else if b_adj <? a_adj then sgn a
    else - sgn a.

Definition dec_lt (a b : Decimal) : bool := dec_cmp a b <? 0.
Definition dec_gt (a b : Decimal) : bool := 0 <? dec_cmp a b.
Definition dec_eq (a b : Decimal) : bool := dec_cmp a b =? 0.
Definition dec_le (a b : Decimal) : bool := dec_cmp a b <=? 0.

(** [Decimal(n)] for an [int]; comparisons with the literal [0] convert
    it this way. *)
Definition dec_of_Z (z : Z) : Decimal := mkDecimal (z <? 0) (Z.abs_N z) 0.
Definition dec_zero : Decimal := dec_of_Z 0.

(** [sum(xs)]: starts from the integer [0] and adds from the left. *)
Definition dec_sum (xs : list Decimal) : Exc Decimal :=
  fold_left (fun acc x => (a <- acc ;; dec_add a x)%exc) xs (Ok dec_zero).

(** The rational a decimal number denotes. *)
Definition signed_int (d : Decimal) : Z :=
  if d_sign d then - Z.of_N (d_int d) else Z.of_N (d_int d).

Definition to_Q (d : Decimal) : Q :=
  if 0 <=? d_exp d
  then inject_Z (signed_int d * 10 ^ d_exp d)
  else Qmake (signed_int d) (Z.to_pos (10 ^ (- d_exp d))).

(** A number fits the context when rounding leaves it as it is. *)
Definition fits (d : Decimal) : Prop := dec_fix d = Ok d.

(* ================================================================== *)
(** ** 2. Strings, output and control                                  *)
(* ================================================================== *)

Local Open Scope string_scope.

Definition nl : string := String (ascii_of_nat 10) EmptyString.
Definition esc : string := String (ascii_of_nat 27) EmptyString.

(** [s * n] *)
Fixpoint str_repeat (s : string) (n : nat) : string :=
  match n with
  | O => EmptyString
  | S n' => s ++ str_repeat s n'
  end.

(** [s.upper()], on the ASCII letters. *)
Definition upper_ascii (c : ascii) : ascii :=
  let n := nat_of_ascii c in
  if (97 <=? n)%nat && (n <=? 122)%nat then ascii_of_nat (n - 32) else c.

Fixpoint str_upper (s : string) : string :=
  match s with
  | EmptyString => EmptyString
  | String c s' => String (upper_ascii c) (str_upper s')
  end.

(** [str(n)] for an [int]. *)
Definition str_of_Z (z : Z) : string := NilZero.string_of_int (Z.to_int z).

(** A printed line is kept as the pieces of its f-string: literal text,
    and values together with the format specification they are printed
    with (the empty specification is [str()]). *)
Inductive Piece : Set :=
| Str (s : string)
| StrF (spec : string) (s : string)
| Num (spec : string) (d : Decimal)
| Int (z : Z).

Definition Line : Set := list Piece.

(** The exceptions that are raised and never caught: an arithmetic
    signal of the decimal context, or the error with which the
    conversion of a timestamp fails ([OverflowError], [OSError] or
    [ValueError], as the platform has it). *)
Inductive Exception : Set :=
| Arithmetic (signal : Signal)
| TimestampError.

Coercion Arithmetic : Signal >-> Exception.

(** How a procedure ends: it returns, it calls [sys.exit(code)], or an
    exception propagates uncaught. *)
Inductive Outcome (A : Type) : Type :=
| Done (a : A)
| Exit (code : Z)
| Uncaught (e : Exception).
Arguments Done {A} a.
Arguments Exit {A} code.
Arguments Uncaught {A} e.

(** A run: the lines printed, in order, and the outcome. *)
Definition Run (A : Type) : Type := list Line * Outcome A.

Definition run_ret {A} (a : A) : Run A := ([], Done a).

Definition run_bind {A B} (m : Run A) (f : A -> Run B) : Run B :=
  let (out, r) := m in
  match r with
  | Done a => let (out', r') := f a in ((out ++ out')%list, r')
  | Exit code => (out, Exit code)
  | Uncaught e => (out, Uncaught e)
  end.

Definition print (l : Line) : Run unit := ([l], Done tt).
Definition sys_exit {A} (code : Z) : Run A := ([], Exit code).
Definition eval {A} (x : Exc A) : Run A :=
  match x with
  | Ok a => ([], Done a)
  | Raise e => ([], Uncaught e)
  end.

(** A conversion of a timestamp that gives a value or fails. *)
Definition convert {A} (x : option A) : Run A :=
  match x with
  | Some a => ([], Done a)
  | None => ([], Uncaught TimestampError)
  end.

Declare Scope run_scope.
Delimit Scope run_scope with run.
Notation "x <- c1 ;; c2" := (run_bind c1 (fun x => c2))
  (at level 61, c1 at next level, right associativity) : run_scope.
Notation "c1 ;; c2" := (run_bind c1 (fun _ => c2))
  (at level 61, right associativity) : run_scope.

(* ================================================================== *)
(** ** 3. The data the venue returns                                   *)
(* ================================================================== *)

(** JSON objects are read with [dict.get], so every field may be
    missing.  Fields that hold decimal literals are given as the number
    the literal denotes. *)
Record Position : Set := mkPosition {
  pos_coin    : option string;
  pos_szi     : option Decimal;
  pos_entryPx : option Decimal
}.

Record AssetPosition : Set := mkAssetPosition {
  ap_position : option Position
}.

Record AccountState : Set := mkAccountState {
  assetPositions : option (list AssetPosition)
}.

Record Order : Set := mkOrder {
  ord_coin      : option string;
  ord_side      : option string;
  ord_sz        : option Decimal;
  ord_limitPx   : option Decimal;
  ord_timestamp : option Z
}.

Record Fill : Set := mkFill {
  fill_time : option Z
}.

(** The dictionary [scale_orders] builds for each order. *)
Record ScaledOrder : Set := mkScaledOrder {
  side          : string;
  price         : Decimal;
  original_size : Decimal;
  scaled_size   : Decimal;
  notional      : Decimal
}.

(** What a request to the venue comes back with: the decoded response,
    or a [requests.exceptions.RequestException]. *)
Inductive Fetch (A : Type) : Type :=
| Response (a : A)
| RequestException (msg : string).
Arguments Response {A} a.
Arguments RequestException {A} msg.

(** Everything a run of the script reads from outside: the environment
    variable, what the two prompt helpers printed and returned, the
    outcome of the three requests, and the clock with the local time
    zone.  [now_us] is what [datetime.now()] reads, a local date and
    time, counted in microseconds from 1970-01-01 00:00:00 of the same
    calendar.  [localtime t] is the local date and time that the platform
    gives for the instant [t] seconds after the epoch, counted in seconds
    in the same way; it is [None] where the platform or [datetime]
    refuses the instant (a year outside 1..9999, for one). *)
Record World : Type := mkWorld {
  HYPERLIQUID_ADDRESS : option string;
  position_choice     : list Line * string;
  btc_size            : list Line * Decimal;
  clearinghouseState  : Fetch AccountState;
  openOrders          : Fetch (list Order);
  userFills           : Fetch (list Fill);
  now_us              : Z;
  localtime           : Z -> option Z
}.

(* ================================================================== *)
(** ** 4. The functions of [scale_orders.py]                           *)
(* ================================================================== *)

Definition DEFAULT_ADDRESS : string :=
  "0xdae4df7207feb3b350e4284c8efe5f7dac37f637".

Definition get_address (w : World) : string :=
  match HYPERLIQUID_ADDRESS w with
  | Some a => a
  | None => DEFAULT_ADDRESS
  end.

(** The two prompt helpers loop until the answer is valid; the model
    takes their dialogue and their result from the world.  The first
    returns ['long'] or ['short'], the second a size above zero. *)
Definition get_user_position_choice (w : World) : Run string :=
  (fst (position_choice w), Done (snd (position_choice w))).

Definition get_user_btc_size (w : World) : Run Decimal :=
  (fst (btc_size w), Done (snd (btc_size w))).

Definition fetch_account_state (w : World) : Run AccountState :=
  match clearinghouseState w with
  | Response r => run_ret r
  | RequestException e =>
      (print [Str "Error fetching account state: "; Str e] ;;
       sys_exit 1)%run
  end.

Definition fetch_open_orders (w : World) : Run (list Order) :=
  match openOrders w with
  | Response r => run_ret r
  | RequestException e =>
      (print [Str "Error fetching open orders: "; Str e] ;;
       sys_exit 1)%run
  end.

Definition fetch_user_fills (w : World) : Run (list Fill) :=
  match userFills w with
  | Response r => run_ret r
  | RequestException e => run_ret []
  end.

(** Comparison of rationals and [int(x)] (truncation towards zero). *)
Definition Qltb (x y : Q) : bool := negb (Qle_bool y x).
Definition int_of_Q (x : Q) : Z := Z.quot (Qnum x) (Zpos (Qden x)).

(** *** Floats

    A [float] is a binary64 number.  The script meets finite floats in the
    normal range only (quotients of integers by 1000 and by 10^6, and
    quotients of numbers from 60 on by at most 2592000), and they are
    given as the rationals they are.  An operation on floats is the exact
    operation followed by rounding to the nearest float, ties going to
    the even mantissa. *)
Definition two_power (e : Z) : Q := (inject_Z 2 ^ e)%Q.

(** The nearest integer, ties to even. *)
Definition round_to_even (x : Q) : Z :=
  let f := Qfloor x in
  match (x - inject_Z f ?= 1 # 2)%Q with
  | Lt => f
  | Gt => f + 1
  | Eq => if Z.even f then f else f + 1
  end.

(** The exponent [e] with [2^e <= x < 2^(e+1)], for [x > 0]. *)
Definition binade (x : Q) : Z :=
  let l := Z.log2 (Qnum x) - Z.log2 (Zpos (Qden x)) in
  if Qle_bool (two_power l) x then l else l - 1.

(** The nearest number with a mantissa of 53 bits. *)
Definition nearest_float_pos (x : Q) : Q :=
  let e := binade x - 52 in
  (inject_Z (round_to_even (x / two_power e)) * two_power e)%Q.

Definition nearest_float (x : Q) : Q :=
  match (x ?= 0)%Q with
  | Eq => 0%Q
  | Gt => nearest_float_pos x
  | Lt => (- nearest_float_pos (- x))%Q
  end.

(** [a / b] for two [int]s, [b > 0]: the float nearest to the quotient,
    or [OverflowError] when that is too large for a float. *)
Definition int_truediv (a b : Z) : option Q :=
  let x := nearest_float (a # Z.to_pos b) in
  if Qle_bool (two_power 1024) (Qabs x) then None else Some x.

(** [x / n] for a float and a small [int]. *)
Definition float_div (x : Q) (n : Z) : Q := nearest_float (x / inject_Z n).

(** [datetime.fromtimestamp(x)]: the float is split into whole seconds
    and microseconds (the fraction times 10^6, as a float, rounded half
    to even), and the seconds are turned into a local date and time. *)
Definition fromtimestamp (w : World) (x : Q) : option Z :=
  let intpart := int_of_Q x in
  let floatpart :=
    nearest_float ((x - inject_Z intpart) * inject_Z 1000000) in
  let us := round_to_even floatpart in
  let t := if (1000000 <=? us)%Z then intpart + 1
           else if (us <? 0)%Z then intpart - 1 else intpart in
  let us := if (1000000 <=? us)%Z then us - 1000000
            else if (us <? 0)%Z then us + 1000000 else us in
  match localtime w t with
  | Some seconds => Some (seconds * 1000000 + us)
  | None => None
  end.

(** [timedelta.total_seconds()] of a difference of [us] microseconds: the
    float nearest to [us / 10^6]; a [timedelta] is below 10^9 days, so
    this quotient is a float. *)
Definition total_seconds (us : Z) : Q := nearest_float (us # 1000000).

Definition plural (n : Z) : string := if (n =? 1)%Z then "" else "s".

(** The local date and time of a timestamp, line 105. *)
Definition local_datetime (w : World) (timestamp_ms : Z) : option Z :=
  match int_truediv timestamp_ms 1000 with
  | Some x => fromtimestamp w x
  | None => None
  end.

(** The rendering of an elapsed time of [us] microseconds, lines
    107 to 126. *)
Definition relative_time (us : Z) : string :=
  let seconds := total_seconds us in
  if Qltb seconds (inject_Z 60) then "just now"
  else if Qltb seconds (inject_Z 3600) then
    let minutes := int_of_Q (float_div seconds 60) in
    str_of_Z minutes ++ " minute" ++ plural minutes ++ " ago"
  else if Qltb seconds (inject_Z 86400) then
    let hours := int_of_Q (float_div seconds 3600) in
    str_of_Z hours ++ " hour" ++ plural hours ++ " ago"
  else if Qltb seconds (inject_Z 604800) then
    let days := int_of_Q (float_div seconds 86400) in
    str_of_Z days ++ " day" ++ plural days ++ " ago"
  else if Qltb seconds (inject_Z 2592000) then
    let weeks := int_of_Q (float_div seconds 604800) in
    str_of_Z weeks ++ " week" ++ plural weeks ++ " ago"
  else
    let months := int_of_Q (float_div seconds 2592000) in
    str_of_Z months ++ " month" ++ plural months ++ " ago".

(** [get_relative_time]: [None] when the timestamp cannot be converted,
    an exception that nothing catches. *)
Definition get_relative_time (w : World) (timestamp_ms : Z) : option string :=
  match local_datetime w timestamp_ms with
  | Some dt => Some (relative_time (now_us w - dt))
  | None => None
  end.

(** The values of an optional field over a list, in order. *)
Definition collect {A B} (f : A -> option B) (l : list A) : list B :=
  flat_map (fun x => match f x with Some b => [b] | None => [] end) l.

(** [max(xs)] of a non-empty list. *)
Definition list_max (x : Z) (xs : list Z) : Z := fold_left Z.max xs x.

Definition get_last_activity_time (w : World) (orders : list Order)
    (fills : list Fill) : option string :=
  let timestamps :=
    (collect ord_timestamp orders ++ collect fill_time fills)%list in
  match timestamps with
  | [] => Some "Unknown"
  | t :: ts => get_relative_time w (list_max t ts)
  end.

Definition is_BTC (c : option string) : bool :=
  match c with
  | Some s => String.eqb s "BTC"
  | None => false
  end.

Definition empty_position : Position := mkPosition None None None.

Definition get_btc_position (account_state : AccountState) : option Position :=
  let asset_positions :=
    match assetPositions account_state with Some l => l | None => [] end in
  find (fun p => is_BTC (pos_coin p))
       (map (fun pos => match ap_position pos with
                        | Some p => p
                        | None => empty_position
                        end) asset_positions).

Definition get_btc_orders (orders : list Order) : list Order :=
  filter (fun order => is_BTC (ord_coin order)) orders.

(** [Decimal(d.get(key, "0"))] *)
Definition decimal_or_0 (field : option Decimal) : Decimal :=
  match field with
  | Some d => d
  | None => mkDecimal false 0 0
  end.

Definition determine_position_direction (position : Position) : option string :=
  let size := decimal_or_0 (pos_szi position) in
  if dec_gt size dec_zero then Some "long"
  else if dec_lt size dec_zero then Some "short"
  else None.

Definition get_position_size (position : Position) : Exc Decimal :=
  dec_abs (decimal_or_0 (pos_szi position)).

(** The body of the loop of [scale_orders]. *)
Definition scale_order (ratio : Decimal) (order : Order) : Exc ScaledOrder :=
  (original_size <- dec_abs (decimal_or_0 (ord_sz order)) ;;
   let price := decimal_or_0 (ord_limitPx order) in
   let side := match ord_side order with Some s => s | None => "" end in
   product <- dec_mul original_size ratio ;;
   scaled_size <- dec_quantize product (mkDecimal false 1 (-3)) ROUND_DOWN ;;
   notional <- dec_mul scaled_size price ;;
   Ok (mkScaledOrder side price original_size scaled_size notional))%exc.

Fixpoint scale_orders (orders : list Order) (ratio : Decimal)
    : Exc (list ScaledOrder) :=
  match orders with
  | [] => Ok []
  | order :: rest =>
      (s <- scale_order ratio order ;;
       scaled <- scale_orders rest ratio ;;
       Ok (s :: scaled))%exc
  end.

(** [class Colors] *)
Definition RESET : string := esc ++ "[0m".
Definition GREEN : string := esc ++ "[32m".
Definition RED : string := esc ++ "[31m".
Definition CYAN : string := esc ++ "[36m".
Definition YELLOW : string := esc ++ "[33m".

(** [sorted(xs, key=price, reverse=True)]: descending, and stable. *)
Fixpoint insert_by_price (x : ScaledOrder) (l : list ScaledOrder)
    : list ScaledOrder :=
  match l with
  | [] => [x]
  | y :: l' =>
      if dec_lt (price y) (price x) then x :: y :: l'
      else y :: insert_by_price x l'
  end.

Definition sorted_by_price_desc (l : list ScaledOrder) : list ScaledOrder :=
  fold_left (fun acc x => insert_by_price x acc) l [].

Definition is_side (letter : string) (o : ScaledOrder) : bool :=
  String.eqb (str_upper (side o)) letter.

Definition order_row (i : nat) (order : ScaledOrder) : Line :=
  let side_display := if is_side "B" order then "BUY" else "SELL" in
  let side_color := if is_side "B" order then GREEN else RED in
  let row_color := if Nat.eqb (Nat.modulo i 2) 1 then CYAN else YELLOW in
  [Str side_color; StrF "<6" side_display; Str RESET; Str row_color;
   Str " $"; Num ">11,.2f" (price order);
   Str " "; Num ">12.3f" (scaled_size order);
   Str " "; Num ">15.5f" (original_size order);
   Str " $"; Num ">10,.2f" (notional order); Str RESET].

Fixpoint order_rows (i : nat) (l : list ScaledOrder) : list Line :=
  match l with
  | [] => []
  | o :: l' => order_row i o :: order_rows (S i) l'
  end.

Definition table_header : list Line :=
  [ [Str (nl ++ str_repeat "-" 70)];
    [StrF "<6" "Side"; Str " "; StrF ">12" "Price"; Str " ";
     StrF ">12" "Scaled Size"; Str " "; StrF ">15" "Original Size"; Str " ";
     StrF ">12" "Notional"];
    [Str (str_repeat "-" 70)] ].

Definition print_scaled_orders (scaled_orders : list ScaledOrder) : Run unit :=
  let sorted_orders := sorted_by_price_desc scaled_orders in
  ((table_header ++ order_rows 0 sorted_orders)%list, Done tt).

(** [sum(f(o) for o in xs)] *)
Definition sum_sizes (xs : list ScaledOrder) : Exc Decimal :=
  dec_sum (map scaled_size xs).

Definition sum_costs (xs : list ScaledOrder) : Exc Decimal :=
  fold_left (fun acc o => (a <- acc ;;
                           c <- dec_mul (scaled_size o) (price o) ;;
                           dec_add a c)%exc)
            xs (Ok dec_zero).

(** [a - b] adds the negated operand. *)
Definition dec_sub (a b : Decimal) : Exc Decimal := dec_add a (copy_negate b).

Definition print_long_summary (scaled_orders : list ScaledOrder)
    (current_position_size current_entry_price ratio : Decimal) : Run unit :=
  let buy_orders := filter (is_side "B") scaled_orders in
  match buy_orders with
  | [] => print [Str (nl ++ "No pending buy orders to summarize.")]
  | _ :: _ =>
    (total_buy_size <- eval (sum_sizes buy_orders) ;;
     total_buy_cost <- eval (sum_costs buy_orders) ;;
     (* current scaled position (positive = long, negative = short) *)
     scaled_current_size <- eval (dec_mul current_position_size ratio) ;;
     (* net position after all buy orders fill *)
     net_position <- eval (dec_add scaled_current_size total_buy_size) ;;
     print [Str (nl ++ str_repeat "=" 70)] ;;
     print [Str "LONG SUMMARY (if all buy orders are filled)"] ;;
     print [Str (str_repeat "=" 70)] ;;
     print [Str "Current Position:        "; Num ">12.3f" scaled_current_size;
            Str " BTC"] ;;
     print [Str "Buy Orders Total:        "; Num ">12.3f" total_buy_size;
            Str " BTC"] ;;
     print [Str "Net Position:            "; Num ">12.3f" net_position;
            Str " BTC"] ;;
     (if dec_gt net_position dec_zero then
        avg_entry <-
          (if dec_gt scaled_current_size dec_zero then
             (* was long, adding more long *)
             current_cost <- eval (dec_mul scaled_current_size
                                           current_entry_price) ;;
             total <- eval (dec_add current_cost total_buy_cost) ;;
             eval (dec_div total net_position)
           else
             (* was short or flat, now long from buys only *)
             if dec_gt total_buy_size dec_zero
             then eval (dec_div total_buy_cost total_buy_size)
             else run_ret (mkDecimal false 0 0)) ;;
        print [Str "Average Entry Price:     $"; Num ">14,.2f" avg_entry]
      else run_ret tt) ;;
     print [Str "Capital Required:        $"; Num ">14,.2f" total_buy_cost])%run
  end.

Definition print_short_summary (scaled_orders : list ScaledOrder)
    (current_position_size current_entry_price ratio : Decimal) : Run unit :=
  let sell_orders := filter (is_side "A") scaled_orders in
  match sell_orders with
  | [] => print [Str (nl ++ "No pending sell orders to summarize.")]
  | _ :: _ =>
    (total_sell_size <- eval (sum_sizes sell_orders) ;;
     total_sell_value <- eval (sum_costs sell_orders) ;;
     scaled_current_size <- eval (dec_mul current_position_size ratio) ;;
     (* net position after all sell orders fill *)
     net_position <- eval (dec_sub scaled_current_size total_sell_size) ;;
     print [Str (nl ++ str_repeat "=" 70)] ;;
     print [Str "SHORT SUMMARY (if all sell orders are filled)"] ;;
     print [Str (str_repeat "=" 70)] ;;
     print [Str "Current Position:        "; Num ">12.3f" scaled_current_size;
            Str " BTC"] ;;
     print [Str "Sell Orders Total:       "; Num ">12.3f" total_sell_size;
            Str " BTC"] ;;
     print [Str "Net Position:            "; Num ">12.3f" net_position;
            Str " BTC"] ;;
     (if dec_lt net_position dec_zero then
        avg_entry <-
          (if dec_lt scaled_current_size dec_zero then
             (* was short, adding more short *)
             size <- eval (dec_abs scaled_current_size) ;;
             current_value <- eval (dec_mul size current_entry_price) ;;
             total <- eval (dec_add current_value total_sell_value) ;;
             net <- eval (dec_abs net_position) ;;
             eval (dec_div total net)
           else
             (* was long or flat, now short from sells only *)
             if dec_gt total_sell_size dec_zero
             then eval (dec_div total_sell_value total_sell_size)
             else run_ret (mkDecimal false 0 0)) ;;
        print [Str "Average Entry Price:     $"; Num ">14,.2f" avg_entry]
      else run_ret tt) ;;
     print [Str "Capital Required:        $"; Num ">14,.2f" total_sell_value])%run
  end.

Definition main (w : World) : Run unit :=
  (print [Str (str_repeat "=" 70)] ;;
   print [Str "HYPERLIQUID BTC ORDER SCALING TOOL"] ;;
   print [Str (str_repeat "=" 70)] ;;
   (* configuration *)
   let address := get_address w in
   print [Str (nl ++ "Tracking address: "); Str address] ;;
   (* user inputs *)
   user_direction <- get_user_position_choice w ;;
   user_btc_size <- get_user_btc_size w ;;
   print [Str (nl ++ "Your selection: "); Str (str_upper user_direction);
          Str " position"] ;;
   print [Str "Your BTC size: "; Num "" user_btc_size; Str " BTC"] ;;
   (* fetch data *)
   print [Str (nl ++ "Fetching account data from Hyperliquid...")] ;;
   account_state <- fetch_account_state w ;;
   orders <- fetch_open_orders w ;;
   fills <- fetch_user_fills w ;;
   (* last activity time *)
   last_activity <- convert (get_last_activity_time w orders fills) ;;
   print [Str "Last account activity: "; Str last_activity] ;;
   (* BTC position *)
   match get_btc_position account_state with
   | None =>
       print [Str (nl ++ "Error: No BTC position found for this account.")] ;;
       sys_exit 1
   | Some btc_position =>
     (* account direction *)
     match determine_position_direction btc_position with
     | None =>
         print [Str (nl ++
                  "Error: Account has no active BTC position (size is 0).")] ;;
         sys_exit 1
     | Some account_direction =>
       (* validate direction *)
       (if negb (String.eqb account_direction user_direction) then
          print [Str nl; Str (str_repeat "=" 70)] ;;
          print [Str "ERROR: Direction mismatch!"] ;;
          print [Str (str_repeat "=" 70)] ;;
          print [Str "Your selected direction: ";
                 Str (str_upper user_direction)] ;;
          print [Str "Account position direction: ";
                 Str (str_upper account_direction)] ;;
          print [Str (nl ++
                   "Cannot scale orders when directions do not match.")] ;;
          sys_exit 1
        else run_ret tt) ;;
       (* BTC orders *)
       let btc_orders := get_btc_orders orders in
       (match btc_orders with
        | [] =>
            print [Str (nl ++
                     "No pending BTC orders found for this account.")] ;;
            sys_exit 0
        | _ :: _ => run_ret tt
        end) ;;
       (* scaling ratio from the BTC position size *)
       account_btc_size <- eval (get_position_size btc_position) ;;
       (if dec_eq account_btc_size dec_zero then
          print [Str (nl ++
            "Error: Account BTC position size is 0, cannot calculate ratio.")] ;;
          sys_exit 1
        else run_ret tt) ;;
       ratio <- eval (dec_div user_btc_size account_btc_size) ;;
       print [Str (nl ++ "Account: "); Str (str_upper account_direction);
              Str " "; Num "" account_btc_size; Str " BTC @ $";
              Num ",.2f" (decimal_or_0 (pos_entryPx btc_position))] ;;
       print [Str "You:     "; Str (str_upper user_direction); Str " ";
              Num "" user_btc_size; Str " BTC (scaling ratio: ";
              Num ".4f" ratio; Str ")"] ;;
       print [Str "Pending orders: "; Int (Z.of_nat (List.length btc_orders))] ;;
       (* scale, print, summarise *)
       scaled_orders <- eval (scale_orders btc_orders ratio) ;;
       print_scaled_orders scaled_orders ;;
       let current_size := decimal_or_0 (pos_szi btc_position) in
       let current_entry := decimal_or_0 (pos_entryPx btc_position) in
       print_long_summary scaled_orders current_size current_entry ratio ;;
       print_short_summary scaled_orders current_size current_entry ratio ;;
       print [Str (nl ++ str_repeat "=" 70)] ;;
       print [Str "Done!"] ;;
       print [Str (str_repeat "=" 70)]
     end
   end)%run.

(* ================================================================== *)
(** ** 5. The statements of the specification, and sample data         *)
(* ================================================================== *)

(** Truncation to three decimal places, [floor3], on rationals: round
    towards zero at the third decimal. *)
Definition Qtrunc (x : Q) : Z :=
  if Qle_bool 0 x then Qfloor x else Qceiling x.
Definition floor3 (x : Q) : Q :=
  (inject_Z (Qtrunc (x * inject_Z 1000)) / inject_Z 1000)%Q.

(** The same value as a decimal number with three decimal places. *)
Definition floor3_decimal (x : Q) : Decimal :=
  let t := Qtrunc (x * inject_Z 1000)%Q in
  mkDecimal (t <? 0)%Z (Z.abs_N t) (-3).

(** The integer part of a non-negative decimal number. *)
Definition int_part (d : Decimal) : N :=
  if (0 <=? d_exp d)%Z then (d_int d * pow10 (d_exp d))%N
  else (d_int d / pow10 (- d_exp d))%N.

(** A thousand times the absolute value. *)
Definition shift3 (d : Decimal) : Decimal :=
  mkDecimal false (d_int d) (d_exp d + 3).

(** The size [scale_orders] works with: the absolute value of the size
    field, zero when the field is missing. *)
Definition magnitude (order : Order) : Decimal :=
  copy_abs (decimal_or_0 (ord_sz order)).

(** The scaled order the specification describes: the size truncated to
    three decimals, and the exact notional. *)
Definition scaled_as_specified (ratio : Decimal) (order : Order) : ScaledOrder :=
  let s := magnitude order in
  let p := decimal_or_0 (ord_limitPx order) in
  let q := floor3_decimal (to_Q s * to_Q ratio) in
  mkScaledOrder (match ord_side order with Some x => x | None => "" end)
                p s q (raw_mul q p).

(** An order whose arithmetic stays inside the context: the size has at
    most 28 digits, so has its exact product with the ratio, which lies
    below [10^25], and so has the exact notional. *)
Definition within_context (ratio : Decimal) (order : Order) : Prop :=
  let s := magnitude order in
  let p := decimal_or_0 (ord_limitPx order) in
  fits s /\
  fits (raw_mul s ratio) /\
  (to_Q s * to_Q ratio < inject_Z (10 ^ 25))%Q /\
  fits (raw_mul (floor3_decimal (to_Q s * to_Q ratio)) p).

(** An order whose size is not negative. *)
Definition unsigned_size (order : Order) : Prop :=
  d_sign (decimal_or_0 (ord_sz order)) = false.

(** The order with every missing field written out. *)
Definition with_defaults (order : Order) : Order :=
  mkOrder (ord_coin order)
          (Some (match ord_side order with Some x => x | None => "" end))
          (Some (decimal_or_0 (ord_sz order)))
          (Some (decimal_or_0 (ord_limitPx order)))
          (ord_timestamp order).

(** What the specification asks of one scaled order. *)
Definition scaled_correctly (ratio : Decimal) (order : Order)
    (so : ScaledOrder) : Prop :=
  let s := decimal_or_0 (ord_sz order) in
  let p := decimal_or_0 (ord_limitPx order) in
  (to_Q (scaled_size so) == floor3 (to_Q s * to_Q ratio))%Q /\
  (0 <= to_Q (scaled_size so))%Q /\
  (to_Q (scaled_size so) <= to_Q s * to_Q ratio)%Q /\
  (to_Q (notional so) == to_Q (scaled_size so) * to_Q p)%Q /\
  side so = match ord_side order with Some x => x | None => "" end /\
  price so = p /\
  original_size so = s.

(** Scenario B of the specification. *)
Definition order_B : Order :=
  mkOrder (Some "BTC") (Some "B") (Some (mkDecimal false 333333 (-6)))
          (Some (mkDecimal false 50000 0)) None.

(** The ratio 1/3 as the script computes it, and an order of size 3.3. *)
Definition one_third : Decimal :=
  mkDecimal false 3333333333333333333333333333 (-28).
Definition order_3_3 : Order :=
  mkOrder (Some "BTC") (Some "B") (Some (mkDecimal false 33 (-1)))
          (Some (mkDecimal false 50000 0)) None.

(** "N unit(s) ago": the plural suffix is left out exactly when N is 1. *)
Definition ago (n : Z) (unit : string) : string :=
  str_of_Z n ++ " " ++ unit ++ (if (n =? 1)%Z then "" else "s") ++ " ago".

(** A timestamp found in the order list or in the fill list. *)
Definition found (t : Z) (orders : list Order) (fills : list Fill) : Prop :=
  (exists o, In o orders /\ ord_timestamp o = Some t) \/
  (exists f, In f fills /\ fill_time f = Some t).

(** An order that carries a timestamp and nothing else. *)
Definition order_at (t : Z) : Order :=
  mkOrder (Some "BTC") None None None (Some t).

(** The fills a run works with: fetched, or none when the request fails. *)
Definition fills_of (w : World) : list Fill :=
  match userFills w with
  | Response r => r
  | RequestException _ => []
  end.

(** What a run prints before it asks the venue. *)
Definition banner (w : World) : list Line :=
  ([ [Str (str_repeat "=" 70)];
     [Str "HYPERLIQUID BTC ORDER SCALING TOOL"];
     [Str (str_repeat "=" 70)];
     [Str (nl ++ "Tracking address: "); Str (get_address w)] ]
   ++ fst (position_choice w)
   ++ fst (btc_size w)
   ++ [ [Str (nl ++ "Your selection: ");
         Str (str_upper (snd (position_choice w))); Str " position"];
        [Str "Your BTC size: "; Num "" (snd (btc_size w)); Str " BTC"];
        [Str (nl ++ "Fetching account data from Hyperliquid...")] ])%list.

(** A run gets past the activity line when the latest timestamp, if there
    is one, can be converted; [activity_text] is what the line then says. *)
Definition activity_reported (w : World) (orders : list Order) : Prop :=
  get_last_activity_time w orders (fills_of w) <> None.

Definition activity_text (w : World) (orders : list Order) : string :=
  match get_last_activity_time w orders (fills_of w) with
  | Some text => text
  | None => ""
  end.

(** What a run has printed once the three requests are answered. *)
Definition preamble (w : World) (orders : list Order) : list Line :=
  (banner w ++
   [ [Str "Last account activity: "; Str (activity_text w orders)] ])%list.

(** The direction-mismatch message: it names both directions. *)
Definition mismatch_message (user_direction account_direction : string)
    : list Line :=
  [ [Str nl; Str (str_repeat "=" 70)];
    [Str "ERROR: Direction mismatch!"];
    [Str (str_repeat "=" 70)];
    [Str "Your selected direction: "; Str (str_upper user_direction)];
    [Str "Account position direction: "; Str (str_upper account_direction)];
    [Str (nl ++ "Cannot scale orders when directions do not match.")] ].

Definition no_pending_orders_message : Line :=
  [Str (nl ++ "No pending BTC orders found for this account.")].

Definition zero_size_message : Line :=
  [Str (nl ++ "Error: Account BTC position size is 0, cannot calculate ratio.")].

Definition no_active_position_message : Line :=
  [Str (nl ++ "Error: Account has no active BTC position (size is 0).")].

(** The same world with another answer to one of the three requests. *)
Definition with_account (w : World) (r : Fetch AccountState) : World :=
  mkWorld (HYPERLIQUID_ADDRESS w) (position_choice w) (btc_size w)
          r (openOrders w) (userFills w) (now_us w) (localtime w).

Definition with_orders (w : World) (r : Fetch (list Order)) : World :=
  mkWorld (HYPERLIQUID_ADDRESS w) (position_choice w) (btc_size w)
          (clearinghouseState w) r (userFills w) (now_us w) (localtime w).

Definition with_fills (w : World) (r : Fetch (list Fill)) : World :=
  mkWorld (HYPERLIQUID_ADDRESS w) (position_choice w) (btc_size w)
          (clearinghouseState w) (openOrders w) r (now_us w) (localtime w).

(** A short position of 0.5 BTC entered at 50000, and worlds around it. *)
Definition short_position : Position :=
  mkPosition (Some "BTC") (Some (mkDecimal true 5 (-1)))
             (Some (mkDecimal false 50000 0)).

Definition account_with (p : Position) : AccountState :=
  mkAccountState (Some [mkAssetPosition (Some p)]).

(** The quotient of two integers below [2^53] as IEEE 754 division in
    binary64 gives it, in the formalisation of the Standard Library. *)
Definition binary64_quotient (a b : Z) : option Q :=
  match SpecFloat.SFdiv 53 1024
          (SpecFloat.binary_normalize 53 1024 a 0 false)
          (SpecFloat.binary_normalize 53 1024 b 0 false) with
  | SpecFloat.S754_zero _ => Some 0%Q
  | SpecFloat.S754_finite s m e =>
      Some (inject_Z (if s then Z.neg m else Z.pos m) * two_power e)%Q
  | _ => None
  end.

Definition same_quotient (ab : Z * Z) : bool :=
  match binary64_quotient (fst ab) (snd ab) with
  | Some q => Qeq_bool q (nearest_float (fst ab # Z.to_pos (snd ab)))
  | None => false
  end.

(** A platform on UTC: the local time of an instant is the instant, and
    the instants of the years 1 to 9999 are the ones it converts. *)
Definition utc (t : Z) : option Z :=
  if ((-62135596800 <=? t) && (t <=? 253402300799))%Z then Some t else None.

Definition world_with (choice : string) (p : Position) (orders : list Order)
    : World :=
  mkWorld None ([], choice) ([], mkDecimal false 1 0)
          (Response (account_with p)) (Response orders) (Response [])
          1700000200000000 utc.

(** A world of which only the clock matters. *)
Definition clock (now : Z) : World :=
  mkWorld None ([], "long") ([], mkDecimal false 1 0)
          (RequestException "") (RequestException "") (RequestException "")
          now utc.

(** An order for another coin. *)
Definition eth_order : Order :=
  mkOrder (Some "ETH") (Some "B") (Some (mkDecimal false 1 0))
          (Some (mkDecimal false 3000 0)) None.


(** The buy-side orders of a scaled order book. *)
Definition buy_orders (scaled_orders : list ScaledOrder) : list ScaledOrder :=
  filter (is_side "B") scaled_orders.

(** The lines of the buy-fill summary. *)
Definition current_position_line (d : Decimal) : Line :=
  [Str "Current Position:        "; Num ">12.3f" d; Str " BTC"].
Definition buy_total_line (d : Decimal) : Line :=
  [Str "Buy Orders Total:        "; Num ">12.3f" d; Str " BTC"].
Definition net_position_line (d : Decimal) : Line :=
  [Str "Net Position:            "; Num ">12.3f" d; Str " BTC"].
Definition average_entry_line (d : Decimal) : Line :=
  [Str "Average Entry Price:     $"; Num ">14,.2f" d].
Definition capital_required_line (d : Decimal) : Line :=
  [Str "Capital Required:        $"; Num ">14,.2f" d].

(** The whole buy-fill summary: the position the projection starts from,
    the total bought, the net position, the average entry when there is
    one, and the capital required. *)
Definition long_summary (scaled_current_size total_buy_size net_position : Decimal)
    (average_entry : option Decimal) (capital_required : Decimal) : list Line :=
  ([ [Str (nl ++ str_repeat "=" 70)];
     [Str "LONG SUMMARY (if all buy orders are filled)"];
     [Str (str_repeat "=" 70)];
     current_position_line scaled_current_size;
     buy_total_line total_buy_size;
     net_position_line net_position ]
   ++ match average_entry with
      | Some a => [average_entry_line a]
      | None => []
      end
   ++ [capital_required_line capital_required])%list.

(** [adds_up acc xs total]: adding the numbers [xs] to [acc] one by one,
    from the left, in the arithmetic of the script, gives [total]. *)
Inductive adds_up : Decimal -> list Decimal -> Decimal -> Prop :=
| adds_up_nil (acc : Decimal) : adds_up acc [] acc
| adds_up_cons (acc x acc' total : Decimal) (xs : list Decimal) :
    dec_add acc x = Ok acc' ->
    adds_up acc' xs total ->
    adds_up acc (x :: xs) total.

(** [total] is the sum of [xs], starting from the integer 0. *)
Definition sum_is (xs : list Decimal) (total : Decimal) : Prop :=
  adds_up dec_zero xs total.

(** [costs] are the products of scaled size and price of [orders], one
    for each order, in the arithmetic of the script. *)
Definition costs_are (orders : list ScaledOrder) (costs : list Decimal)
    : Prop :=
  Forall2 (fun o c => dec_mul (scaled_size o) (price o) = Ok c) orders costs.

(** The sum of rational numbers, and the sums that the script computes
    without rounding: every partial sum fits the context. *)
Definition Qsum (xs : list Q) : Q := fold_right Qplus 0%Q xs.

Fixpoint adds_exactly (acc : Decimal) (xs : list Decimal) : Prop :=
  match xs with
  | [] => True
  | x :: xs' => fits (raw_add acc x) /\ adds_exactly (raw_add acc x) xs'
  end.

(** The scaled sizes of orders, and their exact costs. *)
Definition sizes_of (orders : list ScaledOrder) : list Decimal :=
  map scaled_size orders.

Definition exact_cost (o : ScaledOrder) : Q :=
  (to_Q (scaled_size o) * to_Q (price o))%Q.

(** Two buy orders, of 0.500 at 50000 and of 0.250 at 48000, around a
    sell order of 0.100 at 52000. *)
Definition two_buys_and_a_sell : list ScaledOrder :=
  [mkScaledOrder "B" (mkDecimal false 50000 0) (mkDecimal false 5 (-1))
     (mkDecimal false 500 (-3)) (mkDecimal false 25000000 (-3));
   mkScaledOrder "A" (mkDecimal false 52000 0) (mkDecimal false 1 (-1))
     (mkDecimal false 100 (-3)) (mkDecimal false 5200000 (-3));
   mkScaledOrder "b" (mkDecimal false 48000 0) (mkDecimal false 25 (-2))
     (mkDecimal false 250 (-3)) (mkDecimal false 12000000 (-3))].

(** Scenario E: a buy order of 0.500 at 50000 against a short of 0.2. *)
Definition scenario_E_orders : list ScaledOrder :=
  [mkScaledOrder "B" (mkDecimal false 50000 0) (mkDecimal false 5 (-1))
     (mkDecimal false 500 (-3)) (mkDecimal false 25000000 (-3))].

(** What holds of every scaled order: the sizes are not negative, and
    neither is the notional when the price is not. *)
Definition scaled_unsigned (order : Order) (so : ScaledOrder) : Prop :=
  (0 <= to_Q (original_size so))%Q /\
  (0 <= to_Q (scaled_size so))%Q /\
  ((0 <= to_Q (decimal_or_0 (ord_limitPx order)))%Q ->
   (0 <= to_Q (notional so))%Q).

(** An order with no field at all, one with a size of 1E+26, one with a
    negative size, and one with a negative size and a negative price. *)
Definition empty_order : Order := mkOrder None None None None None.
Definition huge_order : Order :=
  mkOrder (Some "BTC") (Some "B") (Some (mkDecimal false 1 26))
          (Some (mkDecimal false 50000 0)) None.
Definition negative_order : Order :=
  mkOrder (Some "BTC") (Some "B") (Some (mkDecimal true 15 (-1)))
          (Some (mkDecimal false 50000 0)) None.
Definition negative_price_order : Order :=
  mkOrder (Some "BTC") (Some "B") (Some (mkDecimal true 15 (-1)))
          (Some (mkDecimal true 50000 0)) None.

(** The three lines printed once the ratio is known. *)
Definition ratio_report (account_direction user_direction : string)
    (account_btc_size entry user_btc_size ratio : Decimal) (pending : nat)
    : list Line :=
  [ [Str (nl ++ "Account: "); Str (str_upper account_direction); Str " ";
     Num "" account_btc_size; Str " BTC @ $"; Num ",.2f" entry];
    [Str "You:     "; Str (str_upper user_direction); Str " ";
     Num "" user_btc_size; Str " BTC (scaling ratio: "; Num ".4f" ratio;
     Str ")"];
    [Str "Pending orders: "; Int (Z.of_nat pending)] ].

(** A long position so small that its absolute value underflows to zero
    in the context. *)
Definition tiny_position : Position :=
  mkPosition (Some "BTC") (Some (mkDecimal false 1 (-1000050)))
             (Some (mkDecimal false 50000 0)).

(** An order whose size has 29 digits, and one whose price has 28. *)
Definition long_size_order : Order :=
  mkOrder (Some "BTC") (Some "B")
          (Some (mkDecimal false 99999999999999999999999999999 (-29)))
          (Some (mkDecimal false 50000 0)) None.
Definition long_price_order : Order :=
  mkOrder (Some "BTC") (Some "B") (Some (mkDecimal false 333 (-3)))
          (Some (mkDecimal false 1000000000000000000000000001 (-27))) None.

(** A number as the context leaves it: a zero with an exponent in range,
    or at most [prec] digits between [Etiny] and [Emax]. *)
Definition in_context (d : Decimal) : Prop :=
  (d_int d = 0%N -> Etiny <= d_exp d <= Emax)%Z /\
  (d_int d <> 0%N ->
   ndigits (d_int d) <= prec /\ Etiny <= d_exp d /\ adjusted d <= Emax)%Z.

(** A run that does not end in an uncaught [DivisionByZero]. *)
Definition never_divides_by_zero {A} (m : Run A) : Prop :=
  snd m <> Uncaught DivisionByZero.

(** An operation that never raises [DivisionByZero]. *)
Definition no_division_by_zero {A} (x : Exc A) : Prop :=
  forall e, x = Raise e -> e <> DivisionByZero.

(* ================================================================== *)
(** ** 5b. Further vocabulary for statements about the script          *)
(* ================================================================== *)

(** The position objects of an account state, in order: a missing
    ["assetPositions"] gives none, an entry without ["position"] gives the
    empty object. *)
Definition positions_of (account_state : AccountState) : list Position :=
  map (fun pos => match ap_position pos with
                  | Some p => p
                  | None => empty_position
                  end)
      (match assetPositions account_state with Some l => l | None => [] end).

(** The sell-side orders of a scaled order book. *)
Definition sell_orders (scaled_orders : list ScaledOrder) : list ScaledOrder :=
  filter (is_side "A") scaled_orders.

(** Orders by price: [a] is listed before [b] only if its price is not
    the lower one; and the orders priced [p]. *)
Definition not_below (a b : ScaledOrder) : Prop :=
  (to_Q (price b) <= to_Q (price a))%Q.

Definition same_price (p : Decimal) (o : ScaledOrder) : bool :=
  dec_eq (price o) p.

(** The sell-fill summary, line by line as the buy-fill one. *)
Definition sell_total_line (d : Decimal) : Line :=
  [Str "Sell Orders Total:       "; Num ">12.3f" d; Str " BTC"].

Definition short_summary (scaled_current_size total_sell_size net_position
    : Decimal) (average_entry : option Decimal) (capital_required : Decimal)
    : list Line :=
  ([ [Str (nl ++ str_repeat "=" 70)];
     [Str "SHORT SUMMARY (if all sell orders are filled)"];
     [Str (str_repeat "=" 70)];
     current_position_line scaled_current_size;
     sell_total_line total_sell_size;
     net_position_line net_position ]
   ++ match average_entry with
      | Some a => [average_entry_line a]
      | None => []
      end
   ++ [capital_required_line capital_required])%list.

(** Two sell orders, of 0.500 at 50000 and of 0.250 at 52000, around a
    buy order of 0.100 at 48000. *)
Definition two_sells_and_a_buy : list ScaledOrder :=
  [mkScaledOrder "A" (mkDecimal false 50000 0) (mkDecimal false 5 (-1))
     (mkDecimal false 500 (-3)) (mkDecimal false 25000000 (-3));
   mkScaledOrder "B" (mkDecimal false 48000 0) (mkDecimal false 1 (-1))
     (mkDecimal false 100 (-3)) (mkDecimal false 4800000 (-3));
   mkScaledOrder "a" (mkDecimal false 52000 0) (mkDecimal false 25 (-2))
     (mkDecimal false 250 (-3)) (mkDecimal false 13000000 (-3))].

(** A sell order of 0.500 at 50000. *)
Definition sell_half_at_50000 : list ScaledOrder :=
  [mkScaledOrder "A" (mkDecimal false 50000 0) (mkDecimal false 5 (-1))
     (mkDecimal false 500 (-3)) (mkDecimal false 25000000 (-3))].

(** A scaled order that carries no side, as [scale_orders] returns it for
    an order without the field. *)
Definition unsided_order : ScaledOrder :=
  mkScaledOrder "" (mkDecimal false 50000 0) (mkDecimal false 5 (-1))
    (mkDecimal false 500 (-3)) (mkDecimal false 25000000 (-3)).

Definition no_btc_position_message : Line :=
  [Str (nl ++ "Error: No BTC position found for this account.")].

(** The last three lines of a run that gets to its end. *)
Definition closing : list Line :=
  [ [Str (nl ++ str_repeat "=" 70)];
    [Str "Done!"];
    [Str (str_repeat "=" 70)] ].

(** The same world with other fills, another reading of the clock and
    another time zone. *)
Definition at_another_time (w : World) (fills : Fetch (list Fill)) (now : Z)
    (zone : Z -> option Z) : World :=
  mkWorld (HYPERLIQUID_ADDRESS w) (position_choice w) (btc_size w)
          (clearinghouseState w) (openOrders w) fills now zone.

(** The line that reports the last activity. *)
Definition last_activity_line (w : World) (orders : list Order) : Line :=
  [Str "Last account activity: "; Str (activity_text w orders)].

(** An account without any position, and a position of size zero. *)
Definition empty_account : AccountState := mkAccountState (Some []).
Definition flat_position : Position :=
  mkPosition (Some "BTC") (Some (mkDecimal false 0 0))
             (Some (mkDecimal false 50000 0)).

(** How a run may end: with status 1, or with status 0 when no BTC order
    is pending, or normally when orders of a position of the declared
    direction were there to scale, or in an arithmetic signal. *)
Definition expected_outcome (w : World) (r : Outcome unit) : Prop :=
  match r with
  | Exit code =>
      code = 1%Z \/
      (code = 0%Z /\
       exists orders,
         openOrders w = Response orders /\ get_btc_orders orders = [])
  | Done _ =>
      exists account_state orders btc_position,
        clearinghouseState w = Response account_state /\
        openOrders w = Response orders /\
        get_btc_position account_state = Some btc_position /\
        determine_position_direction btc_position =
          Some (snd (position_choice w)) /\
        get_btc_orders orders <> []
  | Uncaught _ => True
  end.

(** A step that does not call [sys.exit]. *)
Definition no_exit {A} (m : Run A) : Prop := forall code, snd m <> Exit code.
(* ================================================================== *)
(** ** 6. Facts about the decimal arithmetic                           *)
(* ================================================================== *)

Section SignFacts.

Variable d : Decimal.

Lemma pow10_Z_pos (k : Z) : (0 < 10 ^ k \/ k < 0)%Z.
Proof.
  destruct (Z.le_gt_cases 0 k) as [H | H]; [left | right; lia].
  now apply Z.pow_pos_nonneg.
Qed.

Lemma to_Q_num_sign :
  (0 < Qnum (to_Q d) <-> 0 < signed_int d)%Z /\
  (Qnum (to_Q d) < 0 <-> signed_int d < 0)%Z /\
  (Qnum (to_Q d) = 0 <-> signed_int d = 0)%Z.
Proof.
  unfold to_Q.
  destruct (0 <=? d_exp d)%Z eqn:He; cbn [Qnum inject_Z].
  - apply Z.leb_le in He.
    assert (0 < 10 ^ d_exp d)%Z by now apply Z.pow_pos_nonneg.
    nia.
  - tauto.
Qed.

Lemma to_Q_pos : (0 < to_Q d)%Q <-> d_sign d = false /\ d_int d <> 0%N.
Proof.
  destruct to_Q_num_sign as (Hp & _ & _).
  unfold Qlt; cbn [Qnum Qden].
  rewrite Z.mul_1_r, Z.mul_0_l, Hp. unfold signed_int.
  destruct (d_sign d); split; intros; try lia; intuition (try discriminate; lia).
Qed.

Lemma to_Q_neg : (to_Q d < 0)%Q <-> d_sign d = true /\ d_int d <> 0%N.
Proof.
  destruct to_Q_num_sign as (_ & Hn & _).
  unfold Qlt; cbn [Qnum Qden].
  rewrite Z.mul_1_r, Z.mul_0_l, Hn. unfold signed_int.
  destruct (d_sign d); split; intros; try lia; intuition (try discriminate; lia).
Qed.

Lemma to_Q_zero : (to_Q d == 0)%Q <-> d_int d = 0%N.
Proof.
  destruct to_Q_num_sign as (_ & _ & Hz).
  unfold Qeq; cbn [Qnum Qden].
  rewrite Z.mul_1_r, Z.mul_0_l, Hz. unfold signed_int.
  destruct (d_sign d); lia.
Qed.

(** Comparison with the literal [0] looks at the sign only. *)
Lemma dec_cmp_zero : dec_cmp d dec_zero = if is_zero d then 0%Z else sgn d.
Proof. unfold dec_cmp. now destruct (is_zero d). Qed.

Lemma dec_gt_zero : dec_gt d dec_zero = negb (is_zero d) && negb (d_sign d).
Proof.
  unfold dec_gt. rewrite dec_cmp_zero. unfold sgn.
  now destruct (is_zero d), (d_sign d).
Qed.

Lemma dec_lt_zero : dec_lt d dec_zero = negb (is_zero d) && d_sign d.
Proof.
  unfold dec_lt. rewrite dec_cmp_zero. unfold sgn.
  now destruct (is_zero d), (d_sign d).
Qed.

Lemma dec_eq_zero : dec_eq d dec_zero = is_zero d.
Proof.
  unfold dec_eq. rewrite dec_cmp_zero. unfold sgn.
  now destruct (is_zero d), (d_sign d).
Qed.

Lemma is_zero_true : is_zero d = true <-> d_int d = 0%N.
Proof. unfold is_zero. apply N.eqb_eq. Qed.

Lemma is_zero_false : is_zero d = false <-> d_int d <> 0%N.
Proof. unfold is_zero. apply N.eqb_neq. Qed.

Lemma dec_gt_zero_Q : dec_gt d dec_zero = true <-> (0 < to_Q d)%Q.
Proof.
  rewrite dec_gt_zero, to_Q_pos, andb_true_iff, !negb_true_iff, is_zero_false.
  tauto.
Qed.

Lemma dec_lt_zero_Q : dec_lt d dec_zero = true <-> (to_Q d < 0)%Q.
Proof.
  rewrite dec_lt_zero, to_Q_neg, andb_true_iff, negb_true_iff, is_zero_false.
  tauto.
Qed.

Lemma dec_eq_zero_Q : dec_eq d dec_zero = true <-> (to_Q d == 0)%Q.
Proof. now rewrite dec_eq_zero, to_Q_zero, is_zero_true. Qed.

End SignFacts.

(* ================================================================== *)
(** ** 7. Direction of a position                                      *)
(* ================================================================== *)

(** C4. For every position, with [size] the decimal value of its signed
    size (zero when the field is missing): the direction is "long" if and
    only if [size > 0], "short" if and only if [size < 0], and there is
    no direction ([None]) if and only if [size = 0]. *)
Theorem determine_position_direction_iff (position : Position) :
  let size := to_Q (decimal_or_0 (pos_szi position)) in
  (determine_position_direction position = Some "long" <-> (0 < size)%Q) /\
  (determine_position_direction position = Some "short" <-> (size < 0)%Q) /\
  (determine_position_direction position = None <-> (size == 0)%Q).
Proof.
  cbv zeta. set (d := decimal_or_0 (pos_szi position)).
  unfold determine_position_direction. fold d.
  rewrite <- dec_gt_zero_Q, <- dec_lt_zero_Q, <- dec_eq_zero_Q.
  rewrite dec_gt_zero, dec_lt_zero, dec_eq_zero.
  destruct (is_zero d), (d_sign d); cbn; repeat split; intros; congruence.
Qed.

(* ================================================================== *)
(** ** 8. Digits and powers of ten                                     *)
(* ================================================================== *)

Lemma pow10_pos (k : Z) : (0 < pow10 k)%N.
Proof. unfold pow10. apply N.neq_0_lt_0, N.pow_nonzero. discriminate. Qed.

Lemma pow10_nonpos (k : Z) : (k <= 0)%Z -> pow10 k = 1%N.
Proof. intros H. unfold pow10. now replace (Z.to_N k) with 0%N by lia. Qed.

Lemma pow10_succ (k : Z) : (0 <= k)%Z -> pow10 (k + 1) = (10 * pow10 k)%N.
Proof.
  intros H. unfold pow10.
  replace (Z.to_N (k + 1)) with (N.succ (Z.to_N k)) by lia.
  apply N.pow_succ_r'.
Qed.

Lemma pow10_add (a b : Z) :
  (0 <= a)%Z -> (0 <= b)%Z -> pow10 (a + b) = (pow10 a * pow10 b)%N.
Proof.
  intros Ha Hb. unfold pow10. rewrite Z2N.inj_add by assumption.
  apply N.pow_add_r.
Qed.

Lemma pow10_le_mono (a b : Z) : (a <= b)%Z -> (pow10 a <= pow10 b)%N.
Proof.
  intros H. unfold pow10. apply N.pow_le_mono_r; [discriminate | lia].
Qed.

Lemma pow10_lt_mono (a b : Z) :
  (0 <= a)%Z -> (a < b)%Z -> (pow10 a < pow10 b)%N.
Proof.
  intros Ha H. unfold pow10. apply N.pow_lt_mono_r; lia.
Qed.

Lemma pow10_Z (k : Z) : (0 <= k)%Z -> Z.of_N (pow10 k) = (10 ^ k)%Z.
Proof.
  intros H. unfold pow10. rewrite N2Z.inj_pow, Z2N.id by assumption.
  reflexivity.
Qed.

(** [ndigits n] is the length of the decimal numeral of [n]. *)
Lemma ndigits_aux_bounds (fuel : nat) : forall n : N,
  (n < 2 ^ N.of_nat fuel)%N ->
  (1 <= ndigits_aux fuel n)%Z /\
  (n < pow10 (ndigits_aux fuel n))%N /\
  (n <> 0%N -> (pow10 (ndigits_aux fuel n - 1) <= n)%N).
Proof.
  induction fuel as [| fuel IH]; intros n Hn.
  - cbn in Hn. assert (n = 0%N) by lia. subst n. cbn.
    repeat split; try lia.
  - cbn [ndigits_aux].
    destruct (N.ltb_spec n 10) as [Hlt | Hge].
    + repeat split; try lia.
      * exact Hlt.
      * intros H0. cbn. lia.
    + pose proof (N.div_mod n 10 ltac:(discriminate)) as Hdm.
      pose proof (N.mod_lt n 10 ltac:(discriminate)) as Hm.
      revert Hdm Hm. generalize (n mod 10)%N as r.
      pose proof (IH (n / 10)%N) as IHq. revert IHq.
      generalize (n / 10)%N as q. intros q IHq r Hdm Hm.
      assert (Hq : (q < 2 ^ N.of_nat fuel)%N).
      { rewrite Nat2N.inj_succ, N.pow_succ_r' in Hn. lia. }
      destruct (IHq Hq) as (H1 & Hup & Hlow).
      assert (Hq0 : q <> 0%N) by lia.
      specialize (Hlow Hq0).
      repeat split; try lia.
      * replace (1 + ndigits_aux fuel q)%Z
          with (ndigits_aux fuel q + 1)%Z by lia.
        rewrite pow10_succ by lia. lia.
      * intros _.
        replace (1 + ndigits_aux fuel q - 1)%Z
          with ((ndigits_aux fuel q - 1) + 1)%Z by lia.
        rewrite pow10_succ by lia. lia.
Qed.

Lemma ndigits_bounds (n : N) :
  (1 <= ndigits n)%Z /\
  (n < pow10 (ndigits n))%N /\
  (n <> 0%N -> (pow10 (ndigits n - 1) <= n)%N).
Proof.
  unfold ndigits. apply ndigits_aux_bounds.
  rewrite N2Nat.id. apply N.size_gt.
Qed.

Lemma ndigits_pos (n : N) : (1 <= ndigits n)%Z.
Proof. apply ndigits_bounds. Qed.

Lemma ndigits_le (n : N) (k : Z) :
  (1 <= k)%Z -> (n < pow10 k)%N -> (ndigits n <= k)%Z.
Proof.
  intros Hk Hn.
  destruct (ndigits_bounds n) as (H1 & _ & Hlow).
  destruct (N.eq_dec n 0) as [-> | Hn0]; [cbn; lia |].
  specialize (Hlow Hn0).
  destruct (Z.le_gt_cases (ndigits n) k) as [H | H]; [exact H | exfalso].
  assert (pow10 k <= pow10 (ndigits n - 1))%N by (apply pow10_le_mono; lia).
  lia.
Qed.

Lemma ndigits_ge (n : N) (k : Z) :
  (pow10 (k - 1) <= n)%N -> n <> 0%N -> (k <= ndigits n)%Z.
Proof.
  intros Hn Hn0.
  destruct (ndigits_bounds n) as (H1 & Hup & _).
  destruct (Z.le_gt_cases k (ndigits n)) as [H | H]; [exact H | exfalso].
  assert (pow10 (ndigits n) <= pow10 (k - 1))%N by (apply pow10_le_mono; lia).
  lia.
Qed.

Lemma ndigits_zero : ndigits 0 = 1%Z.
Proof. reflexivity. Qed.

(* ================================================================== *)
(** ** 9. The value of a decimal number                                *)
(* ================================================================== *)

Lemma ten_nonzero : ~ (inject_Z 10 == 0)%Q.
Proof. discriminate. Qed.

Lemma to_Q_Qpower (d : Decimal) :
  (to_Q d == inject_Z (signed_int d) * inject_Z 10 ^ d_exp d)%Q.
Proof.
  unfold to_Q. destruct (Z.leb_spec 0 (d_exp d)) as [He | He].
  - rewrite inject_Z_mult, Zpower_Qpower by assumption. reflexivity.
  - assert (Hp : (0 < 10 ^ (- d_exp d))%Z) by (apply Z.pow_pos_nonneg; lia).
    rewrite Qmake_Qdiv, Z2Pos.id by assumption.
    replace (d_exp d) with (- - d_exp d)%Z at 2 by lia.
    rewrite Qpower_opp, <- Zpower_Qpower by lia. reflexivity.
Qed.

Lemma signed_int_raw_mul (a b : Decimal) :
  signed_int (raw_mul a b) = (signed_int a * signed_int b)%Z.
Proof.
  unfold signed_int, raw_mul; cbn [d_sign d_int].
  rewrite N2Z.inj_mul. destruct (d_sign a), (d_sign b); cbn [xorb]; lia.
Qed.

(** The exact product denotes the product of the values. *)
Lemma to_Q_raw_mul (a b : Decimal) :
  (to_Q (raw_mul a b) == to_Q a * to_Q b)%Q.
Proof.
  rewrite !to_Q_Qpower, signed_int_raw_mul. cbn [raw_mul d_exp].
  rewrite inject_Z_mult, Qpower_plus by exact ten_nonzero. ring.
Qed.

Lemma to_Q_shift3 (d : Decimal) :
  (to_Q d * inject_Z 1000 ==
   to_Q (mkDecimal (d_sign d) (d_int d) (d_exp d + 3)))%Q.
Proof.
  rewrite !to_Q_Qpower. cbn [d_exp].
  rewrite Qpower_plus by exact ten_nonzero.
  change (signed_int (mkDecimal (d_sign d) (d_int d) (d_exp d + 3)))
    with (signed_int d).
  change (inject_Z 10 ^ 3)%Q with (inject_Z 1000 * 1)%Q. ring.
Qed.

Lemma to_Q_nonneg (d : Decimal) : d_sign d = false -> (0 <= to_Q d)%Q.
Proof.
  intros Hs. destruct (N.eq_dec (d_int d) 0) as [H0 | H0].
  - apply to_Q_zero in H0. rewrite H0. apply Qle_refl.
  - apply Qlt_le_weak, to_Q_pos. now split.
Qed.

Lemma Qfloor_to_Q (d : Decimal) :
  d_sign d = false -> Qfloor (to_Q d) = Z.of_N (int_part d).
Proof.
  intros Hs. unfold to_Q, int_part, signed_int. rewrite Hs.
  destruct (Z.leb_spec 0 (d_exp d)) as [He | He].
  - rewrite Qfloor_Z, N2Z.inj_mul, pow10_Z by assumption. reflexivity.
  - cbn [Qfloor].
    assert (Hp : (0 < 10 ^ (- d_exp d))%Z) by (apply Z.pow_pos_nonneg; lia).
    rewrite Z2Pos.id, N2Z.inj_div, pow10_Z by lia. reflexivity.
Qed.

Lemma Qtrunc_nonneg (x : Q) : (0 <= x)%Q -> Qtrunc x = Qfloor x.
Proof.
  intros H. unfold Qtrunc. apply Qle_bool_iff in H. now rewrite H.
Qed.

Lemma floor3_decimal_to_Q (d : Decimal) :
  d_sign d = false ->
  floor3_decimal (to_Q d) =
  mkDecimal false (int_part (mkDecimal false (d_int d) (d_exp d + 3))) (-3).
Proof.
  intros Hs. unfold floor3_decimal.
  assert (Ht : Qtrunc (to_Q d * inject_Z 1000) =
               Z.of_N (int_part (mkDecimal false (d_int d) (d_exp d + 3)))).
  { rewrite Qtrunc_nonneg.
    - rewrite (Qfloor_comp _ _ (to_Q_shift3 d)), Hs. now apply Qfloor_to_Q.
    - rewrite to_Q_shift3. now apply to_Q_nonneg. }
  rewrite Ht. f_equal.
  - apply Z.ltb_ge. apply N2Z.is_nonneg.
  - lia.
Qed.

(* ================================================================== *)
(** ** 10. Numbers that fit the context, and truncation                *)
(* ================================================================== *)

(** A number with at most [prec] digits and exponents in range is left
    alone by the context. *)
Lemma fits_intro (d : Decimal) :
  (d_int d = 0%N -> Etiny <= d_exp d <= Emax)%Z ->
  (d_int d <> 0%N ->
   ndigits (d_int d) <= prec /\ Etiny <= d_exp d /\ adjusted d <= Emax)%Z ->
  fits d.
Proof.
  intros Hzero Hnz. unfold fits, dec_fix.
  destruct (is_zero d) eqn:Hz.
  - apply is_zero_true in Hz. specialize (Hzero Hz).
    destruct d as [s c e]; cbn [d_int d_exp d_sign] in *. subst c.
    now replace (Z.min (Z.max e Etiny) Emax) with e
      by (unfold Etiny, Emin, Emax, prec in *; lia).
  - apply is_zero_false in Hz. destruct (Hnz Hz) as (Hlen & Hlo & Hhi).
    unfold adjusted in Hhi. unfold Etop, Etiny, Emin, Emax, prec in *.
    destruct (Z.ltb_spec (999999 - 28 + 1)
                (ndigits (d_int d) + d_exp d - 28)); [lia |].
    destruct (Z.ltb_spec (ndigits (d_int d) + d_exp d - 28)
                (-999999 - 28 + 1));
      match goal with
      | |- context [(d_exp d <? ?x)%Z] =>
          destruct (Z.ltb_spec (d_exp d) x); [lia | reflexivity]
      end.
Qed.

Lemma int_part_zero (e : Z) : int_part (mkDecimal false 0 e) = 0%N.
Proof.
  unfold int_part; cbn [d_int d_exp].
  destruct (0 <=? e)%Z; [reflexivity |].
  apply N.Div0.div_0_l.
Qed.

Lemma int_part_shift3_bound (m : Decimal) :
  d_sign m = false ->
  (to_Q m < inject_Z (10 ^ 25))%Q ->
  (int_part (shift3 m) < pow10 28)%N.
Proof.
  intros Hs Hlt.
  assert (Hf : (Z.of_N (int_part (shift3 m)) < 10 ^ 28)%Z).
  { rewrite <- (Qfloor_to_Q (shift3 m)) by reflexivity.
    rewrite Zlt_Qlt.
    apply Qle_lt_trans with (to_Q (shift3 m)); [apply Qfloor_le |].
    unfold shift3. rewrite <- Hs at 1.
    change (mkDecimal (d_sign m) (d_int m) (d_exp m + 3))
      with (mkDecimal (d_sign m) (d_int m) (d_exp m + 3)).
    rewrite <- to_Q_shift3.
    change (inject_Z (10 ^ 28)) with (inject_Z (10 ^ 25) * inject_Z 1000)%Q.
    apply Qmult_lt_compat_r; [reflexivity | exact Hlt]. }
  rewrite <- pow10_Z in Hf by lia. lia.
Qed.

Lemma int_part_shift3_digits (m : Decimal) :
  is_zero m = false ->
  (int_part (shift3 m) < pow10 28)%N ->
  (ndigits (d_int m) + d_exp m <= 25)%Z.
Proof.
  intros Hz Hb. apply is_zero_false in Hz.
  destruct (ndigits_bounds (d_int m)) as (H1 & _ & Hlow).
  specialize (Hlow Hz).
  set (len := ndigits (d_int m)) in *.
  unfold int_part, shift3 in Hb; cbn [d_int d_exp] in Hb.
  destruct (Z.le_gt_cases (len + d_exp m) 25) as [H | H]; [exact H | exfalso].
  destruct (Z.leb_spec 0 (d_exp m + 3)) as [He | He].
  - assert (Hp : (pow10 28 <= pow10 ((len - 1) + (d_exp m + 3)))%N)
      by (apply pow10_le_mono; lia).
    rewrite pow10_add in Hp by lia.
    pose proof (N.mul_le_mono_r _ _ (pow10 (d_exp m + 3)) Hlow). lia.
  - set (k := (- (d_exp m + 3))%Z) in *.
    assert (Hp : (pow10 (28 + k) <= pow10 (len - 1))%N)
      by (apply pow10_le_mono; lia).
    rewrite pow10_add in Hp by lia.
    pose proof (pow10_pos k) as Hk.
    pose proof (N.div_mod (d_int m) (pow10 k) ltac:(lia)) as Hdm.
    pose proof (N.mod_lt (d_int m) (pow10 k) ltac:(lia)) as Hm.
    revert Hb Hdm Hm.
    generalize (d_int m / pow10 k)%N as q, (d_int m mod pow10 k)%N as r.
    intros q r Hb Hdm Hm. nia.
Qed.

(** Truncating to three decimals keeps the integer part of [1000 x]. *)
Lemma dec_rescale_down3 (m : Decimal) :
  is_zero m = false ->
  dec_rescale m (-3) ROUND_DOWN =
  mkDecimal (d_sign m) (int_part (shift3 m)) (-3).
Proof.
  intros Hz. unfold dec_rescale. rewrite Hz.
  unfold int_part, shift3; cbn [d_int d_exp].
  destruct (Z.leb_spec (-3) (d_exp m)) as [He | He].
  - destruct (Z.leb_spec 0 (d_exp m + 3)); [| lia].
    now replace (d_exp m - -3)%Z with (d_exp m + 3)%Z by lia.
  - destruct (Z.leb_spec 0 (d_exp m + 3)); [lia |].
    destruct (ndigits_bounds (d_int m)) as (H1 & Hup & _).
    set (len := ndigits (d_int m)) in *.
    destruct (Z.ltb_spec (len + d_exp m - -3) 0) as [Hd | Hd].
    + (* nothing is left of the coefficient *)
      cbn [pick_rounding_function]. f_equal.
      change (round_down 1 1 0 =? 1)%Z with false. cbv iota.
      change (digits_head 1 1 0) with 0%N.
      symmetry. apply N.div_small.
      apply N.lt_le_trans with (pow10 len); [exact Hup |].
      apply pow10_le_mono. lia.
    + cbn [pick_rounding_function]. f_equal.
      assert (Hc : (round_down (d_int m) len (len + d_exp m - -3) =? 1)%Z
                   = false).
      { unfold round_down. now destruct all_zeros. }
      rewrite Hc. unfold digits_head.
      now replace (len - (len + d_exp m - -3))%Z
        with (- (d_exp m + 3))%Z by lia.
Qed.

(** [quantize(Decimal("0.001"), rounding=ROUND_DOWN)] of a non-negative
    number below [10^25] is [floor3] of it. *)
Lemma dec_quantize_floor3 (m : Decimal) :
  d_sign m = false ->
  (to_Q m < inject_Z (10 ^ 25))%Q ->
  dec_quantize m (mkDecimal false 1 (-3)) ROUND_DOWN =
  Ok (floor3_decimal (to_Q m)).
Proof.
  intros Hs Hlt. rewrite (floor3_decimal_to_Q m Hs). fold (shift3 m).
  pose proof (int_part_shift3_bound m Hs Hlt) as Hb.
  unfold dec_quantize. cbn [d_exp].
  change (negb ((Etiny <=? -3)%Z && (-3 <=? Emax)%Z)) with false. cbv iota.
  destruct (is_zero m) eqn:Hz.
  - apply is_zero_true in Hz. rewrite Hs.
    unfold shift3. rewrite Hz, int_part_zero. reflexivity.
  - pose proof (int_part_shift3_digits m Hz Hb) as Hd.
    unfold adjusted at 1 2.
    destruct (Z.ltb_spec Emax (d_exp m + ndigits (d_int m) - 1));
      [unfold Emax in *; lia |].
    destruct (Z.ltb_spec prec (d_exp m + ndigits (d_int m) - 1 - -3 + 1));
      [unfold prec in *; lia |].
    rewrite (dec_rescale_down3 m Hz), Hs.
    assert (Hn : (ndigits (int_part (shift3 m)) <= 28)%Z)
      by (apply ndigits_le; [lia | exact Hb]).
    unfold adjusted; cbn [d_int d_exp].
    destruct (Z.ltb_spec Emax (-3 + ndigits (int_part (shift3 m)) - 1));
      [unfold Emax in *; lia |].
    destruct (Z.ltb_spec prec (ndigits (int_part (shift3 m))));
      [unfold prec in *; lia |].
    apply fits_intro; cbn [d_int d_exp]; unfold adjusted; cbn [d_int d_exp];
      unfold Etiny, Emin, Emax, prec; lia.
Qed.

(* ================================================================== *)
(** ** 11. Scaling orders                                              *)
(* ================================================================== *)

Lemma Qtrunc_comp (x y : Q) : (x == y)%Q -> Qtrunc x = Qtrunc y.
Proof.
  intros H. unfold Qtrunc.
  rewrite (Qfloor_comp _ _ H), (Qceiling_comp _ _ H).
  destruct (Qle_bool 0 x) eqn:Hx, (Qle_bool 0 y) eqn:Hy; try reflexivity.
  - apply Qle_bool_iff in Hx. rewrite H in Hx. apply Qle_bool_iff in Hx.
    congruence.
  - apply Qle_bool_iff in Hy. rewrite <- H in Hy. apply Qle_bool_iff in Hy.
    congruence.
Qed.

Lemma floor3_decimal_comp (x y : Q) :
  (x == y)%Q -> floor3_decimal x = floor3_decimal y.
Proof.
  intros H. unfold floor3_decimal.
  now rewrite (Qtrunc_comp (x * inject_Z 1000) (y * inject_Z 1000))
    by (now rewrite H).
Qed.

Lemma to_Q_floor3_decimal (x : Q) : (to_Q (floor3_decimal x) == floor3 x)%Q.
Proof.
  unfold floor3_decimal, floor3, to_Q, signed_int; cbn [d_sign d_int d_exp].
  set (t := Qtrunc (x * inject_Z 1000)).
  change (0 <=? -3)%Z with false. cbv iota.
  change (Z.to_pos (10 ^ (- -3))) with 1000%positive.
  rewrite Qmake_Qdiv.
  replace (if (t <? 0)%Z then (- Z.of_N (Z.abs_N t))%Z else Z.of_N (Z.abs_N t))
    with t by (destruct (Z.ltb_spec t 0); lia).
  reflexivity.
Qed.

(** [floor3] never rounds up, and keeps non-negative numbers so. *)
Lemma floor3_bounds (x : Q) : (0 <= x)%Q -> (0 <= floor3 x /\ floor3 x <= x)%Q.
Proof.
  intros Hx. unfold floor3.
  assert (Hk : (0 < inject_Z 1000)%Q) by reflexivity.
  assert (Hx' : (0 <= x * inject_Z 1000)%Q).
  { apply Qmult_le_0_compat; [exact Hx | discriminate]. }
  rewrite (Qtrunc_nonneg _ Hx'). split.
  - apply Qle_shift_div_l; [exact Hk |]. rewrite Qmult_0_l.
    change 0%Q with (inject_Z 0). rewrite <- Zle_Qle.
    rewrite <- (Qfloor_Z 0). now apply Qfloor_resp_le.
  - apply Qle_shift_div_r; [exact Hk |]. apply Qfloor_le.
Qed.

Lemma copy_abs_unsigned (s : Decimal) : d_sign s = false -> copy_abs s = s.
Proof. destruct s; cbn. now intros ->. Qed.

Lemma dec_abs_magnitude (s : Decimal) :
  fits (copy_abs s) -> dec_abs s = Ok (copy_abs s).
Proof.
  intros Hf. unfold dec_abs, dec_neg, dec_pos.
  destruct (d_sign s) eqn:Hs, (is_zero s); try exact Hf.
  - replace (copy_negate s) with (copy_abs s); [exact Hf |].
    unfold copy_negate, copy_abs. now rewrite Hs.
  - now rewrite <- (copy_abs_unsigned s Hs) at 1.
Qed.

Lemma scale_order_within_context (ratio : Decimal) (order : Order) :
  (0 < to_Q ratio)%Q ->
  within_context ratio order ->
  scale_order ratio order = Ok (scaled_as_specified ratio order).
Proof.
  intros Hr (Hfs & Hfm & Hlt & Hfn).
  apply to_Q_pos in Hr. destruct Hr as (Hrs & _).
  unfold scale_order, scaled_as_specified.
  set (s := magnitude order) in *.
  set (p := decimal_or_0 (ord_limitPx order)) in *.
  rewrite (dec_abs_magnitude _ Hfs). fold (magnitude order). fold s.
  cbn [exc_bind].
  unfold dec_mul at 1. rewrite Hfm. cbn [exc_bind].
  rewrite dec_quantize_floor3.
  - rewrite (floor3_decimal_comp _ _ (to_Q_raw_mul s ratio)).
    cbn [exc_bind]. unfold dec_mul. rewrite Hfn. reflexivity.
  - cbn [raw_mul d_sign]. now rewrite Hrs.
  - now rewrite to_Q_raw_mul.
Qed.

Lemma scaled_as_specified_correct (ratio : Decimal) (order : Order) :
  (0 < to_Q ratio)%Q ->
  unsigned_size order ->
  scaled_correctly ratio order (scaled_as_specified ratio order).
Proof.
  intros Hr Hs. unfold scaled_correctly, scaled_as_specified, magnitude.
  rewrite (copy_abs_unsigned _ Hs).
  cbn [scaled_size notional side price original_size].
  set (s := decimal_or_0 (ord_sz order)) in *.
  assert (Hx : (0 <= to_Q s * to_Q ratio)%Q).
  { apply Qmult_le_0_compat; [now apply to_Q_nonneg | now apply Qlt_le_weak]. }
  destruct (floor3_bounds _ Hx) as (H0 & Hle).
  repeat split.
  - apply to_Q_floor3_decimal.
  - now rewrite to_Q_floor3_decimal.
  - now rewrite to_Q_floor3_decimal.
  - apply to_Q_raw_mul.
Qed.

(** C1 (amended). For every positive ratio and every list of orders whose
    sizes are non-negative and whose arithmetic stays within the 28-digit
    decimal context ([within_context]: the size, its exact product with
    the ratio and the exact notional each fit the context, and the product
    is below [10^25]), [scale_orders] returns one scaled order per input
    order, in the same order, with [scaled_size = floor3(size * ratio)],
    [0 <= scaled_size <= size * ratio], [notional = scaled_size * price],
    and side, price and original size passed through. *)
Theorem scale_orders_floor3 (ratio : Decimal) (orders : list Order) :
  (0 < to_Q ratio)%Q ->
  Forall unsigned_size orders ->
  Forall (within_context ratio) orders ->
  exists scaled,
    scale_orders orders ratio = Ok scaled /\
    Forall2 (scaled_correctly ratio) orders scaled.
Proof.
  intros Hr Hsign Hall. induction Hall as [| order rest Ho _ IH].
  - exists []. split; [reflexivity | constructor].
  - inversion Hsign as [| ? ? Hs Hsign']; subst.
    destruct (IH Hsign') as (scaled & Hrun & Hrel).
    exists (scaled_as_specified ratio order :: scaled). split.
    + cbn [scale_orders].
      rewrite (scale_order_within_context ratio order Hr Ho). cbn [exc_bind].
      now rewrite Hrun.
    + constructor; [| exact Hrel].
      now apply scaled_as_specified_correct.
Qed.

Lemma scale_orders_floor3_witness :
  (0 < to_Q (mkDecimal false 1 0))%Q /\
  Forall unsigned_size [order_B] /\
  Forall (within_context (mkDecimal false 1 0)) [order_B] /\
  exists scaled,
    scale_orders [order_B] (mkDecimal false 1 0) = Ok scaled /\
    Forall2 (scaled_correctly (mkDecimal false 1 0)) [order_B] scaled.
Proof.
  assert (Hr : (0 < to_Q (mkDecimal false 1 0))%Q) by (vm_compute; reflexivity).
  assert (Hs : Forall unsigned_size [order_B]).
  { constructor; [reflexivity | constructor]. }
  assert (Hall : Forall (within_context (mkDecimal false 1 0)) [order_B]).
  { constructor; [| constructor].
    unfold within_context. repeat split; vm_compute; reflexivity. }
  split; [exact Hr |]. split; [exact Hs |]. split; [exact Hall |].
  exact (scale_orders_floor3 (mkDecimal false 1 0) [order_B] Hr Hs Hall).
Defined.

(** With ratio 1 the size 0.333333 becomes 0.333. *)
Example scale_orders_scenario_B :
  scale_orders [order_B] (mkDecimal false 1 0) =
  Ok [mkScaledOrder "B" (mkDecimal false 50000 0)
        (mkDecimal false 333333 (-6)) (mkDecimal false 333 (-3))
        (mkDecimal false 16650000 (-3))].
Proof. vm_compute. reflexivity. Qed.

(** Scenario A of the specification: sizes 0.1 and 0.2 at ratio 2. *)
Example scale_orders_scenario_A :
  scale_orders
    [mkOrder None (Some "B") (Some (mkDecimal false 1 (-1)))
             (Some (mkDecimal false 50000 0)) None;
     mkOrder None (Some "A") (Some (mkDecimal false 2 (-1)))
             (Some (mkDecimal false 51000 0)) None]
    (mkDecimal false 2 0) =
  Ok [mkScaledOrder "B" (mkDecimal false 50000 0) (mkDecimal false 1 (-1))
        (mkDecimal false 200 (-3)) (mkDecimal false 10000000 (-3));
      mkScaledOrder "A" (mkDecimal false 51000 0) (mkDecimal false 2 (-1))
        (mkDecimal false 400 (-3)) (mkDecimal false 20400000 (-3))].
Proof. vm_compute. reflexivity. Qed.

Example one_third_is_1_div_3 :
  dec_div (mkDecimal false 1 0) (mkDecimal false 3 0) = Ok one_third.
Proof. vm_compute. reflexivity. Qed.

(** C1, as stated, fails: the product 3.3 * 0.3333333333333333333333333333
    has 30 digits and is rounded half-even to 1.100000000000000000000000000
    before it is truncated, so the scaled size 1.100 exceeds
    [size * ratio] and differs from [floor3 (size * ratio) = 1.099].
    Likewise a size of 29 digits is rounded up by [abs] before it is
    scaled, a notional of more than 28 digits is rounded, and a product of
    [10^26] cannot be quantized at all. *)
Lemma scale_orders_rounds_product_up :
  let size o := decimal_or_0 (ord_sz o) in
  let one := mkDecimal false 1 0 in
  (d_sign (size order_3_3) = false /\ (0 < to_Q one_third)%Q /\
   exists so,
     scale_orders [order_3_3] one_third = Ok [so] /\
     scaled_size so = mkDecimal false 1100 (-3) /\
     ~ (to_Q (scaled_size so) <= to_Q (size order_3_3) * to_Q one_third)%Q /\
     ~ (to_Q (scaled_size so) ==
        floor3 (to_Q (size order_3_3) * to_Q one_third))%Q) /\
  (d_sign (size long_size_order) = false /\ (0 < to_Q one)%Q /\
   exists so,
     scale_orders [long_size_order] one = Ok [so] /\
     ~ (to_Q (scaled_size so) <= to_Q (size long_size_order) * to_Q one)%Q) /\
  (d_sign (size long_price_order) = false /\
   exists so,
     scale_orders [long_price_order] one = Ok [so] /\
     ~ (to_Q (notional so) ==
        to_Q (scaled_size so) * to_Q (decimal_or_0 (ord_limitPx long_price_order)))%Q) /\
  (d_sign (size huge_order) = false /\
   scale_orders [huge_order] one = Raise InvalidOperation).
Proof.
  cbv zeta. split; [| split; [| split]].
  - split; [reflexivity |]. split; [vm_compute; reflexivity |].
    exists (mkScaledOrder "B" (mkDecimal false 50000 0) (mkDecimal false 33 (-1))
              (mkDecimal false 1100 (-3)) (mkDecimal false 55000000 (-3))).
    split; [vm_compute; reflexivity |]. split; [reflexivity |]. split.
    + apply Qlt_not_le. vm_compute. reflexivity.
    + intros H. vm_compute in H. discriminate H.
  - split; [reflexivity |]. split; [vm_compute; reflexivity |].
    exists (mkScaledOrder "B" (mkDecimal false 50000 0)
              (mkDecimal false 1000000000000000000000000000 (-27))
              (mkDecimal false 1000 (-3)) (mkDecimal false 50000000 (-3))).
    split; [vm_compute; reflexivity |].
    apply Qlt_not_le. vm_compute. reflexivity.
  - split; [reflexivity |].
    exists (mkScaledOrder "B"
              (mkDecimal false 1000000000000000000000000001 (-27))
              (mkDecimal false 333 (-3)) (mkDecimal false 333 (-3))
              (mkDecimal false 3330000000000000000000000003 (-28))).
    split; [vm_compute; reflexivity |].
    intros H. vm_compute in H. discriminate H.
  - split; vm_compute; reflexivity.
Qed.

(** The exact sum denotes the sum of the values. *)
Lemma signed_at_Z (d : Decimal) (e : Z) :
  (e <= d_exp d)%Z ->
  signed_at d e = (signed_int d * 10 ^ (d_exp d - e))%Z.
Proof.
  intros He. unfold signed_at, signed_int.
  rewrite N2Z.inj_mul, pow10_Z by lia.
  destruct (d_sign d); lia.
Qed.

Lemma to_Q_signed_at (d : Decimal) (e : Z) :
  (e <= d_exp d)%Z ->
  (inject_Z (signed_at d e) * inject_Z 10 ^ e == to_Q d)%Q.
Proof.
  intros He. rewrite signed_at_Z, to_Q_Qpower by assumption.
  rewrite inject_Z_mult, Zpower_Qpower by lia.
  assert (Hpow : (inject_Z 10 ^ d_exp d ==
                  inject_Z 10 ^ (d_exp d - e) * inject_Z 10 ^ e)%Q).
  { rewrite <- Qpower_plus by exact ten_nonzero.
    now replace (d_exp d - e + e)%Z with (d_exp d) by lia. }
  rewrite Hpow. ring.
Qed.

Lemma signed_int_raw_add (a b : Decimal) :
  signed_int (raw_add a b) =
  (signed_at a (Z.min (d_exp a) (d_exp b)) +
   signed_at b (Z.min (d_exp a) (d_exp b)))%Z.
Proof.
  unfold raw_add, signed_int; cbn [d_sign d_int].
  set (s := (signed_at a _ + signed_at b _)%Z).
  destruct (Z.eqb_spec s 0) as [-> | Hs].
  - now destruct (d_sign a && d_sign b).
  - destruct (Z.ltb_spec s 0); lia.
Qed.

Lemma to_Q_raw_add (a b : Decimal) :
  (to_Q (raw_add a b) == to_Q a + to_Q b)%Q.
Proof.
  rewrite (to_Q_Qpower (raw_add a b)), signed_int_raw_add.
  change (d_exp (raw_add a b)) with (Z.min (d_exp a) (d_exp b)).
  rewrite inject_Z_plus, Qmult_plus_distr_l.
  rewrite !to_Q_signed_at by lia. reflexivity.
Qed.

(** An operation whose exact result fits the context is exact. *)
Lemma dec_mul_exact (a b c : Decimal) :
  fits (raw_mul a b) -> dec_mul a b = Ok c -> (to_Q c == to_Q a * to_Q b)%Q.
Proof.
  unfold fits, dec_mul. intros -> [= <-]. apply to_Q_raw_mul.
Qed.

Lemma dec_add_exact (a b c : Decimal) :
  fits (raw_add a b) -> dec_add a b = Ok c -> (to_Q c == to_Q a + to_Q b)%Q.
Proof.
  unfold fits, dec_add. intros -> [= <-]. apply to_Q_raw_add.
Qed.

(* ================================================================== *)
(** ** 11b. Floats: rounding to the nearest float                      *)
(* ================================================================== *)

Lemma two_nonzero : ~ (inject_Z 2 == 0)%Q.
Proof. discriminate. Qed.

Lemma two_power_pos (e : Z) : (0 < two_power e)%Q.
Proof. apply Qpower_0_lt. reflexivity. Qed.

Lemma two_power_add (a b : Z) :
  (two_power (a + b) == two_power a * two_power b)%Q.
Proof. apply Qpower_plus, two_nonzero. Qed.

Lemma two_power_le (a b : Z) : a <= b -> (two_power a <= two_power b)%Q.
Proof. intros H. apply Qpower_le_compat_l; [exact H | discriminate]. Qed.

Lemma two_power_lt (a b : Z) : a < b -> (two_power a < two_power b)%Q.
Proof. intros H. apply Qpower_lt_compat_l; [exact H | reflexivity]. Qed.

Lemma two_power_Z (e : Z) : 0 <= e -> (two_power e == inject_Z (2 ^ e))%Q.
Proof. intros H. unfold two_power. now rewrite Zpower_Qpower. Qed.

Lemma two_power_nonzero (e : Z) : ~ (two_power e == 0)%Q.
Proof.
  intros H. pose proof (two_power_pos e) as Hp. rewrite H in Hp.
  now apply Qlt_irrefl in Hp.
Qed.

Lemma two_power_sub (a b : Z) :
  (two_power (a - b) == two_power a / two_power b)%Q.
Proof.
  assert (H : (two_power a == two_power (a - b) * two_power b)%Q).
  { rewrite <- two_power_add. now replace (a - b + b) with a by lia. }
  rewrite H. field. apply two_power_nonzero.
Qed.

(** The binade of a positive number. *)
Lemma binade_spec (x : Q) :
  (0 < x)%Q ->
  (two_power (binade x) <= x)%Q /\ (x < two_power (binade x + 1))%Q.
Proof.
  intros Hx. destruct x as [p q]. unfold binade; cbn [Qnum Qden].
  assert (Hp : 0 < p) by (unfold Qlt in Hx; cbn in Hx; lia).
  set (lp := Z.log2 p). set (lq := Z.log2 (Z.pos q)).
  destruct (Z.log2_spec p Hp) as (Hp1 & Hp2). fold lp in Hp1, Hp2.
  destruct (Z.log2_spec (Z.pos q) eq_refl) as (Hq1 & Hq2).
  fold lq in Hq1, Hq2.
  assert (Hlp : 0 <= lp) by apply Z.log2_nonneg.
  assert (Hlq : 0 <= lq) by apply Z.log2_nonneg.
  assert (Hx' : (p # q == inject_Z p / inject_Z (Z.pos q))%Q)
    by apply Qmake_Qdiv.
  assert (Hqpos : (0 < inject_Z (Z.pos q))%Q) by reflexivity.
  assert (Hup : (p # q < two_power (lp - lq + 1))%Q).
  { rewrite Hx'. apply Qlt_shift_div_r; [exact Hqpos |].
    apply Qlt_le_trans with (two_power (lp + 1)).
    - rewrite two_power_Z by lia. now rewrite <- Zlt_Qlt.
    - replace (lp + 1) with ((lp - lq + 1) + lq) by lia.
      rewrite two_power_add. apply Qmult_le_l; [apply two_power_pos |].
      rewrite two_power_Z by lia. now rewrite <- Zle_Qle. }
  assert (Hlow : (two_power (lp - lq - 1) <= p # q)%Q).
  { rewrite Hx'. apply Qle_shift_div_l; [exact Hqpos |].
    apply Qle_trans with (two_power lp).
    - replace lp with ((lp - lq - 1) + (lq + 1)) at 2 by lia.
      rewrite two_power_add. apply Qmult_le_l; [apply two_power_pos |].
      rewrite two_power_Z by lia. rewrite <- Zle_Qle. lia.
    - rewrite two_power_Z by lia. now rewrite <- Zle_Qle. }
  destruct (Qle_bool (two_power (lp - lq)) (p # q)) eqn:Hb.
  - apply Qle_bool_iff in Hb. split; assumption.
  - split; [exact Hlow |].
    replace (lp - lq - 1 + 1) with (lp - lq) by lia.
    apply Qnot_le_lt. intros H. apply Qle_bool_iff in H. congruence.
Qed.

Lemma binade_unique (x : Q) (e : Z) :
  (two_power e <= x)%Q -> (x < two_power (e + 1))%Q -> binade x = e.
Proof.
  intros H1 H2.
  assert (Hx : (0 < x)%Q)
    by (apply Qlt_le_trans with (two_power e); [apply two_power_pos | exact H1]).
  destruct (binade_spec x Hx) as (H3 & H4).
  destruct (Z.lt_trichotomy (binade x) e) as [H | [H | H]]; [| exact H |].
  - exfalso. assert (Hle : (two_power (binade x + 1) <= two_power e)%Q)
      by (apply two_power_le; lia).
    apply (Qlt_irrefl x).
    apply Qlt_le_trans with (two_power (binade x + 1)); [exact H4 |].
    now apply Qle_trans with (two_power e).
  - exfalso. assert (Hle : (two_power (e + 1) <= two_power (binade x))%Q)
      by (apply two_power_le; lia).
    apply (Qlt_irrefl x).
    apply Qlt_le_trans with (two_power (e + 1)); [exact H2 |].
    now apply Qle_trans with (two_power (binade x)).
Qed.

Lemma binade_comp (x y : Q) : (0 < x)%Q -> (x == y)%Q -> binade x = binade y.
Proof.
  intros Hx Hxy. destruct (binade_spec x Hx) as (H1 & H2).
  symmetry. apply binade_unique; now rewrite <- Hxy.
Qed.

Lemma binade_mono (x y : Q) :
  (0 < x)%Q -> (x <= y)%Q -> binade x <= binade y.
Proof.
  intros Hx Hxy.
  assert (Hy : (0 < y)%Q) by now apply Qlt_le_trans with x.
  destruct (binade_spec x Hx) as (H1 & _).
  destruct (binade_spec y Hy) as (_ & H4).
  assert (H : (two_power (binade x) < two_power (binade y + 1))%Q).
  { apply Qle_lt_trans with x; [exact H1 |].
    now apply Qle_lt_trans with y. }
  apply Qpower_lt_compat_l_inv in H; [lia | reflexivity].
Qed.

(** Rounding to an integer. *)
Lemma round_to_even_comp (x y : Q) :
  (x == y)%Q -> round_to_even x = round_to_even y.
Proof.
  intros H. unfold round_to_even.
  rewrite (Qfloor_comp _ _ H).
  assert (Hc : (x - inject_Z (Qfloor y) ?= 1 # 2)%Q =
               (y - inject_Z (Qfloor y) ?= 1 # 2)%Q).
  { apply Qcompare_comp; [now rewrite H | reflexivity]. }
  now rewrite Hc.
Qed.

Lemma round_to_even_bounds (x : Q) :
  Qfloor x <= round_to_even x <= Qfloor x + 1.
Proof.
  unfold round_to_even.
  destruct (x - inject_Z (Qfloor x) ?= 1 # 2)%Q; [| lia | lia].
  destruct (Z.even (Qfloor x)); lia.
Qed.

Lemma round_to_even_Z (z : Z) : round_to_even (inject_Z z) = z.
Proof.
  unfold round_to_even. rewrite Qfloor_Z.
  assert (H : (inject_Z z - inject_Z z ?= 1 # 2)%Q = Lt).
  { apply Qlt_alt. setoid_replace (inject_Z z - inject_Z z)%Q with 0%Q by ring.
    reflexivity. }
  now rewrite H.
Qed.

Lemma round_to_even_mono (x y : Q) :
  (x <= y)%Q -> round_to_even x <= round_to_even y.
Proof.
  intros H. pose proof (Qfloor_resp_le _ _ H) as Hf.
  destruct (Z.eq_dec (Qfloor x) (Qfloor y)) as [He | Hne].
  - unfold round_to_even. rewrite He.
    destruct (Qcompare_spec (x - inject_Z (Qfloor y)) (1 # 2)) as [H1 | H1 | H1];
      destruct (Qcompare_spec (y - inject_Z (Qfloor y)) (1 # 2)) as [H2 | H2 | H2];
      try destruct (Z.even (Qfloor y)); try lia; exfalso; lra.
  - pose proof (round_to_even_bounds x). pose proof (round_to_even_bounds y).
    lia.
Qed.

Lemma inject_Z_pos (m : Z) : 0 < m -> (0 < inject_Z m)%Q.
Proof. intros H. change 0%Q with (inject_Z 0). now rewrite <- Zlt_Qlt. Qed.

Lemma inject_Z_nonneg (m : Z) : 0 <= m -> (0 <= inject_Z m)%Q.
Proof. intros H. change 0%Q with (inject_Z 0). now rewrite <- Zle_Qle. Qed.

Lemma inject_Z_nonpos (m : Z) : m <= 0 -> (inject_Z m <= 0)%Q.
Proof. intros H. change 0%Q with (inject_Z 0). now rewrite <- Zle_Qle. Qed.

(** Rounding to a float. *)
Lemma scaled_binade (x : Q) :
  (0 < x)%Q ->
  (two_power 52 <= x / two_power (binade x - 52))%Q /\
  (x / two_power (binade x - 52) < two_power 53)%Q.
Proof.
  intros Hx. destruct (binade_spec x Hx) as (H1 & H2).
  pose proof (two_power_pos (binade x - 52)) as Hp.
  split.
  - apply Qle_shift_div_l; [exact Hp |].
    rewrite <- two_power_add.
    now replace (52 + (binade x - 52)) with (binade x) by lia.
  - apply Qlt_shift_div_r; [exact Hp |].
    rewrite <- two_power_add.
    now replace (53 + (binade x - 52)) with (binade x + 1) by lia.
Qed.

Lemma nearest_float_pos_bounds (x : Q) :
  (0 < x)%Q ->
  (two_power (binade x) <= nearest_float_pos x)%Q /\
  (nearest_float_pos x <= two_power (binade x + 1))%Q.
Proof.
  intros Hx. destruct (scaled_binade x Hx) as (H1 & H2).
  unfold nearest_float_pos.
  set (e := binade x - 52) in *. set (t := (x / two_power e)%Q) in *.
  pose proof (two_power_pos e) as Hp.
  rewrite two_power_Z in H1, H2 by lia.
  pose proof (round_to_even_mono _ _ H1) as Hlo.
  pose proof (round_to_even_mono _ _ (Qlt_le_weak _ _ H2)) as Hhi.
  rewrite round_to_even_Z in Hlo, Hhi.
  split.
  - replace (binade x) with (52 + e) by (unfold e; lia).
    rewrite two_power_add, (two_power_Z 52) by lia.
    apply Qmult_le_compat_r; [| now apply Qlt_le_weak].
    now rewrite <- Zle_Qle.
  - replace (binade x + 1) with (53 + e) by (unfold e; lia).
    rewrite two_power_add, (two_power_Z 53) by lia.
    apply Qmult_le_compat_r; [| now apply Qlt_le_weak].
    now rewrite <- Zle_Qle.
Qed.

Lemma nearest_float_pos_positive (x : Q) :
  (0 < x)%Q -> (0 < nearest_float_pos x)%Q.
Proof.
  intros Hx. destruct (nearest_float_pos_bounds x Hx) as (H & _).
  apply Qlt_le_trans with (two_power (binade x)); [apply two_power_pos | exact H].
Qed.

Lemma nearest_float_pos_mono (x y : Q) :
  (0 < x)%Q -> (x <= y)%Q -> (nearest_float_pos x <= nearest_float_pos y)%Q.
Proof.
  intros Hx Hxy.
  assert (Hy : (0 < y)%Q) by now apply Qlt_le_trans with x.
  pose proof (binade_mono x y Hx Hxy) as Hb.
  destruct (Z.eq_dec (binade x) (binade y)) as [He | Hne].
  - unfold nearest_float_pos. rewrite He.
    pose proof (two_power_pos (binade y - 52)) as Hp.
    apply Qmult_le_compat_r; [| now apply Qlt_le_weak].
    rewrite <- Zle_Qle. apply round_to_even_mono.
    apply Qmult_le_compat_r; [exact Hxy |].
    apply Qlt_le_weak, Qinv_lt_0_compat, Hp.
  - destruct (nearest_float_pos_bounds x Hx) as (_ & H1).
    destruct (nearest_float_pos_bounds y Hy) as (H2 & _).
    apply Qle_trans with (two_power (binade x + 1)); [exact H1 |].
    apply Qle_trans with (two_power (binade y)); [| exact H2].
    apply two_power_le. lia.
Qed.

Lemma nearest_float_pos_comp (x y : Q) :
  (0 < x)%Q -> (x == y)%Q -> (nearest_float_pos x == nearest_float_pos y)%Q.
Proof.
  intros Hx H. unfold nearest_float_pos.
  rewrite (binade_comp x y Hx H).
  rewrite (round_to_even_comp (x / two_power (binade y - 52))
                              (y / two_power (binade y - 52)));
    [reflexivity | now rewrite H].
Qed.

Lemma nearest_float_comp (x y : Q) :
  (x == y)%Q -> (nearest_float x == nearest_float y)%Q.
Proof.
  intros H. unfold nearest_float.
  rewrite (Qcompare_comp x y H 0%Q 0%Q (Qeq_refl 0%Q)).
  destruct (Qcompare_spec y 0) as [H0 | H0 | H0]; [reflexivity | |].
  - apply Qopp_comp, nearest_float_pos_comp; lra.
  - apply nearest_float_pos_comp; lra.
Qed.

Lemma nearest_float_mono (x y : Q) :
  (x <= y)%Q -> (nearest_float x <= nearest_float y)%Q.
Proof.
  intros H. unfold nearest_float.
  destruct (Qcompare_spec x 0) as [Hx | Hx | Hx];
    destruct (Qcompare_spec y 0) as [Hy | Hy | Hy]; try lra.
  - pose proof (nearest_float_pos_positive y Hy). lra.
  - assert (H1 : (0 < - x)%Q) by lra.
    pose proof (nearest_float_pos_positive _ H1). lra.
  - assert (H1 : (0 < - y)%Q) by lra.
    assert (H2 : (- y <= - x)%Q) by lra.
    pose proof (nearest_float_pos_mono _ _ H1 H2). lra.
  - assert (H1 : (0 < - x)%Q) by lra.
    pose proof (nearest_float_pos_positive _ H1).
    pose proof (nearest_float_pos_positive y Hy). lra.
  - now apply nearest_float_pos_mono.
Qed.

Lemma nearest_float_pos_fix (m k : Z) :
  0 < m < 2 ^ 53 ->
  (nearest_float_pos (inject_Z m * two_power k) == inject_Z m * two_power k)%Q.
Proof.
  intros Hm. set (x := (inject_Z m * two_power k)%Q).
  assert (Hx : (0 < x)%Q).
  { unfold x. apply Qmult_lt_0_compat; [| apply two_power_pos].
    apply inject_Z_pos. lia. }
  destruct (binade_spec x Hx) as (H1 & H2).
  unfold nearest_float_pos. set (e := binade x - 52) in *.
  assert (Hk : e <= k).
  { destruct (Z.le_gt_cases e k) as [H | H]; [exact H | exfalso].
    assert (Hlt : (x < two_power (binade x))%Q).
    { replace (binade x) with (53 + (e - 1)) by (unfold e; lia).
      rewrite two_power_add. unfold x.
      apply Qlt_le_trans with (two_power 53 * two_power k)%Q.
      - apply Qmult_lt_compat_r; [apply two_power_pos |].
        rewrite two_power_Z by lia. rewrite <- Zlt_Qlt. lia.
      - apply Qmult_le_l; [apply two_power_pos |].
        apply two_power_le. lia. }
    lra. }
  assert (Ht : (x / two_power e == inject_Z (m * 2 ^ (k - e)))%Q).
  { unfold x. rewrite inject_Z_mult, <- two_power_Z by lia.
    rewrite two_power_sub. field. apply two_power_nonzero. }
  rewrite (round_to_even_comp _ _ Ht), round_to_even_Z.
  rewrite inject_Z_mult, <- two_power_Z by lia.
  rewrite two_power_sub. unfold x. field. apply two_power_nonzero.
Qed.

(** A number with a mantissa of at most 53 bits is a float. *)
Lemma nearest_float_fix (m k : Z) :
  Z.abs m < 2 ^ 53 ->
  (nearest_float (inject_Z m * two_power k) == inject_Z m * two_power k)%Q.
Proof.
  intros Hm. unfold nearest_float.
  pose proof (two_power_pos k) as Hp.
  destruct (Qcompare_spec (inject_Z m * two_power k) 0) as [H | H | H].
  - now rewrite H.
  - assert (Hneg : m < 0).
    { destruct (Z.lt_ge_cases m 0) as [Hlt | Hge]; [exact Hlt | exfalso].
      assert (0 <= inject_Z m)%Q by (apply inject_Z_nonneg; lia).
      assert (0 <= inject_Z m * two_power k)%Q
        by (apply Qmult_le_0_compat; lra).
      lra. }
    assert (Hopp : (- (inject_Z m * two_power k) ==
                    inject_Z (- m) * two_power k)%Q)
      by (rewrite inject_Z_opp; ring).
    assert (Hgt : (0 < - (inject_Z m * two_power k))%Q) by lra.
    rewrite (nearest_float_pos_comp _ _ Hgt Hopp).
    rewrite nearest_float_pos_fix by lia.
    rewrite inject_Z_opp. ring.
  - assert (Hpos : 0 < m).
    { destruct (Z.lt_ge_cases 0 m) as [Hlt | Hge]; [exact Hlt | exfalso].
      assert (inject_Z m <= 0)%Q by (apply inject_Z_nonpos; lia).
      assert (inject_Z m * two_power k <= 0)%Q.
      { setoid_replace 0%Q with (0 * two_power k)%Q by ring.
        apply Qmult_le_compat_r; lra. }
      lra. }
    apply nearest_float_pos_fix. lia.
Qed.

Lemma nearest_float_Z (m : Z) :
  Z.abs m < 2 ^ 53 -> (nearest_float (inject_Z m) == inject_Z m)%Q.
Proof.
  intros Hm.
  assert (H : (inject_Z m == inject_Z m * two_power 0)%Q)
    by (unfold two_power; cbn; ring).
  rewrite (nearest_float_comp _ _ H), nearest_float_fix by exact Hm.
  now rewrite <- H.
Qed.

(** Seconds as floats, and the counts of units. *)
Lemma Qltb_lt (x y : Q) : Qltb x y = true <-> (x < y)%Q.
Proof.
  unfold Qltb. rewrite negb_true_iff, <- not_true_iff_false, Qle_bool_iff.
  split; [apply Qnot_le_lt | apply Qlt_not_le].
Qed.

Lemma Qltb_ge (x y : Q) : Qltb x y = false <-> (y <= x)%Q.
Proof.
  unfold Qltb. rewrite negb_false_iff, Qle_bool_iff. reflexivity.
Qed.

Lemma int_of_Q_floor (x : Q) : (0 <= x)%Q -> int_of_Q x = Qfloor x.
Proof.
  intros H. destruct x as [p q]. unfold int_of_Q; cbn [Qnum Qden Qfloor].
  apply Z.quot_div_nonneg; [| reflexivity].
  unfold Qle in H; cbn in H. lia.
Qed.

Lemma Qfloor_between (x : Q) (k : Z) :
  (inject_Z k <= x)%Q -> (x < inject_Z (k + 1))%Q -> Qfloor x = k.
Proof.
  intros H1 H2.
  pose proof (Qfloor_le x) as H3. pose proof (Qlt_floor x) as H4.
  assert (Ha : k <= Qfloor x).
  { rewrite <- (Qfloor_Z k). now apply Qfloor_resp_le. }
  assert (Hb : Qfloor x < k + 1).
  { rewrite Zlt_Qlt. lra. }
  lia.
Qed.

Lemma micro_seconds (us N : Z) :
  (N * 1000000 <= us) <-> (inject_Z N <= us # 1000000)%Q.
Proof.
  unfold Qle; cbn [Qnum Qden inject_Z]. lia.
Qed.

(** A microsecond is more than [2^-20] seconds. *)
Lemma below_second (us N : Z) :
  us < N * 1000000 ->
  (us # 1000000 <= inject_Z (N * 2 ^ 20 - 1) * two_power (-20))%Q.
Proof.
  intros H.
  assert (Hp : (two_power (-20) == 1 # 1048576)%Q) by reflexivity.
  rewrite Hp. unfold Qle; cbn [Qnum Qden inject_Z Qmult].
  cbn. lia.
Qed.

Lemma total_seconds_ge (us N : Z) :
  Z.abs N < 2 ^ 53 -> N * 1000000 <= us -> (inject_Z N <= total_seconds us)%Q.
Proof.
  intros HN H. apply micro_seconds in H.
  rewrite <- (nearest_float_Z N HN). now apply nearest_float_mono.
Qed.

Lemma total_seconds_lt (us N : Z) :
  0 <= N < 2 ^ 33 -> us < N * 1000000 ->
  (total_seconds us <= inject_Z (N * 2 ^ 20 - 1) * two_power (-20))%Q /\
  (total_seconds us < inject_Z N)%Q.
Proof.
  intros HN H. apply below_second in H.
  assert (Hfix : (nearest_float (inject_Z (N * 2 ^ 20 - 1) * two_power (-20)) ==
                  inject_Z (N * 2 ^ 20 - 1) * two_power (-20))%Q).
  { apply nearest_float_fix.
    change (2 ^ 53) with (2 ^ 33 * 2 ^ 20). lia. }
  assert (Hle : (total_seconds us <=
                 inject_Z (N * 2 ^ 20 - 1) * two_power (-20))%Q).
  { rewrite <- Hfix. now apply nearest_float_mono. }
  split; [exact Hle |].
  eapply Qle_lt_trans; [exact Hle |].
  assert (Hp : (two_power (-20) == 1 # 1048576)%Q) by reflexivity.
  rewrite Hp. unfold Qlt; cbn [Qnum Qden inject_Z Qmult]. cbn. lia.
Qed.

Lemma Qltb_total_seconds (us N : Z) :
  0 <= N < 2 ^ 33 ->
  Qltb (total_seconds us) (inject_Z N) = (us <? N * 1000000)%Z.
Proof.
  intros HN. destruct (Z.ltb_spec us (N * 1000000)) as [H | H].
  - apply Qltb_lt. now apply total_seconds_lt.
  - apply Qltb_ge. apply total_seconds_ge; [| exact H]. lia.
Qed.

(** The count of units of [U] seconds. *)
Section Count.

Variable U : Z.
Hypothesis HU : 1 <= U < 2 ^ 22.

Lemma count_lower (us k : Z) :
  0 <= k -> k * U < 2 ^ 53 -> k * U * 1000000 <= us ->
  (inject_Z k <= float_div (total_seconds us) U)%Q.
Proof.
  intros Hk Hrep H.
  assert (Hs : (inject_Z (k * U) <= total_seconds us)%Q)
    by (apply total_seconds_ge; [lia | exact H]).
  unfold float_div.
  assert (Hk53 : Z.abs k < 2 ^ 53) by nia.
  rewrite <- (nearest_float_Z k Hk53). apply nearest_float_mono.
  assert (HUpos : (0 < inject_Z U)%Q) by (apply inject_Z_pos; lia).
  apply Qle_shift_div_l; [exact HUpos |].
  now rewrite <- inject_Z_mult.
Qed.

Lemma count_upper_weak (us k : Z) :
  0 <= k -> k * U < 2 ^ 53 -> us <= k * U * 1000000 ->
  (float_div (total_seconds us) U <= inject_Z k)%Q.
Proof.
  intros Hk Hrep H.
  assert (Hs : (total_seconds us <= inject_Z (k * U))%Q).
  { rewrite <- (nearest_float_Z (k * U)) by lia.
    apply nearest_float_mono. unfold Qle; cbn [Qnum Qden inject_Z]. lia. }
  unfold float_div.
  assert (Hk53 : Z.abs k < 2 ^ 53) by nia.
  rewrite <- (nearest_float_Z k Hk53). apply nearest_float_mono.
  assert (HUpos : (0 < inject_Z U)%Q) by (apply inject_Z_pos; lia).
  apply Qle_shift_div_r; [exact HUpos |].
  now rewrite <- inject_Z_mult.
Qed.

Lemma count_upper (us k : Z) :
  0 <= k < 2047 -> us < (k + 1) * U * 1000000 ->
  (float_div (total_seconds us) U < inject_Z (k + 1))%Q.
Proof.
  intros Hk H.
  assert (HN : 0 <= (k + 1) * U < 2 ^ 33).
  { change (2 ^ 33) with (2 ^ 11 * 2 ^ 22). nia. }
  destruct (total_seconds_lt us ((k + 1) * U) HN H) as (Hs & _).
  set (z := (inject_Z ((k + 1) * 2 ^ 42 - 1) * two_power (-42))%Q).
  assert (Hfix : (nearest_float z == z)%Q).
  { apply nearest_float_fix. change (2 ^ 53) with (2 ^ 11 * 2 ^ 42). lia. }
  assert (HUpos : (0 < inject_Z U)%Q) by (apply inject_Z_pos; lia).
  assert (Hq : (total_seconds us / inject_Z U <= z)%Q).
  { apply Qle_shift_div_r; [exact HUpos |].
    eapply Qle_trans; [exact Hs |].
    unfold z.
    assert (Hp20 : (two_power (-20) == 1 # 1048576)%Q) by reflexivity.
    assert (Hp42 : (two_power (-42) == 1 # 4398046511104)%Q) by reflexivity.
    rewrite Hp20, Hp42.
    unfold Qle; cbn [Qnum Qden inject_Z Qmult]. cbn.
    change (2 ^ 22) with 4194304 in HU.
    nia. }
  unfold float_div.
  apply Qle_lt_trans with z.
  - rewrite <- Hfix. now apply nearest_float_mono.
  - unfold z.
    assert (Hp42 : (two_power (-42) == 1 # 4398046511104)%Q) by reflexivity.
    rewrite Hp42. unfold Qlt; cbn [Qnum Qden inject_Z Qmult]. cbn. lia.
Qed.

(** Below 2047 units the count is the whole number of units. *)
Lemma count_exact (us : Z) :
  0 <= us < 2047 * U * 1000000 ->
  int_of_Q (float_div (total_seconds us) U) = us / (U * 1000000).
Proof.
  intros Hus. set (k := us / (U * 1000000)).
  assert (HU' : 0 < U * 1000000) by lia.
  pose proof (Z.div_mod us (U * 1000000) ltac:(lia)) as Hdm.
  pose proof (Z.mod_pos_bound us (U * 1000000) HU') as Hm.
  fold k in Hdm.
  assert (Hk : 0 <= k < 2047).
  { split; [apply Z.div_pos; lia |].
    apply Z.div_lt_upper_bound; lia. }
  assert (Hlo : (inject_Z k <= float_div (total_seconds us) U)%Q).
  { apply count_lower; [lia | | nia].
    change (2 ^ 22) with 4194304 in HU. change (2 ^ 53) with 9007199254740992. nia. }
  assert (Hhi : (float_div (total_seconds us) U < inject_Z (k + 1))%Q).
  { apply count_upper; [exact Hk | nia]. }
  rewrite int_of_Q_floor.
  - now apply Qfloor_between.
  - apply Qle_trans with (inject_Z k); [apply inject_Z_nonneg; lia | exact Hlo].
Qed.

(** In general the count is the whole number of units or one more. *)
Lemma count_close (us : Z) :
  0 <= us -> (us / (U * 1000000) + 1) * U < 2 ^ 53 ->
  us / (U * 1000000) <= int_of_Q (float_div (total_seconds us) U)
    <= us / (U * 1000000) + 1.
Proof.
  intros Hus Hrep. set (k := us / (U * 1000000)) in *.
  assert (HU' : 0 < U * 1000000) by lia.
  pose proof (Z.div_mod us (U * 1000000) ltac:(lia)) as Hdm.
  pose proof (Z.mod_pos_bound us (U * 1000000) HU') as Hm.
  fold k in Hdm.
  assert (Hk : 0 <= k) by (apply Z.div_pos; lia).
  assert (Hlo : (inject_Z k <= float_div (total_seconds us) U)%Q).
  { apply count_lower; [lia | nia | nia]. }
  assert (Hhi : (float_div (total_seconds us) U <= inject_Z (k + 1))%Q).
  { apply count_upper_weak; [lia | exact Hrep | nia]. }
  rewrite int_of_Q_floor
    by (apply Qle_trans with (inject_Z k); [apply inject_Z_nonneg; lia | exact Hlo]).
  split.
  - rewrite <- (Qfloor_Z k). now apply Qfloor_resp_le.
  - rewrite <- (Qfloor_Z (k + 1)). now apply Qfloor_resp_le.
Qed.

End Count.

(** [nearest_float] against the division of IEEE 754, on quotients the
    script computes. *)
Example nearest_float_binary64 :
  forallb same_quotient
    [(31103999999999999, 1000000); (1700000100123, 1000);
     (-1700000100123, 1000); (-29404000000000, 1000); (59999999, 1000000);
     (3599999999, 1000000); (1, 3); (7, 60); (86399, 3600); (2591999, 604800);
     (123456789, 2592000); (9007199254740991, 1000000)]%Z = true.
Proof. vm_compute. reflexivity. Qed.

(* ================================================================== *)
(** ** 12. Time since the last activity                                *)
(* ================================================================== *)

Lemma append_inj_l (s a b : string) : s ++ a = s ++ b -> a = b.
Proof.
  induction s as [| c s IH]; cbn; intros H; [exact H |].
  injection H as H. now apply IH.
Qed.

Lemma ago_unfold (n : Z) (unit : string) :
  str_of_Z n ++ " " ++ unit ++ plural n ++ " ago" = ago n unit.
Proof. reflexivity. Qed.

(** The buckets of [relative_time], on the elapsed microseconds: the
    thresholds are exact, and so are the counts below 2047 units. *)
Lemma relative_time_buckets (us : Z) :
  ((us < 60 * 1000000)%Z -> relative_time us = "just now") /\
  ((60 * 1000000 <= us < 3600 * 1000000)%Z ->
     relative_time us = ago (us / (60 * 1000000)) "minute") /\
  ((3600 * 1000000 <= us < 86400 * 1000000)%Z ->
     relative_time us = ago (us / (3600 * 1000000)) "hour") /\
  ((86400 * 1000000 <= us < 604800 * 1000000)%Z ->
     relative_time us = ago (us / (86400 * 1000000)) "day") /\
  ((604800 * 1000000 <= us < 2592000 * 1000000)%Z ->
     relative_time us = ago (us / (604800 * 1000000)) "week") /\
  ((2592000 * 1000000 <= us < 2047 * 2592000 * 1000000)%Z ->
     relative_time us = ago (us / (2592000 * 1000000)) "month") /\
  ((2592000 * 1000000 <= us)%Z ->
     relative_time us =
     ago (int_of_Q (float_div (total_seconds us) 2592000)) "month").
Proof.
  unfold relative_time.
  rewrite (Qltb_total_seconds us 60), (Qltb_total_seconds us 3600),
    (Qltb_total_seconds us 86400), (Qltb_total_seconds us 604800),
    (Qltb_total_seconds us 2592000) by (split; [lia | reflexivity]).
  repeat split; intros H;
    repeat match goal with
      | |- context [(us <? ?k)%Z] => destruct (Z.ltb_spec us k); try lia
      end;
    try reflexivity;
    rewrite count_exact by (try (split; [lia | reflexivity]); lia);
    reflexivity.
Qed.

(** From 30 days on the count of months is at least the whole number of
    months and at most one more. *)
Lemma relative_time_months (us : Z) :
  (2592000 * 1000000 <= us)%Z ->
  ((us / (2592000 * 1000000) + 1) * 2592000 < 2 ^ 53)%Z ->
  exists months,
    relative_time us = ago months "month" /\
    (1 <= months)%Z /\
    (us / (2592000 * 1000000) <= months <= us / (2592000 * 1000000) + 1)%Z.
Proof.
  intros Hus Hrep.
  exists (int_of_Q (float_div (total_seconds us) 2592000)).
  split; [now apply relative_time_buckets |].
  assert (HU : (1 <= 2592000 < 2 ^ 22)%Z) by (split; [lia | reflexivity]).
  pose proof (count_close 2592000 HU us ltac:(lia) Hrep) as Hc.
  split; [| exact Hc].
  assert (1 <= us / (2592000 * 1000000))%Z
    by (apply Z.div_le_lower_bound; lia).
  lia.
Qed.

Lemma list_max_ge (xs : list Z) : forall x,
  (x <= list_max x xs)%Z /\ (forall y, In y xs -> (y <= list_max x xs)%Z).
Proof.
  unfold list_max. induction xs as [| a xs IH]; intros x; cbn [fold_left].
  - split; [lia | intros y []].
  - destruct (IH (Z.max x a)) as (H1 & H2). split; [lia |].
    intros y [<- | Hy]; [lia | now apply H2].
Qed.

Lemma list_max_in (xs : list Z) : forall x,
  list_max x xs = x \/ In (list_max x xs) xs.
Proof.
  unfold list_max. induction xs as [| a xs IH]; intros x; cbn [fold_left].
  - now left.
  - destruct (IH (Z.max x a)) as [H | H].
    + rewrite H. destruct (Z.max_spec x a) as [(_ & ->) | (_ & ->)];
        [right; now left | now left].
    + right. now right.
Qed.

Lemma in_collect {A B} (f : A -> option B) (l : list A) (b : B) :
  In b (collect f l) <-> exists a, In a l /\ f a = Some b.
Proof.
  unfold collect. rewrite in_flat_map. split.
  - intros (a & Ha & Hb). exists a. split; [exact Ha |].
    destruct (f a); [destruct Hb as [-> | []]; reflexivity | destruct Hb].
  - intros (a & Ha & Hb). exists a. split; [exact Ha |].
    rewrite Hb. now left.
Qed.

Lemma in_timestamps (t : Z) (orders : list Order) (fills : list Fill) :
  In t (collect ord_timestamp orders ++ collect fill_time fills)%list <->
  found t orders fills.
Proof. unfold found. now rewrite in_app_iff, !in_collect. Qed.

(** C9 (amended). When neither list holds a timestamp the reducer answers
    "Unknown" (the report reads "Last account activity: Unknown");
    otherwise it goes by the maximum of the timestamps found in the two
    lists.  That timestamp is converted to a local date and time [dt];
    when the platform cannot convert it, an exception is raised and
    nothing is rendered.  Otherwise the rendering goes by the time elapsed
    on the clock, [us = now - dt] microseconds: under 60 s "just now";
    under 1 h whole minutes; under 24 h whole hours; under 7 days whole
    days; under 30 days whole 7-day weeks; from there on 30-day months,
    whole ones as long as fewer than 2047 have elapsed, and the whole
    number or one more beyond (the count is a float quotient); each as
    "N unit(s) ago" with the suffix "s" left out exactly when N is 1. *)
Theorem last_activity_time_spec (w : World) (orders : list Order)
    (fills : list Fill) :
  ((forall t, ~ found t orders fills) ->
   get_last_activity_time w orders fills = Some "Unknown") /\
  ((exists t, found t orders fills) ->
   exists latest,
     found latest orders fills /\
     (forall t, found t orders fills -> (t <= latest)%Z) /\
     get_last_activity_time w orders fills = get_relative_time w latest) /\
  (forall timestamp_ms,
     local_datetime w timestamp_ms = None ->
     get_relative_time w timestamp_ms = None) /\
  (forall timestamp_ms dt,
     local_datetime w timestamp_ms = Some dt ->
     let us := (now_us w - dt)%Z in
     let answer := get_relative_time w timestamp_ms in
     ((us < 60 * 1000000)%Z -> answer = Some "just now") /\
     ((60 * 1000000 <= us < 3600 * 1000000)%Z ->
        answer = Some (ago (us / (60 * 1000000)) "minute")) /\
     ((3600 * 1000000 <= us < 86400 * 1000000)%Z ->
        answer = Some (ago (us / (3600 * 1000000)) "hour")) /\
     ((86400 * 1000000 <= us < 604800 * 1000000)%Z ->
        answer = Some (ago (us / (86400 * 1000000)) "day")) /\
     ((604800 * 1000000 <= us < 2592000 * 1000000)%Z ->
        answer = Some (ago (us / (604800 * 1000000)) "week")) /\
     ((2592000 * 1000000 <= us < 2047 * 2592000 * 1000000)%Z ->
        answer = Some (ago (us / (2592000 * 1000000)) "month")) /\
     ((2592000 * 1000000 <= us)%Z ->
      ((us / (2592000 * 1000000) + 1) * 2592000 < 2 ^ 53)%Z ->
      exists months,
        answer = Some (ago months "month") /\
        (1 <= months)%Z /\
        (us / (2592000 * 1000000) <= months
           <= us / (2592000 * 1000000) + 1)%Z)) /\
  (forall n unit,
     ago n unit = str_of_Z n ++ " " ++ unit ++ " ago" <-> n = 1%Z).
Proof.
  split; [| split; [| split; [| split]]].
  - intros Hnone. unfold get_last_activity_time.
    destruct (collect ord_timestamp orders ++ collect fill_time fills)%list
      as [| t ts] eqn:Hts; [reflexivity | exfalso].
    apply (Hnone t). apply in_timestamps. rewrite Hts. now left.
  - intros (t0 & Ht0). apply in_timestamps in Ht0.
    unfold get_last_activity_time.
    destruct (collect ord_timestamp orders ++ collect fill_time fills)%list
      as [| t ts] eqn:Hts; [destruct Ht0 |].
    exists (list_max t ts).
    destruct (list_max_ge ts t) as (Hge & Hall).
    split; [| split; [| reflexivity]].
    + apply in_timestamps. rewrite Hts.
      destruct (list_max_in ts t) as [-> | H]; [now left | now right].
    + intros t' Ht'. apply in_timestamps in Ht'. rewrite Hts in Ht'.
      destruct Ht' as [<- | Ht']; [exact Hge | now apply Hall].
  - intros timestamp_ms H. unfold get_relative_time. now rewrite H.
  - intros timestamp_ms dt Hdt. cbv zeta.
    unfold get_relative_time. rewrite Hdt.
    destruct (relative_time_buckets (now_us w - dt))
      as (H1 & H2 & H3 & H4 & H5 & H6 & _).
    repeat split; intros H; try (f_equal; auto; fail).
    intros Hrep.
    destruct (relative_time_months _ H Hrep) as (months & Hm & Hb).
    exists months. split; [now f_equal | exact Hb].
  - intros n unit. unfold ago. split.
    + destruct (Z.eqb_spec n 1) as [-> | Hn]; [reflexivity |].
      intros H. exfalso.
      apply append_inj_l in H. change (" " ++ unit ++ "s" ++ " ago")
        with (String " " (unit ++ "s ago")) in H.
      change (" " ++ unit ++ " ago") with (String " " (unit ++ " ago")) in H.
      injection H as H. apply append_inj_l in H. discriminate H.
    + now intros ->.
Qed.

Lemma last_activity_time_spec_witness :
  let w := clock 1700000200000000 in
  get_last_activity_time w [] [] = Some "Unknown" /\
  (exists latest,
     found latest [order_at 1700000000000] [mkFill (Some 1700000100000)] /\
     (forall t, found t [order_at 1700000000000] [mkFill (Some 1700000100000)]
                -> (t <= latest)%Z) /\
     get_last_activity_time w
       [order_at 1700000000000] [mkFill (Some 1700000100000)] =
     get_relative_time w latest) /\
  local_datetime w 1700000100000 = Some 1700000100000000%Z /\
  get_relative_time w 1700000100000 = Some (ago 1 "minute").
Proof.
  cbv zeta. split; [| split; [| split]].
  - apply (proj1 (last_activity_time_spec (clock 1700000200000000) [] [])).
    intros t [(o & [] & _) | (f & [] & _)].
  - apply (proj1 (proj2 (last_activity_time_spec (clock 1700000200000000)
             [order_at 1700000000000] [mkFill (Some 1700000100000)]))).
    exists 1700000000000%Z. left. exists (order_at 1700000000000).
    split; [now left | reflexivity].
  - vm_compute. reflexivity.
  - refine (proj1 (proj2 (proj1 (proj2 (proj2 (proj2
             (last_activity_time_spec (clock 1700000200000000) [] []))))
             1700000100000 1700000100000000%Z _)) _).
    + vm_compute. reflexivity.
    + cbn [now_us clock]. lia.
Defined.

(** C9, as stated, fails in two ways.  The count of months is a float
    quotient: 11999 months and 29 days, less a microsecond, are rendered
    as "12000 months ago".  And a timestamp that the platform cannot
    convert (here one in the year 33658) is not rendered at all: the
    conversion raises. *)
Lemma last_activity_not_whole_months :
  let w := clock 1699999999999999 in
  let us := (now_us w - -29404000000000000)%Z in
  local_datetime w (-29404000000000) = Some (-29404000000000000)%Z /\
  (us / (2592000 * 1000000) = 11999)%Z /\
  get_last_activity_time w [order_at (-29404000000000)] [] =
    Some "12000 months ago" /\
  get_last_activity_time w [order_at 1000000000000000] [] = None.
Proof. cbv zeta. repeat split; vm_compute; reflexivity. Qed.

(* ================================================================== *)
(** ** 13. Runs of [main]                                              *)
(* ================================================================== *)

Lemma run_bind_done {A B} (out : list Line) (a : A) (f : A -> Run B) :
  run_bind (out, Done a) f = ((out ++ fst (f a))%list, snd (f a)).
Proof. unfold run_bind. now destruct (f a). Qed.

Lemma run_bind_exit {A B} (out : list Line) (code : Z) (f : A -> Run B) :
  run_bind (out, Exit code) f = (out, Exit code).
Proof. reflexivity. Qed.

Lemma run_bind_uncaught {A B} (out : list Line) (e : Signal) (f : A -> Run B) :
  run_bind (out, Uncaught e) f = (out, Uncaught e).
Proof. reflexivity. Qed.

(** Simplification of a run whose steps are known. *)
Ltac run_steps :=
  cbv beta iota zeta
      delta [run_bind print sys_exit run_ret eval convert fst snd].

Ltac same_output :=
  f_equal; repeat rewrite <- app_assoc; reflexivity.

Ltac open_main :=
  unfold main, fetch_account_state, fetch_open_orders, fetch_user_fills,
    get_user_position_choice, get_user_btc_size, preamble, banner,
    activity_reported, activity_text, fills_of in *.

(** The activity line of a run that gets past it. *)
Ltac activity_line Hact :=
  match goal with
  | |- context [get_last_activity_time ?w ?orders ?fills] =>
      destruct (get_last_activity_time w orders fills) as [last_activity |];
      [| now elim Hact]
  end.

(** C5. In every run that derives a direction for the account (both the
    account state and the open orders were fetched, the activity line was
    printed, a BTC position with a non-zero size exists) and finds it
    different from the direction the
    user declared, the run ends with [sys.exit(1)]; its output is the
    preamble followed by the mismatch message, which names both
    directions, and nothing else: no order is scaled and no table is
    printed, whatever the orders are. *)
Theorem main_direction_mismatch (w : World) (account_state : AccountState)
    (orders : list Order) (btc_position : Position)
    (account_direction : string) :
  clearinghouseState w = Response account_state ->
  openOrders w = Response orders ->
  activity_reported w orders ->
  get_btc_position account_state = Some btc_position ->
  determine_position_direction btc_position = Some account_direction ->
  account_direction <> snd (position_choice w) ->
  main w =
  ((preamble w orders ++
    mismatch_message (snd (position_choice w)) account_direction)%list,
   Exit 1) /\
  In [Str "Your selected direction: ";
      Str (str_upper (snd (position_choice w)))] (fst (main w)) /\
  In [Str "Account position direction: "; Str (str_upper account_direction)]
     (fst (main w)).
Proof.
  intros Hacc Hord Hact Hpos Hdir Hneq.
  assert (Hmain : main w =
    ((preamble w orders ++
      mismatch_message (snd (position_choice w)) account_direction)%list,
     Exit 1)).
  { open_main. rewrite Hacc, Hord.
    destruct (position_choice w) as [dialogue1 user_direction].
    destruct (btc_size w) as [dialogue2 user_btc_size].
    cbn [fst snd] in *.
    apply String.eqb_neq in Hneq.
    destruct (userFills w) as [fills | msg]; run_steps;
      activity_line Hact; run_steps; rewrite Hpos, Hdir, Hneq;
      cbv beta iota zeta delta [negb mismatch_message]; same_output. }
  rewrite Hmain. cbn [fst]. split; [reflexivity |].
  split; apply in_or_app; right; unfold mismatch_message; cbn [In]; tauto.
Qed.

Lemma main_direction_mismatch_witness :
  let w := world_with "long" short_position [order_3_3] in
  clearinghouseState w = Response (account_with short_position) /\
  openOrders w = Response [order_3_3] /\
  activity_reported w [order_3_3] /\
  get_btc_position (account_with short_position) = Some short_position /\
  determine_position_direction short_position = Some "short" /\
  "short" <> snd (position_choice w) /\
  main w =
  ((preamble w [order_3_3] ++ mismatch_message "long" "short")%list, Exit 1).
Proof.
  cbv zeta.
  assert (H4 : determine_position_direction short_position = Some "short")
    by (vm_compute; reflexivity).
  assert (H5 : "short" <> snd (position_choice
                                 (world_with "long" short_position [order_3_3])))
    by discriminate.
  assert (H3 : activity_reported
                 (world_with "long" short_position [order_3_3]) [order_3_3])
    by discriminate.
  repeat (split; [first [reflexivity | assumption] |]).
  exact (proj1 (main_direction_mismatch
                  (world_with "long" short_position [order_3_3])
                  (account_with short_position) [order_3_3] short_position
                  "short" eq_refl eq_refl H3 eq_refl H4 H5)).
Defined.

(** C7. In every run that reaches the order filter (both requests
    answered, the activity line printed, a BTC position with a non-zero
    size whose direction is the declared one) and finds no BTC order, the run ends with
    [sys.exit(0)]; its output is the preamble followed by the "no pending
    BTC orders" line and nothing else: nothing is scaled and no table is
    printed. *)
Theorem main_no_pending_orders (w : World) (account_state : AccountState)
    (orders : list Order) (btc_position : Position) :
  clearinghouseState w = Response account_state ->
  openOrders w = Response orders ->
  activity_reported w orders ->
  get_btc_position account_state = Some btc_position ->
  determine_position_direction btc_position = Some (snd (position_choice w)) ->
  get_btc_orders orders = [] ->
  main w = ((preamble w orders ++ [no_pending_orders_message])%list, Exit 0).
Proof.
  intros Hacc Hord Hact Hpos Hdir Hnone.
  open_main. rewrite Hacc, Hord.
  destruct (position_choice w) as [dialogue1 user_direction].
  destruct (btc_size w) as [dialogue2 user_btc_size].
  cbn [fst snd] in *.
  destruct (userFills w) as [fills | msg]; run_steps;
    activity_line Hact; run_steps; rewrite Hpos, Hdir, String.eqb_refl, Hnone;
    cbv beta iota zeta delta [negb no_pending_orders_message]; same_output.
Qed.

Lemma main_no_pending_orders_witness :
  let w := world_with "short" short_position [eth_order] in
  clearinghouseState w = Response (account_with short_position) /\
  openOrders w = Response [eth_order] /\
  activity_reported w [eth_order] /\
  get_btc_position (account_with short_position) = Some short_position /\
  determine_position_direction short_position = Some (snd (position_choice w)) /\
  get_btc_orders [eth_order] = [] /\
  main w = ((preamble w [eth_order] ++ [no_pending_orders_message])%list, Exit 0).
Proof.
  cbv zeta.
  assert (H4 : determine_position_direction short_position =
               Some (snd (position_choice
                            (world_with "short" short_position [eth_order]))))
    by (vm_compute; reflexivity).
  assert (H3 : activity_reported
                 (world_with "short" short_position [eth_order]) [eth_order])
    by discriminate.
  repeat (split; [first [reflexivity | assumption] |]).
  exact (main_no_pending_orders
           (world_with "short" short_position [eth_order])
           (account_with short_position) [eth_order] short_position
           eq_refl eq_refl H3 eq_refl H4 eq_refl).
Defined.

(** C8. A failed fills request is not fatal: [fetch_user_fills] prints
    nothing and returns the empty list, and the run goes on exactly as if
    the venue had answered with no fills.  A failed account-state request,
    and a failed open-orders request after a successful account-state one,
    end the run with [sys.exit(1)] right after the error line. *)
Theorem fetch_failures (w : World) (msg : string) :
  fetch_user_fills (with_fills w (RequestException msg)) = ([], Done []) /\
  main (with_fills w (RequestException msg)) =
  main (with_fills w (Response [])) /\
  main (with_account w (RequestException msg)) =
  ((banner w ++ [[Str "Error fetching account state: "; Str msg]])%list,
   Exit 1) /\
  (forall account_state,
     main (with_orders (with_account w (Response account_state))
                       (RequestException msg)) =
     ((banner w ++ [[Str "Error fetching open orders: "; Str msg]])%list,
      Exit 1)).
Proof.
  split; [reflexivity |]. split; [reflexivity |]. split; [| intros st].
  - open_main. cbn [with_account clearinghouseState position_choice btc_size
                    HYPERLIQUID_ADDRESS get_address].
    destruct (position_choice w) as [dialogue1 user_direction].
    destruct (btc_size w) as [dialogue2 user_btc_size].
    run_steps. same_output.
  - open_main. cbn [with_account with_orders clearinghouseState openOrders
                    position_choice btc_size HYPERLIQUID_ADDRESS get_address].
    destruct (position_choice w) as [dialogue1 user_direction].
    destruct (btc_size w) as [dialogue2 user_btc_size].
    run_steps. same_output.
Qed.

(** With the fills request failing, a run still gets to its end. *)
Example main_without_fills :
  snd (main (with_fills (world_with "short" short_position [order_3_3])
                        (RequestException "timeout"))) = Done tt.
Proof. vm_compute. reflexivity. Qed.

(* ================================================================== *)
(** ** 14. The buy-fill projection                                     *)
(* ================================================================== *)

(** The exact sum of a non-positive and a non-positive number is not
    positive; rounding keeps the sign. *)
Lemma dec_fix_sign (d d' : Decimal) :
  dec_fix d = Ok d' ->
  d_sign d' = d_sign d /\ (is_zero d = true -> is_zero d' = true).
Proof.
  unfold dec_fix. destruct (is_zero d) eqn:Hz.
  - intros H. injection H as <-. now split.
  - destruct (Etop <? _)%Z; [discriminate |].
    match goal with |- context [if ?c then _ else Ok d] => destruct c end.
    + cbv zeta. match goal with |- context [if ?c then Raise _ else _] =>
                  destruct c end; [discriminate |].
      intros H. injection H as <-. split; [reflexivity | discriminate].
    + intros H. injection H as <-. split; [reflexivity | discriminate].
Qed.

Lemma signed_at_sign (d : Decimal) (e : Z) :
  dec_gt d dec_zero = false -> (signed_at d e <= 0)%Z.
Proof.
  rewrite dec_gt_zero. unfold signed_at, is_zero.
  destruct (N.eqb_spec (d_int d) 0) as [-> | Hnz], (d_sign d);
    cbn [negb andb]; intros H; try discriminate H; cbn; lia.
Qed.

Lemma dec_add_gt_zero (a b s : Decimal) :
  dec_add a b = Ok s ->
  dec_gt s dec_zero = true ->
  dec_gt a dec_zero = false ->
  dec_gt b dec_zero = true.
Proof.
  intros Hadd Hs Ha. unfold dec_add in Hadd.
  destruct (dec_fix_sign _ _ Hadd) as (Hsign & Hzero).
  rewrite dec_gt_zero in Hs. apply andb_true_iff in Hs.
  destruct Hs as (Hnz & Hpos). apply negb_true_iff in Hnz, Hpos.
  rewrite Hsign in Hpos.
  assert (Hraw : is_zero (raw_add a b) = false).
  { destruct (is_zero (raw_add a b)); [| reflexivity].
    rewrite Hzero in Hnz by reflexivity. discriminate. }
  unfold raw_add in Hpos, Hraw. cbn [d_sign] in Hpos.
  unfold is_zero in Hraw. cbn [d_int] in Hraw.
  set (e := Z.min (d_exp a) (d_exp b)) in *.
  pose proof (signed_at_sign a e Ha) as Hale.
  destruct (Z.eqb_spec (signed_at a e + signed_at b e) 0) as [H0 | H0].
  - rewrite H0 in Hraw. discriminate Hraw.
  - apply Z.ltb_ge in Hpos.
    assert (Hb : (0 < signed_at b e)%Z) by lia.
    rewrite dec_gt_zero. unfold signed_at, is_zero in *.
    destruct (d_sign b), (N.eqb_spec (d_int b) 0) as [Hb0 | Hb0];
      try reflexivity; try rewrite Hb0 in Hb; cbn in Hb; lia.
Qed.

Section LongSummary.

Variables (scaled_orders : list ScaledOrder).
Variables (current_position_size current_entry_price ratio : Decimal).
Variables (scaled_current_size total_buy_size total_buy_cost net_position
           : Decimal).

Hypothesis some_buy_order : buy_orders scaled_orders <> [].
Hypothesis Hscaled :
  dec_mul current_position_size ratio = Ok scaled_current_size.
Hypothesis Hsize : sum_sizes (buy_orders scaled_orders) = Ok total_buy_size.
Hypothesis Hcost : sum_costs (buy_orders scaled_orders) = Ok total_buy_cost.
Hypothesis Hnet :
  dec_add scaled_current_size total_buy_size = Ok net_position.

Let summary : Run unit :=
  print_long_summary scaled_orders current_position_size current_entry_price
                     ratio.

Ltac open_summary :=
  unfold summary, print_long_summary; fold (buy_orders scaled_orders);
  destruct (buy_orders scaled_orders) as [| o rest] eqn:Hbuy;
  [ now elim some_buy_order | ];
  rewrite Hsize, Hcost, Hscaled; run_steps; rewrite Hnet; run_steps.

(** No long position results: no average entry. *)
Lemma long_summary_not_long :
  dec_gt net_position dec_zero = false ->
  summary = (long_summary scaled_current_size total_buy_size net_position
                          None total_buy_cost, Done tt).
Proof. intros Hn. open_summary. rewrite Hn. reflexivity. Qed.

(** Already long: the existing cost is blended in. *)
Lemma long_summary_adds_to_long (current_cost total average : Decimal) :
  dec_gt net_position dec_zero = true ->
  dec_gt scaled_current_size dec_zero = true ->
  dec_mul scaled_current_size current_entry_price = Ok current_cost ->
  dec_add current_cost total_buy_cost = Ok total ->
  dec_div total net_position = Ok average ->
  summary = (long_summary scaled_current_size total_buy_size net_position
                          (Some average) total_buy_cost, Done tt).
Proof.
  intros Hn Hs H1 H2 H3. open_summary.
  rewrite Hn, Hs, H1. run_steps. rewrite H2. run_steps. rewrite H3.
  reflexivity.
Qed.

(** Was short or flat: the average entry comes from the buys alone. *)
Lemma long_summary_from_short (average : Decimal) :
  dec_gt net_position dec_zero = true ->
  dec_gt scaled_current_size dec_zero = false ->
  dec_div total_buy_cost total_buy_size = Ok average ->
  summary = (long_summary scaled_current_size total_buy_size net_position
                          (Some average) total_buy_cost, Done tt).
Proof.
  intros Hn Hs H1.
  pose proof (dec_add_gt_zero _ _ _ Hnet Hn Hs) as Hb.
  open_summary. rewrite Hn, Hs, Hb, H1. reflexivity.
Qed.

End LongSummary.

Lemma Qle_0_not_gt (d : Decimal) :
  (to_Q d <= 0)%Q -> dec_gt d dec_zero = false.
Proof.
  intros H. destruct (dec_gt d dec_zero) eqn:Hg; [| reflexivity].
  apply dec_gt_zero_Q in Hg. now apply Qle_not_lt in H.
Qed.

(** Sums: the totals of a summary are the sums of the specification. *)
Lemma adds_up_sum (xs : list Decimal) (acc total : Decimal) :
  adds_up acc xs total ->
  fold_left (fun acc x => (a <- acc ;; dec_add a x)%exc) xs (Ok acc) =
  Ok total.
Proof.
  intros H. induction H as [acc | acc x acc' total xs Hadd _ IH];
    cbn [fold_left exc_bind]; [reflexivity |].
  now rewrite Hadd.
Qed.

Lemma sum_is_sum_sizes (orders : list ScaledOrder) (total : Decimal) :
  sum_is (sizes_of orders) total -> sum_sizes orders = Ok total.
Proof. intros H. now apply adds_up_sum. Qed.

Lemma costs_add_up (orders : list ScaledOrder) (costs : list Decimal) :
  costs_are orders costs ->
  forall acc total,
    adds_up acc costs total ->
    fold_left (fun acc o => (a <- acc ;;
                             c <- dec_mul (scaled_size o) (price o) ;;
                             dec_add a c)%exc)
              orders (Ok acc) = Ok total.
Proof.
  intros H. induction H as [| o c orders costs Hc _ IH]; intros acc total Hs.
  - inversion Hs; subst. reflexivity.
  - inversion Hs as [| ? ? acc' ? ? Hadd Hrest]; subst.
    cbn [fold_left exc_bind]. rewrite Hc. cbn [exc_bind]. rewrite Hadd.
    now apply IH.
Qed.

Lemma sum_is_sum_costs (orders : list ScaledOrder) (costs : list Decimal)
    (total : Decimal) :
  costs_are orders costs -> sum_is costs total -> sum_costs orders = Ok total.
Proof. intros Hc Hs. now apply (costs_add_up orders costs Hc). Qed.

Lemma adds_up_exact (xs : list Decimal) (acc total : Decimal) :
  adds_up acc xs total ->
  adds_exactly acc xs ->
  (to_Q total == to_Q acc + Qsum (map to_Q xs))%Q.
Proof.
  intros H. induction H as [acc | acc x acc' total xs Hadd _ IH];
    cbn [adds_exactly map Qsum fold_right].
  - intros _. ring.
  - intros (Hfits & Hrest).
    assert (Hacc : acc' = raw_add acc x).
    { unfold dec_add in Hadd. unfold fits in Hfits. congruence. }
    subst acc'. rewrite (IH Hrest), to_Q_raw_add.
    fold (Qsum (map to_Q xs)). ring.
Qed.

Lemma sum_is_exact (xs : list Decimal) (total : Decimal) :
  sum_is xs total -> adds_exactly dec_zero xs ->
  (to_Q total == Qsum (map to_Q xs))%Q.
Proof.
  intros H He. rewrite (adds_up_exact xs dec_zero total H He).
  assert (H0 : (to_Q dec_zero == 0)%Q) by reflexivity.
  rewrite H0. ring.
Qed.

Lemma costs_exact (orders : list ScaledOrder) (costs : list Decimal) :
  costs_are orders costs ->
  Forall (fun o => fits (raw_mul (scaled_size o) (price o))) orders ->
  (Qsum (map to_Q costs) == Qsum (map exact_cost orders))%Q.
Proof.
  intros H. induction H as [| o c orders costs Hc _ IH]; intros Hf;
    cbn [map Qsum fold_right]; [reflexivity |].
  inversion Hf as [| ? ? Ho Hrest]; subst.
  fold (Qsum (map to_Q costs)). fold (Qsum (map exact_cost orders)).
  rewrite (IH Hrest), (dec_mul_exact _ _ _ Ho Hc). reflexivity.
Qed.

Lemma in_buy_orders (scaled_orders : list ScaledOrder) (o : ScaledOrder) :
  In o (buy_orders scaled_orders) <->
  In o scaled_orders /\ str_upper (side o) = "B".
Proof.
  unfold buy_orders, is_side. rewrite filter_In, String.eqb_eq. reflexivity.
Qed.

(** C2. Take scaled orders with at least one buy order (an order is a buy
    order when its side, in capitals, is "B"), a signed position size
    [c], an entry price [e] and a ratio [r], and let, in the decimal
    arithmetic of the script, [scaled_current_size = c * r],
    [total_buy_size] be the sum over the buy orders of [scaled_size],
    [total_buy_cost] the sum over the buy orders of
    [scaled_size * price], and
    [net_position = scaled_current_size + total_buy_size]; the products
    and the sums are the exact ones whenever those fit the context.  Then
    the summary printed is exactly [long_summary]: it reports
    [scaled_current_size], [total_buy_size], [net_position] and, last,
    [total_buy_cost] as the capital required, whatever the sign of
    [net_position]; and when [net_position > 0] and
    [scaled_current_size > 0] it reports the average entry
    [(scaled_current_size * e + total_buy_cost) / net_position]. *)
Theorem buy_fill_projection (scaled_orders : list ScaledOrder)
    (c e r scaled_current_size total_buy_size total_buy_cost net_position
     : Decimal) (costs : list Decimal) :
  buy_orders scaled_orders <> [] ->
  dec_mul c r = Ok scaled_current_size ->
  sum_is (sizes_of (buy_orders scaled_orders)) total_buy_size ->
  costs_are (buy_orders scaled_orders) costs ->
  sum_is costs total_buy_cost ->
  dec_add scaled_current_size total_buy_size = Ok net_position ->
  (forall o, In o (buy_orders scaled_orders) <->
             In o scaled_orders /\ str_upper (side o) = "B") /\
  (fits (raw_mul c r) ->
   (to_Q scaled_current_size == to_Q c * to_Q r)%Q) /\
  (adds_exactly dec_zero (sizes_of (buy_orders scaled_orders)) ->
   (to_Q total_buy_size ==
    Qsum (map (fun o => to_Q (scaled_size o)) (buy_orders scaled_orders)))%Q) /\
  (Forall (fun o => fits (raw_mul (scaled_size o) (price o)))
          (buy_orders scaled_orders) ->
   adds_exactly dec_zero costs ->
   (to_Q total_buy_cost ==
    Qsum (map exact_cost (buy_orders scaled_orders)))%Q) /\
  (fits (raw_add scaled_current_size total_buy_size) ->
   (to_Q net_position == to_Q scaled_current_size + to_Q total_buy_size)%Q) /\
  ((to_Q net_position <= 0)%Q ->
   print_long_summary scaled_orders c e r =
   (long_summary scaled_current_size total_buy_size net_position None
                 total_buy_cost, Done tt)) /\
  ((0 < to_Q net_position)%Q -> (0 < to_Q scaled_current_size)%Q ->
   forall current_cost total average,
     dec_mul scaled_current_size e = Ok current_cost ->
     dec_add current_cost total_buy_cost = Ok total ->
     dec_div total net_position = Ok average ->
     print_long_summary scaled_orders c e r =
     (long_summary scaled_current_size total_buy_size net_position
                   (Some average) total_buy_cost, Done tt)) /\
  ((0 < to_Q net_position)%Q -> (to_Q scaled_current_size <= 0)%Q ->
   forall average,
     dec_div total_buy_cost total_buy_size = Ok average ->
     print_long_summary scaled_orders c e r =
     (long_summary scaled_current_size total_buy_size net_position
                   (Some average) total_buy_cost, Done tt)).
Proof.
  intros Hbuy Hscs Hsizes Hcosts Htotal Hnet.
  pose proof (sum_is_sum_sizes _ _ Hsizes) as Hsize.
  pose proof (sum_is_sum_costs _ _ _ Hcosts Htotal) as Hcost.
  split; [| split; [| split; [| split; [| split; [| split; [| split]]]]]].
  - intros o. apply in_buy_orders.
  - intros Hf. now apply dec_mul_exact.
  - intros He. rewrite (sum_is_exact _ _ Hsizes He).
    unfold sizes_of. now rewrite map_map.
  - intros Hf He. rewrite (sum_is_exact _ _ Htotal He).
    now apply costs_exact.
  - intros Hf. now apply dec_add_exact.
  - intros Hn. apply Qle_0_not_gt in Hn.
    now apply long_summary_not_long.
  - intros Hn Hs current_cost total average H1 H2 H3.
    apply dec_gt_zero_Q in Hn, Hs.
    now apply long_summary_adds_to_long with current_cost total.
  - intros Hn Hs average H1.
    apply dec_gt_zero_Q in Hn. apply Qle_0_not_gt in Hs.
    now apply long_summary_from_short.
Qed.

Lemma buy_fill_projection_witness :
  let c := mkDecimal false 2 (-1) in
  let e := mkDecimal false 48000 0 in
  let r := mkDecimal false 1 0 in
  let scs := mkDecimal false 2 (-1) in
  let tbs := mkDecimal false 750 (-3) in
  let costs := [mkDecimal false 25000000 (-3); mkDecimal false 12000000 (-3)] in
  let cost := mkDecimal false 37000000 (-3) in
  let net := mkDecimal false 950 (-3) in
  let average := mkDecimal false 4905263157894736842105263158 (-23) in
  buy_orders two_buys_and_a_sell <> [] /\
  dec_mul c r = Ok scs /\
  sum_is (sizes_of (buy_orders two_buys_and_a_sell)) tbs /\
  costs_are (buy_orders two_buys_and_a_sell) costs /\
  sum_is costs cost /\
  dec_add scs tbs = Ok net /\
  (0 < to_Q net)%Q /\ (0 < to_Q scs)%Q /\
  (to_Q tbs ==
   Qsum (map (fun o => to_Q (scaled_size o))
             (buy_orders two_buys_and_a_sell)))%Q /\
  print_long_summary two_buys_and_a_sell c e r =
  (long_summary scs tbs net (Some average) cost, Done tt).
Proof.
  cbv zeta.
  assert (H0 : buy_orders two_buys_and_a_sell <> []) by discriminate.
  assert (H1 : dec_mul (mkDecimal false 2 (-1)) (mkDecimal false 1 0) =
               Ok (mkDecimal false 2 (-1))) by (vm_compute; reflexivity).
  assert (H2 : sum_is (sizes_of (buy_orders two_buys_and_a_sell))
                      (mkDecimal false 750 (-3))).
  { unfold sum_is.
    eapply adds_up_cons; [vm_compute; reflexivity |].
    eapply adds_up_cons; [vm_compute; reflexivity |].
    apply adds_up_nil. }
  assert (H3 : costs_are (buy_orders two_buys_and_a_sell)
                 [mkDecimal false 25000000 (-3);
                  mkDecimal false 12000000 (-3)]).
  { unfold costs_are.
    constructor; [vm_compute; reflexivity |].
    constructor; [vm_compute; reflexivity |]. constructor. }
  assert (H4 : sum_is [mkDecimal false 25000000 (-3);
                       mkDecimal false 12000000 (-3)]
                      (mkDecimal false 37000000 (-3))).
  { unfold sum_is.
    eapply adds_up_cons; [vm_compute; reflexivity |].
    eapply adds_up_cons; [vm_compute; reflexivity |].
    apply adds_up_nil. }
  assert (H5 : dec_add (mkDecimal false 2 (-1)) (mkDecimal false 750 (-3)) =
               Ok (mkDecimal false 950 (-3))) by (vm_compute; reflexivity).
  assert (H6 : (0 < to_Q (mkDecimal false 950 (-3)))%Q)
    by (vm_compute; reflexivity).
  assert (H7 : (0 < to_Q (mkDecimal false 2 (-1)))%Q)
    by (vm_compute; reflexivity).
  destruct (buy_fill_projection two_buys_and_a_sell
              (mkDecimal false 2 (-1)) (mkDecimal false 48000 0)
              (mkDecimal false 1 0) (mkDecimal false 2 (-1))
              (mkDecimal false 750 (-3)) (mkDecimal false 37000000 (-3))
              (mkDecimal false 950 (-3))
              [mkDecimal false 25000000 (-3); mkDecimal false 12000000 (-3)]
              H0 H1 H2 H3 H4 H5)
    as (_ & _ & Hsum & _ & _ & _ & Hlong & _).
  repeat (split; [assumption |]).
  split.
  - apply Hsum. repeat split; vm_compute; reflexivity.
  - apply (Hlong H6 H7 (mkDecimal false 96000 (-1))
                 (mkDecimal false 46600000 (-3)));
      vm_compute; reflexivity.
Defined.

(** C3. Under the same conventions: when [net_position > 0] and
    [scaled_current_size <= 0] then [total_buy_size > 0] and the average
    entry reported is [total_buy_cost / total_buy_size]; the entry price
    of the position that was closed plays no part.  When
    [net_position <= 0] the summary has no average-entry line. *)
Theorem buy_fill_average_from_short (scaled_orders : list ScaledOrder)
    (c e r scaled_current_size total_buy_size total_buy_cost net_position
     : Decimal) :
  buy_orders scaled_orders <> [] ->
  dec_mul c r = Ok scaled_current_size ->
  sum_sizes (buy_orders scaled_orders) = Ok total_buy_size ->
  sum_costs (buy_orders scaled_orders) = Ok total_buy_cost ->
  dec_add scaled_current_size total_buy_size = Ok net_position ->
  ((0 < to_Q net_position)%Q -> (to_Q scaled_current_size <= 0)%Q ->
   (0 < to_Q total_buy_size)%Q /\
   forall average,
     dec_div total_buy_cost total_buy_size = Ok average ->
     forall e',
       print_long_summary scaled_orders c e' r =
       (long_summary scaled_current_size total_buy_size net_position
                     (Some average) total_buy_cost, Done tt)) /\
  ((to_Q net_position <= 0)%Q ->
   forall average,
     ~ In (average_entry_line average)
          (fst (print_long_summary scaled_orders c e r))).
Proof.
  intros Hbuy Hscs Hsize Hcost Hnet. split.
  - intros Hn Hs. apply dec_gt_zero_Q in Hn. apply Qle_0_not_gt in Hs.
    split.
    + apply dec_gt_zero_Q. now apply dec_add_gt_zero with (1 := Hnet).
    + intros average H1 e'. now apply long_summary_from_short.
  - intros Hn average. apply Qle_0_not_gt in Hn.
    rewrite (long_summary_not_long scaled_orders c e r _ _ _ _
               Hbuy Hscs Hsize Hcost Hnet Hn).
    unfold long_summary, average_entry_line, current_position_line,
      buy_total_line, net_position_line, capital_required_line.
    cbn [fst app In].
    intros [H | [H | [H | [H | [H | [H | [H | []]]]]]]]; discriminate H.
Qed.

Lemma buy_fill_average_from_short_witness :
  let c := mkDecimal true 2 (-1) in
  let e := mkDecimal false 60000 0 in
  let r := mkDecimal false 1 0 in
  let scs := mkDecimal true 2 (-1) in
  let tbs := mkDecimal false 500 (-3) in
  let cost := mkDecimal false 25000000 (-3) in
  let net := mkDecimal false 300 (-3) in
  buy_orders scenario_E_orders <> [] /\
  dec_mul c r = Ok scs /\
  sum_sizes (buy_orders scenario_E_orders) = Ok tbs /\
  sum_costs (buy_orders scenario_E_orders) = Ok cost /\
  dec_add scs tbs = Ok net /\
  (0 < to_Q net)%Q /\ (to_Q scs <= 0)%Q /\
  dec_div cost tbs = Ok (mkDecimal false 50000 0) /\
  print_long_summary scenario_E_orders c e r =
  (long_summary scs tbs net (Some (mkDecimal false 50000 0)) cost, Done tt).
Proof.
  cbv zeta.
  assert (H0 : buy_orders scenario_E_orders <> []) by discriminate.
  assert (H6 : (0 < to_Q (mkDecimal false 300 (-3)))%Q)
    by (vm_compute; reflexivity).
  assert (H7 : (to_Q (mkDecimal true 2 (-1)) <= 0)%Q)
    by (vm_compute; discriminate).
  assert (H8 : dec_div (mkDecimal false 25000000 (-3))
                       (mkDecimal false 500 (-3)) =
               Ok (mkDecimal false 50000 0)) by (vm_compute; reflexivity).
  repeat (split; [first [assumption | vm_compute; reflexivity] |]).
  refine (proj2 (proj1 (buy_fill_average_from_short scenario_E_orders
            (mkDecimal true 2 (-1)) (mkDecimal false 60000 0)
            (mkDecimal false 1 0) (mkDecimal true 2 (-1))
            (mkDecimal false 500 (-3)) (mkDecimal false 25000000 (-3))
            (mkDecimal false 300 (-3)) H0 _ _ _ _) H6 H7)
            (mkDecimal false 50000 0) H8 (mkDecimal false 60000 0));
    vm_compute; reflexivity.
Defined.

(** Scenario E, run: short 0.2, buys of 0.500 for 25000: net 0.300 and
    average entry 50000, whatever the entry price of the short was. *)
Example scenario_E (entry : Decimal) :
  print_long_summary scenario_E_orders (mkDecimal true 2 (-1)) entry
                     (mkDecimal false 1 0) =
  (long_summary (mkDecimal true 2 (-1)) (mkDecimal false 500 (-3))
                (mkDecimal false 300 (-3)) (Some (mkDecimal false 50000 0))
                (mkDecimal false 25000000 (-3)), Done tt).
Proof. vm_compute. reflexivity. Qed.

(* ================================================================== *)
(** ** 15. Missing fields and signs in [scale_orders]                  *)
(* ================================================================== *)

Lemma to_Q_nonneg_iff (d : Decimal) :
  (0 <= to_Q d)%Q <-> d_sign d = false \/ d_int d = 0%N.
Proof.
  split.
  - intros H. destruct (d_sign d) eqn:Hs; [right | now left].
    destruct (N.eq_dec (d_int d) 0) as [H0 | H0]; [exact H0 | exfalso].
    apply (Qle_not_lt _ _ H). apply to_Q_neg. now split.
  - intros [Hs | H0]; [now apply to_Q_nonneg |].
    apply to_Q_zero in H0. rewrite H0. apply Qle_refl.
Qed.

Lemma dec_fix_nonneg (d d' : Decimal) :
  dec_fix d = Ok d' -> (0 <= to_Q d)%Q -> (0 <= to_Q d')%Q.
Proof.
  intros Hfix. destruct (dec_fix_sign _ _ Hfix) as (Hs & Hz).
  rewrite !to_Q_nonneg_iff, Hs. intros [H | H]; [now left | right].
  apply is_zero_true, Hz, is_zero_true, H.
Qed.

Lemma dec_abs_nonneg (d d' : Decimal) : dec_abs d = Ok d' -> (0 <= to_Q d')%Q.
Proof.
  unfold dec_abs, dec_neg, dec_pos. intros H.
  apply to_Q_nonneg_iff. left.
  destruct (d_sign d) eqn:Hs, (is_zero d);
    apply dec_fix_sign in H; destruct H as (-> & _); cbn; now rewrite ?Hs.
Qed.

Lemma dec_mul_nonneg (a b c : Decimal) :
  dec_mul a b = Ok c -> (0 <= to_Q a)%Q -> (0 <= to_Q b)%Q -> (0 <= to_Q c)%Q.
Proof.
  unfold dec_mul. intros H Ha Hb. apply (dec_fix_nonneg _ _ H).
  rewrite to_Q_raw_mul. now apply Qmult_le_0_compat.
Qed.

Lemma dec_rescale_sign (d : Decimal) (e : Z) (r : Rounding) :
  d_sign (dec_rescale d e r) = d_sign d.
Proof.
  unfold dec_rescale. destruct (is_zero d); [reflexivity |].
  now destruct (e <=? d_exp d)%Z.
Qed.

Lemma dec_quantize_nonneg (d q d' : Decimal) (r : Rounding) :
  dec_quantize d q r = Ok d' -> (0 <= to_Q d)%Q -> (0 <= to_Q d')%Q.
Proof.
  unfold dec_quantize. intros H Hd.
  destruct (negb _); [discriminate |].
  destruct (is_zero d) eqn:Hz.
  - apply (dec_fix_nonneg _ _ H). apply to_Q_nonneg_iff. now right.
  - destruct (Emax <? adjusted d)%Z; [discriminate |].
    destruct (prec <? _)%Z; [discriminate |].
    destruct (Emax <? _)%Z; [discriminate |].
    destruct (prec <? _)%Z; [discriminate |].
    apply (dec_fix_nonneg _ _ H). apply to_Q_nonneg_iff. left.
    rewrite dec_rescale_sign.
    apply to_Q_nonneg_iff in Hd. destruct Hd as [Hs | H0]; [exact Hs |].
    apply is_zero_true in H0. congruence.
Qed.

Lemma scale_order_unsigned (ratio : Decimal) (order : Order) (so : ScaledOrder) :
  (0 <= to_Q ratio)%Q ->
  scale_order ratio order = Ok so ->
  scaled_unsigned order so.
Proof.
  intros Hr. unfold scale_order.
  destruct (dec_abs (decimal_or_0 (ord_sz order))) as [s |] eqn:Habs;
    [| discriminate]. cbn [exc_bind].
  destruct (dec_mul s ratio) as [m |] eqn:Hmul; [| discriminate].
  cbn [exc_bind].
  destruct (dec_quantize m _ _) as [q |] eqn:Hq; [| discriminate].
  cbn [exc_bind].
  destruct (dec_mul q _) as [n |] eqn:Hn; [| discriminate].
  cbn [exc_bind]. intros H. injection H as <-.
  pose proof (dec_abs_nonneg _ _ Habs) as Hs.
  pose proof (dec_mul_nonneg _ _ _ Hmul Hs Hr) as Hm.
  pose proof (dec_quantize_nonneg _ _ _ _ Hq Hm) as Hq0.
  unfold scaled_unsigned; cbn [original_size scaled_size notional].
  repeat split; try assumption.
  intros Hp. exact (dec_mul_nonneg _ _ _ Hn Hq0 Hp).
Qed.

Lemma scale_order_with_defaults (ratio : Decimal) (order : Order) :
  scale_order ratio (with_defaults order) = scale_order ratio order.
Proof. reflexivity. Qed.

(** C10 (amended). A missing field never makes [scale_orders] fail: the
    call behaves exactly as on the orders with size 0, price 0 and side ""
    written in for the missing fields, and an order without any field is
    scaled to zeros.  The absolute value of the size is taken before
    scaling: whenever the call returns and the ratio is not negative,
    every original and scaled size is non-negative, and so is every
    notional whose price is not negative.  And the call does return when
    the ratio is positive and the arithmetic of every order stays within
    the 28-digit context ([within_context]), the sign of the size being
    of no account. *)
Theorem scale_orders_defaults_and_signs (ratio : Decimal)
    (orders : list Order) :
  scale_orders (map with_defaults orders) ratio = scale_orders orders ratio /\
  (exists zero, scale_orders [empty_order] ratio = Ok [zero] /\
                side zero = "" /\ is_zero (price zero) = true /\
                is_zero (original_size zero) = true /\
                is_zero (scaled_size zero) = true /\
                is_zero (notional zero) = true) /\
  (forall scaled,
     (0 <= to_Q ratio)%Q ->
     scale_orders orders ratio = Ok scaled ->
     Forall2 scaled_unsigned orders scaled) /\
  ((0 < to_Q ratio)%Q ->
   Forall (within_context ratio) orders ->
   exists scaled,
     scale_orders orders ratio = Ok scaled /\
     Forall2 (fun order so => original_size so = magnitude order)
             orders scaled).
Proof.
  split; [| split; [| split]].
  - induction orders as [| order rest IH]; [reflexivity |].
    cbn [map scale_orders]. now rewrite scale_order_with_defaults, IH.
  - destruct ratio as [rs rc re].
    unfold scale_orders, scale_order, empty_order.
    cbn [ord_sz ord_limitPx ord_side decimal_or_0].
    change (dec_abs (mkDecimal false 0 0)) with (Ok (mkDecimal false 0 0)).
    cbn [exc_bind].
    unfold dec_mul at 1, raw_mul, dec_fix at 1, is_zero;
      cbn [d_sign d_int d_exp N.mul N.eqb xorb exc_bind].
    unfold dec_quantize, is_zero; cbn [d_sign d_int d_exp N.eqb].
    change (negb ((Etiny <=? -3)%Z && (-3 <=? Emax)%Z)) with false.
    cbv iota.
    unfold dec_fix at 1, is_zero; cbn [d_sign d_int d_exp N.eqb exc_bind].
    unfold dec_mul, raw_mul, dec_fix, is_zero;
      cbn [d_sign d_int d_exp N.mul N.eqb exc_bind].
    eexists. split; [reflexivity |]. repeat split.
  - revert orders. intros os scaled Hr. revert scaled.
    induction os as [| order rest IH]; intros scaled H.
    + injection H as <-. constructor.
    + cbn [scale_orders] in H.
      destruct (scale_order ratio order) as [so |] eqn:Hso; [| discriminate].
      cbn [exc_bind] in H.
      destruct (scale_orders rest ratio) as [sos |]; [| discriminate].
      cbn [exc_bind] in H. injection H as <-.
      constructor; [now apply scale_order_unsigned with ratio | now apply IH].
  - intros Hr Hall. induction Hall as [| order rest Ho _ IH].
    + exists []. split; [reflexivity | constructor].
    + destruct IH as (scaled & Hrun & Hrel).
      exists (scaled_as_specified ratio order :: scaled). split.
      * cbn [scale_orders].
        rewrite (scale_order_within_context ratio order Hr Ho).
        cbn [exc_bind]. now rewrite Hrun.
      * constructor; [reflexivity | exact Hrel].
Qed.

Lemma scale_orders_defaults_and_signs_witness :
  let ratio := mkDecimal false 2 0 in
  (0 < to_Q ratio)%Q /\
  Forall (within_context ratio) [negative_order; empty_order] /\
  exists scaled,
    scale_orders [negative_order; empty_order] ratio = Ok scaled /\
    Forall2 scaled_unsigned [negative_order; empty_order] scaled.
Proof.
  cbv zeta.
  assert (Hr : (0 < to_Q (mkDecimal false 2 0))%Q) by (vm_compute; reflexivity).
  assert (Hall : Forall (within_context (mkDecimal false 2 0))
                        [negative_order; empty_order]).
  { repeat constructor; vm_compute; reflexivity. }
  split; [exact Hr |]. split; [exact Hall |].
  destruct (proj2 (proj2 (proj2 (scale_orders_defaults_and_signs
              (mkDecimal false 2 0) [negative_order; empty_order]))) Hr Hall)
    as (scaled & Hrun & _).
  exists scaled. split; [exact Hrun |].
  exact (proj1 (proj2 (proj2 (scale_orders_defaults_and_signs
           (mkDecimal false 2 0) [negative_order; empty_order])))
           scaled (Qlt_le_weak _ _ Hr) Hrun).
Defined.

(** A negative size of 1.5 at ratio 2 is scaled to 3.000. *)
Example scale_orders_negative_size :
  scale_orders [negative_order] (mkDecimal false 2 0) =
  Ok [mkScaledOrder "B" (mkDecimal false 50000 0) (mkDecimal false 15 (-1))
        (mkDecimal false 3000 (-3)) (mkDecimal false 150000000 (-3))].
Proof. vm_compute. reflexivity. Qed.

(** C10, as stated, fails: [scale_orders] is not total, since a size of
    1E+26 cannot be quantized to three decimals within 28 digits and
    [InvalidOperation] is raised; and a negative size does not by itself
    make the results non-negative: with a negative price the notional is
    negative, and with a negative ratio the scaled size is. *)
Lemma scale_orders_not_total :
  scale_orders [huge_order] (mkDecimal false 1 0) = Raise InvalidOperation /\
  (exists so,
     scale_orders [negative_price_order] (mkDecimal false 1 0) = Ok [so] /\
     (to_Q (notional so) < 0)%Q) /\
  (exists so,
     scale_orders [negative_order] (mkDecimal true 1 0) = Ok [so] /\
     (to_Q (scaled_size so) < 0)%Q).
Proof.
  split; [vm_compute; reflexivity |]. split.
  - exists (mkScaledOrder "B" (mkDecimal true 50000 0) (mkDecimal false 15 (-1))
              (mkDecimal false 1500 (-3)) (mkDecimal true 75000000 (-3))).
    split; vm_compute; reflexivity.
  - exists (mkScaledOrder "B" (mkDecimal false 50000 0) (mkDecimal false 15 (-1))
              (mkDecimal true 1500 (-3)) (mkDecimal true 75000000 (-3))).
    split; vm_compute; reflexivity.
Qed.

(* ================================================================== *)
(** ** 16. The ratio and its divisor                                   *)
(* ================================================================== *)

(** Rounding to the context raises nothing but [Overflow]. *)
Lemma dec_fix_raises (d : Decimal) (e : Signal) :
  dec_fix d = Raise e -> e = Overflow.
Proof.
  unfold dec_fix. destruct (is_zero d); [discriminate |].
  destruct (Etop <? _)%Z; [now intros [= <-] |].
  match goal with |- context [if ?c then _ else Ok d] => destruct c end;
    [| discriminate].
  cbv zeta. match goal with |- context [if ?c then Raise _ else _] =>
              destruct c end; [now intros [= <-] | discriminate].
Qed.

(** A division by a number that is not zero raises nothing but
    [Overflow]; a division by zero always raises. *)
Lemma dec_div_raises (a b : Decimal) (e : Signal) :
  is_zero b = false -> dec_div a b = Raise e -> e = Overflow.
Proof.
  intros Hb. unfold dec_div. rewrite Hb.
  destruct (is_zero a); [apply dec_fix_raises |].
  cbv zeta. destruct (_ =? 0)%N.
  - destruct (strip_zeros _ _ _ _). apply dec_fix_raises.
  - apply dec_fix_raises.
Qed.

Lemma dec_div_by_zero (a b : Decimal) :
  is_zero b = true ->
  dec_div a b = Raise (if is_zero a then InvalidOperation else DivisionByZero).
Proof. intros Hb. unfold dec_div. rewrite Hb. now destruct (is_zero a). Qed.


(* ================================================================== *)
(** ** 17. Results of the context, and division by zero                *)
(* ================================================================== *)

Lemma in_context_fits (d : Decimal) : in_context d -> fits d.
Proof. intros (H0 & H1). now apply fits_intro. Qed.

Lemma digits_head_bound (c : N) (len k : Z) :
  (0 <= k <= len)%Z -> (c < pow10 len)%N -> (digits_head c len k < pow10 k)%N.
Proof.
  intros Hk Hc. unfold digits_head.
  apply N.Div0.div_lt_upper_bound.
  rewrite <- pow10_add by lia.
  now replace (len - k + k)%Z with len by lia.
Qed.

(** Whatever the context returns is in the context. *)
Lemma dec_fix_in_context (d d' : Decimal) : dec_fix d = Ok d' -> in_context d'.
Proof.
  unfold dec_fix, in_context.
  destruct (is_zero d) eqn:Hz.
  { intros [= <-]. cbn [d_int d_exp]. unfold Etiny, Emin, Emax, prec.
    split; [lia | intros Habs; now elim Habs]. }
  apply is_zero_false in Hz.
  destruct (ndigits_bounds (d_int d)) as (Hlen & Hup & _).
  set (len := ndigits (d_int d)) in *.
  destruct (Z.ltb_spec Etop (len + d_exp d - prec)) as [| Htop];
    [discriminate |].
  set (exp_min := if (len + d_exp d - prec <? Etiny)%Z then Etiny
                  else (len + d_exp d - prec)%Z).
  assert (Hmin : (Etiny <= exp_min <= Etop /\ len + d_exp d - prec <= exp_min)%Z).
  { unfold exp_min. destruct (Z.ltb_spec (len + d_exp d - prec) Etiny);
      unfold Etiny, Etop, Emin, Emax, prec in *; lia. }
  destruct (Z.ltb_spec (d_exp d) exp_min) as [Hround | Hkeep].
  - (* the coefficient is rounded *)
    cbv zeta.
    set (digits := (len + d_exp d - exp_min)%Z).
    destruct (Z.ltb_spec digits 0) as [Hneg | Hpos].
    + (* nothing is left of the coefficient *)
      change (round_half_even 1 1 0) with (-1)%Z.
      change (digits_head 1 1 0) with 0%N.
      cbn [Z.ltb Z.compare andb].
      destruct (Z.ltb_spec Etop exp_min); [discriminate |].
      intros [= <-]. cbn [d_int d_exp].
      unfold Etiny, Etop, Emin, Emax, prec in *.
      split; [lia | intros Habs; now elim Habs].
    + assert (Hh : (digits_head (d_int d) len digits < pow10 digits)%N)
        by (apply digits_head_bound; [unfold digits; lia | exact Hup]).
      assert (Hp : (pow10 digits <= pow10 prec)%N)
        by (apply pow10_le_mono; unfold digits; lia).
      set (coeff := digits_head (d_int d) len digits) in *.
      destruct (0 <? round_half_even (d_int d) len digits)%Z.
      * cbn [andb].
        destruct (Z.ltb_spec prec (ndigits (coeff + 1))) as [Hcarry | Hnocarry].
        -- destruct (Z.ltb_spec Etop (exp_min + 1)); [discriminate |].
           intros [= <-]. cbn [d_int d_exp].
           unfold adjusted; cbn [d_int d_exp].
           assert (Hn : (ndigits ((coeff + 1) / 10) <= prec)%Z).
           { apply ndigits_le; [unfold prec; lia |].
             apply N.Div0.div_lt_upper_bound.
             pose proof (pow10_pos prec). lia. }
           unfold Etiny, Etop, Emin, Emax, prec in *. split; intros; lia.
        -- destruct (Z.ltb_spec Etop exp_min); [discriminate |].
           intros [= <-]. cbn [d_int d_exp].
           unfold adjusted; cbn [d_int d_exp].
           unfold Etiny, Etop, Emin, Emax, prec in *. split; intros; lia.
      * cbn [andb].
        destruct (Z.ltb_spec Etop exp_min); [discriminate |].
        intros [= <-]. cbn [d_int d_exp].
        unfold adjusted; cbn [d_int d_exp].
        assert (Hn : (ndigits coeff <= prec)%Z)
          by (apply ndigits_le; [unfold prec; lia | lia]).
        unfold Etiny, Etop, Emin, Emax, prec in *. split; intros; lia.
  - intros [= <-]. unfold adjusted. fold len.
    unfold Etiny, Etop, Emin, Emax, prec in *. split; intros; lia.
Qed.

(** Rounding is idempotent, and does not look at the sign. *)
Lemma dec_fix_fits (d d' : Decimal) : dec_fix d = Ok d' -> fits d'.
Proof. intros H. apply in_context_fits. now apply dec_fix_in_context with d. Qed.

Lemma fits_copy_negate (d : Decimal) : fits d -> fits (copy_negate d).
Proof.
  intros H. apply in_context_fits.
  pose proof (dec_fix_in_context _ _ H) as Hc. exact Hc.
Qed.

Lemma dec_abs_fits_nonzero (d d' : Decimal) :
  fits d -> is_zero d = false -> dec_abs d = Ok d' -> is_zero d' = false.
Proof.
  intros Hf Hz. unfold dec_abs, dec_neg, dec_pos. rewrite Hz.
  destruct (d_sign d).
  - rewrite (fits_copy_negate d Hf). now intros [= <-].
  - rewrite Hf. now intros [= <-].
Qed.

Lemma no_dbz_fix (d : Decimal) : no_division_by_zero (dec_fix d).
Proof. intros e H. apply dec_fix_raises in H. now subst. Qed.

Lemma no_dbz_mul (a b : Decimal) : no_division_by_zero (dec_mul a b).
Proof. apply no_dbz_fix. Qed.

Lemma no_dbz_add (a b : Decimal) : no_division_by_zero (dec_add a b).
Proof. apply no_dbz_fix. Qed.

Lemma no_dbz_sub (a b : Decimal) : no_division_by_zero (dec_sub a b).
Proof. apply no_dbz_fix. Qed.

Lemma no_dbz_abs (d : Decimal) : no_division_by_zero (dec_abs d).
Proof. unfold dec_abs, dec_neg, dec_pos. destruct (d_sign d); apply no_dbz_fix. Qed.

Lemma no_dbz_div (a b : Decimal) :
  is_zero b = false -> no_division_by_zero (dec_div a b).
Proof. intros Hb e H. apply (dec_div_raises _ _ _ Hb) in H. now subst. Qed.

Lemma no_dbz_quantize (d q : Decimal) (r : Rounding) :
  no_division_by_zero (dec_quantize d q r).
Proof.
  unfold dec_quantize. intros e.
  repeat match goal with
         | |- context [if ?c then _ else _] => destruct c
         end;
    try (intros [= <-]; discriminate); apply no_dbz_fix.
Qed.

Lemma no_dbz_bind {A B} (x : Exc A) (f : A -> Exc B) :
  no_division_by_zero x ->
  (forall a, no_division_by_zero (f a)) ->
  no_division_by_zero (exc_bind x f).
Proof.
  intros Hx Hf e. destruct x as [a | e']; cbn [exc_bind].
  - apply Hf.
  - intros [= <-]. now apply Hx.
Qed.

Lemma no_dbz_ok {A} (a : A) : no_division_by_zero (Ok a).
Proof. intros e H. discriminate H. Qed.

Lemma no_dbz_scale_order (ratio : Decimal) (order : Order) :
  no_division_by_zero (scale_order ratio order).
Proof.
  unfold scale_order.
  apply no_dbz_bind; [apply no_dbz_abs | intros s].
  apply no_dbz_bind; [apply no_dbz_mul | intros m].
  apply no_dbz_bind; [apply no_dbz_quantize | intros q].
  apply no_dbz_bind; [apply no_dbz_mul | intros n]. apply no_dbz_ok.
Qed.

Lemma no_dbz_scale_orders (orders : list Order) (ratio : Decimal) :
  no_division_by_zero (scale_orders orders ratio).
Proof.
  induction orders as [| order rest IH]; cbn [scale_orders];
    [apply no_dbz_ok |].
  apply no_dbz_bind; [apply no_dbz_scale_order | intros s].
  apply no_dbz_bind; [exact IH | intros ss]. apply no_dbz_ok.
Qed.

Lemma no_dbz_sum (xs : list Decimal) : no_division_by_zero (dec_sum xs).
Proof.
  unfold dec_sum. generalize (no_dbz_ok dec_zero).
  generalize (Ok dec_zero). induction xs as [| x xs IH]; intros acc Hacc;
    cbn [fold_left]; [exact Hacc |].
  apply IH. apply no_dbz_bind; [exact Hacc | intros a; apply no_dbz_add].
Qed.

Lemma no_dbz_sum_costs (xs : list ScaledOrder) :
  no_division_by_zero (sum_costs xs).
Proof.
  unfold sum_costs. generalize (no_dbz_ok dec_zero).
  generalize (Ok dec_zero). induction xs as [| x xs IH]; intros acc Hacc;
    cbn [fold_left]; [exact Hacc |].
  apply IH. apply no_dbz_bind; [exact Hacc | intros a].
  apply no_dbz_bind; [apply no_dbz_mul | intros c; apply no_dbz_add].
Qed.

Section Safety.

Context {A B : Type}.

Lemma safe_bind (m : Run A) (k : A -> Run B) :
  never_divides_by_zero m ->
  (forall a, snd m = Done a -> never_divides_by_zero (k a)) ->
  never_divides_by_zero (run_bind m k).
Proof.
  unfold never_divides_by_zero, run_bind. destruct m as [out [a | c | e]];
    cbn [snd]; intros Hm Hk.
  - specialize (Hk a eq_refl). now destruct (k a).
  - discriminate.
  - intros [= ->]. now apply Hm.
Qed.

Lemma safe_bind_eval (x : Exc A) (k : A -> Run B) :
  no_division_by_zero x ->
  (forall a, x = Ok a -> never_divides_by_zero (k a)) ->
  never_divides_by_zero (run_bind (eval x) k).
Proof.
  intros Hx Hk. apply safe_bind.
  - unfold never_divides_by_zero. destruct x as [a | e]; cbn; [discriminate |].
    intros [= ->]. now apply (Hx DivisionByZero).
  - intros a. destruct x as [a' | e]; cbn; [| discriminate].
    intros [= ->]. now apply Hk.
Qed.

Lemma safe_done (out : list Line) (a : A) :
  never_divides_by_zero (out, Done a).
Proof. discriminate. Qed.

Lemma safe_exit (out : list Line) (code : Z) :
  never_divides_by_zero (out, @Exit A code).
Proof. discriminate. Qed.

End Safety.

Lemma safe_print_then {B} (l : Line) (k : unit -> Run B) :
  never_divides_by_zero (k tt) ->
  never_divides_by_zero (run_bind (print l) k).
Proof.
  intros H. apply safe_bind; [apply safe_done |]. now intros [].
Qed.

Lemma safe_print_exit {A B} (l : Line) (code : Z) (k : A -> Run B) :
  never_divides_by_zero
    (run_bind (run_bind (print l) (fun _ => sys_exit code)) k).
Proof. discriminate. Qed.

Ltac safe_prints := repeat (apply safe_print_then).

Lemma safe_eval_end {A} (x : Exc A) :
  no_division_by_zero x -> never_divides_by_zero (eval x).
Proof.
  intros Hx. unfold never_divides_by_zero.
  destruct x as [a | e]; cbn; [discriminate |].
  intros [= ->]. now apply (Hx DivisionByZero).
Qed.

Lemma positive_not_zero (d : Decimal) :
  dec_gt d dec_zero = true -> is_zero d = false.
Proof.
  rewrite dec_gt_zero. destruct (is_zero d); [discriminate | reflexivity].
Qed.

Lemma negative_not_zero (d : Decimal) :
  dec_lt d dec_zero = true -> is_zero d = false.
Proof.
  rewrite dec_lt_zero. destruct (is_zero d); [discriminate | reflexivity].
Qed.

(** Both summaries divide by numbers they have found not to be zero. *)
Lemma print_long_summary_safe (scaled_orders : list ScaledOrder)
    (c e r : Decimal) :
  never_divides_by_zero (print_long_summary scaled_orders c e r).
Proof.
  unfold print_long_summary.
  destruct (filter (is_side "B") scaled_orders) as [| o rest];
    [apply safe_done |].
  apply safe_bind_eval; [apply no_dbz_sum | intros total_buy_size _].
  apply safe_bind_eval; [apply no_dbz_sum_costs | intros total_buy_cost _].
  apply safe_bind_eval; [apply no_dbz_mul | intros scaled_current_size _].
  apply safe_bind_eval; [apply no_dbz_add | intros net_position _].
  safe_prints.
  apply safe_bind; [| intros ? _; apply safe_done].
  destruct (dec_gt net_position dec_zero) eqn:Hnet; [| apply safe_done].
  apply safe_bind; [| intros ? _; apply safe_done].
  destruct (dec_gt scaled_current_size dec_zero).
  - apply safe_bind_eval; [apply no_dbz_mul | intros current_cost _].
    apply safe_bind_eval; [apply no_dbz_add | intros total _].
    apply safe_eval_end, no_dbz_div. now apply positive_not_zero.
  - destruct (dec_gt total_buy_size dec_zero) eqn:Hsize; [| apply safe_done].
    apply safe_eval_end, no_dbz_div. now apply positive_not_zero.
Qed.

Lemma print_short_summary_safe (scaled_orders : list ScaledOrder)
    (c e r : Decimal) :
  never_divides_by_zero (print_short_summary scaled_orders c e r).
Proof.
  unfold print_short_summary.
  destruct (filter (is_side "A") scaled_orders) as [| o rest];
    [apply safe_done |].
  apply safe_bind_eval; [apply no_dbz_sum | intros total_sell_size _].
  apply safe_bind_eval; [apply no_dbz_sum_costs | intros total_sell_value _].
  apply safe_bind_eval; [apply no_dbz_mul | intros scaled_current_size _].
  apply safe_bind_eval; [apply no_dbz_sub | intros net_position Hnet].
  safe_prints.
  apply safe_bind; [| intros ? _; apply safe_done].
  destruct (dec_lt net_position dec_zero) eqn:Hneg; [| apply safe_done].
  apply safe_bind; [| intros ? _; apply safe_done].
  destruct (dec_lt scaled_current_size dec_zero).
  - apply safe_bind_eval; [apply no_dbz_abs | intros size _].
    apply safe_bind_eval; [apply no_dbz_mul | intros current_value _].
    apply safe_bind_eval; [apply no_dbz_add | intros total _].
    apply safe_bind_eval; [apply no_dbz_abs | intros net Habs].
    apply safe_eval_end, no_dbz_div.
    apply (dec_abs_fits_nonzero net_position net); [| | exact Habs].
    + exact (dec_fix_fits _ _ Hnet).
    + now apply negative_not_zero.
  - destruct (dec_gt total_sell_size dec_zero) eqn:Hsize; [| apply safe_done].
    apply safe_eval_end, no_dbz_div. now apply positive_not_zero.
Qed.

(** No run of [main] ends in an uncaught [DivisionByZero]. *)
Lemma main_never_divides_by_zero (w : World) : never_divides_by_zero (main w).
Proof.
  unfold main. safe_prints.
  apply safe_bind; [apply safe_done | intros user_direction _].
  apply safe_bind; [apply safe_done | intros user_btc_size _].
  safe_prints.
  apply safe_bind;
    [unfold fetch_account_state; destruct (clearinghouseState w);
     discriminate | intros account_state _].
  apply safe_bind;
    [unfold fetch_open_orders; destruct (openOrders w);
     discriminate | intros orders _].
  apply safe_bind;
    [unfold fetch_user_fills; destruct (userFills w);
     discriminate | intros fills _].
  apply safe_bind;
    [destruct (get_last_activity_time w orders fills);
     discriminate | intros last_activity _].
  safe_prints.
  destruct (get_btc_position account_state) as [btc_position |];
    [| discriminate].
  destruct (determine_position_direction btc_position)
    as [account_direction |]; [| discriminate].
  apply safe_bind;
    [destruct (negb _); discriminate | intros _ _].
  apply safe_bind;
    [destruct (get_btc_orders orders); discriminate | intros _ _].
  apply safe_bind_eval; [apply no_dbz_abs | intros account_btc_size Hsize].
  destruct (dec_eq account_btc_size dec_zero) eqn:Hzero; [discriminate |].
  apply safe_bind; [apply safe_done | intros _ _].
  apply safe_bind_eval;
    [apply no_dbz_div; now rewrite <- dec_eq_zero | intros ratio Hratio].
  safe_prints.
  apply safe_bind_eval; [apply no_dbz_scale_orders | intros scaled Hscaled].
  apply safe_bind; [apply safe_done | intros _ _].
  apply safe_bind; [apply print_long_summary_safe | intros _ _].
  apply safe_bind; [apply print_short_summary_safe | intros _ _].
  safe_prints. apply safe_done.
Qed.

(* ================================================================== *)
(** ** 18. The guard before the ratio                                 *)
(* ================================================================== *)

(** C6. Take a run that reaches the ratio computation: both requests
    answered, the activity line printed, a BTC position with the declared
    direction, at least one BTC order, and [account_btc_size] the absolute
    position size.  If
    [account_btc_size] is zero, the run prints the "cannot calculate
    ratio" error, which is not the error of the direction check, and ends
    with [sys.exit(1)]: nothing is divided.  If it is not zero, the
    division is performed: it yields the ratio that the next lines
    report, or overflows; it never raises [DivisionByZero] or
    [InvalidOperation].  And no run at all ends in an uncaught
    [DivisionByZero]. *)
Theorem main_ratio_guard (w : World) :
  (forall account_state orders btc_position account_btc_size,
     clearinghouseState w = Response account_state ->
     openOrders w = Response orders ->
     activity_reported w orders ->
     get_btc_position account_state = Some btc_position ->
     determine_position_direction btc_position =
       Some (snd (position_choice w)) ->
     get_btc_orders orders <> [] ->
     get_position_size btc_position = Ok account_btc_size ->
     ((to_Q account_btc_size == 0)%Q ->
      main w = ((preamble w orders ++ [zero_size_message])%list, Exit 1)) /\
     (~ (to_Q account_btc_size == 0)%Q ->
      (forall e,
         dec_div (snd (btc_size w)) account_btc_size = Raise e ->
         e = Overflow /\ main w = (preamble w orders, Uncaught Overflow)) /\
      (forall ratio,
         dec_div (snd (btc_size w)) account_btc_size = Ok ratio ->
         exists rest outcome,
           main w =
           ((preamble w orders ++
             ratio_report (snd (position_choice w)) (snd (position_choice w))
               account_btc_size (decimal_or_0 (pos_entryPx btc_position))
               (snd (btc_size w)) ratio
               (List.length (get_btc_orders orders)) ++
             rest)%list, outcome)))) /\
  zero_size_message <> no_active_position_message /\
  never_divides_by_zero (main w).
Proof.
  split; [| split; [discriminate | apply main_never_divides_by_zero]].
  intros account_state orders btc_position account_btc_size
    Hacc Hord Hact Hpos Hdir Hsome Hsize.
  split.
  - intros Hzero. apply dec_eq_zero_Q in Hzero.
    open_main. rewrite Hacc, Hord.
    destruct (position_choice w) as [dialogue1 user_direction].
    destruct (btc_size w) as [dialogue2 user_btc_size].
    cbn [fst snd] in *.
    destruct (get_btc_orders orders) as [| o rest] eqn:Hbtc;
      [now elim Hsome |].
    destruct (userFills w) as [fills | msg]; run_steps;
      activity_line Hact; run_steps; rewrite Hpos, Hdir, String.eqb_refl, Hbtc, Hsize, Hzero;
      cbv beta iota zeta delta [negb zero_size_message]; same_output.
  - intros Hnz.
    assert (Hz : dec_eq account_btc_size dec_zero = false).
    { destruct (dec_eq account_btc_size dec_zero) eqn:H; [| reflexivity].
      now apply dec_eq_zero_Q in H. }
    assert (Hz' : is_zero account_btc_size = false)
      by now rewrite <- dec_eq_zero.
    split.
    + intros e He. pose proof (dec_div_raises _ _ _ Hz' He) as ->.
      split; [reflexivity |].
      open_main. rewrite Hacc, Hord.
      destruct (position_choice w) as [dialogue1 user_direction].
      destruct (btc_size w) as [dialogue2 user_btc_size].
      cbn [fst snd] in *.
      destruct (get_btc_orders orders) as [| o rest] eqn:Hbtc;
        [now elim Hsome |].
      destruct (userFills w) as [fills | msg]; run_steps;
        activity_line Hact; run_steps; rewrite Hpos, Hdir, String.eqb_refl, Hbtc, Hsize, Hz, He;
        cbv beta iota zeta delta [negb]; same_output.
    + intros ratio Hratio.
      open_main. rewrite Hacc, Hord.
      destruct (position_choice w) as [dialogue1 user_direction].
      destruct (btc_size w) as [dialogue2 user_btc_size].
      cbn [fst snd] in *.
      destruct (get_btc_orders orders) as [| o rest] eqn:Hbtc;
        [now elim Hsome |].
      destruct (userFills w) as [fills | msg]; run_steps;
        activity_line Hact; run_steps; rewrite Hpos, Hdir, String.eqb_refl, Hbtc, Hsize, Hz,
                     Hratio;
        cbv beta iota zeta delta [negb ratio_report];
        (destruct (scale_orders (o :: rest) ratio) as [scaled | e]; run_steps;
         [ destruct (print_long_summary scaled _ _ _) as [o1 [[] | c1 | e1]];
           run_steps;
           [ destruct (print_short_summary scaled _ _ _)
               as [o2 [[] | c2 | e2]]; run_steps | | ] | ]);
        do 2 eexists; f_equal; cbn [app]; repeat rewrite <- app_assoc;
        cbn [app]; reflexivity.
Qed.

Lemma main_ratio_guard_witness :
  let w := world_with "long" tiny_position [order_3_3] in
  let size := mkDecimal false 0 (-1000026) in
  clearinghouseState w = Response (account_with tiny_position) /\
  openOrders w = Response [order_3_3] /\
  activity_reported w [order_3_3] /\
  get_btc_position (account_with tiny_position) = Some tiny_position /\
  determine_position_direction tiny_position = Some (snd (position_choice w)) /\
  get_btc_orders [order_3_3] <> [] /\
  get_position_size tiny_position = Ok size /\
  (to_Q size == 0)%Q /\
  main w = ((preamble w [order_3_3] ++ [zero_size_message])%list, Exit 1).
Proof.
  cbv zeta.
  assert (H4 : determine_position_direction tiny_position =
               Some (snd (position_choice
                            (world_with "long" tiny_position [order_3_3]))))
    by (vm_compute; reflexivity).
  assert (H3 : activity_reported
                 (world_with "long" tiny_position [order_3_3]) [order_3_3])
    by discriminate.
  assert (H5 : get_btc_orders [order_3_3] <> []) by discriminate.
  assert (H6 : get_position_size tiny_position =
               Ok (mkDecimal false 0 (-1000026))) by (vm_compute; reflexivity).
  assert (H7 : (to_Q (mkDecimal false 0 (-1000026)) == 0)%Q)
    by (apply to_Q_zero; reflexivity).
  repeat (split; [first [reflexivity | assumption] |]).
  exact (proj1 (proj1 (main_ratio_guard
                         (world_with "long" tiny_position [order_3_3]))
                  (account_with tiny_position) [order_3_3] tiny_position
                  (mkDecimal false 0 (-1000026))
                  eq_refl eq_refl H3 eq_refl H4 H5 H6) H7).
Defined.

(** The guard in a run: the position 1E-1000050 is long, yet its
    absolute value is zero in the context. *)
Example main_tiny_position :
  snd (main (world_with "long" tiny_position [order_3_3])) = Exit 1 /\
  In zero_size_message
     (fst (main (world_with "long" tiny_position [order_3_3]))).
Proof. split; [vm_compute; reflexivity |]. vm_compute. tauto. Qed.

(** A run to the end: a short of 0.5 copied at size 1 has ratio 2. *)
Example main_short_run :
  snd (main (world_with "short" short_position [order_3_3])) = Done tt /\
  dec_div (mkDecimal false 1 0) (mkDecimal false 5 (-1)) =
  Ok (mkDecimal false 2 0).
Proof. split; vm_compute; reflexivity. Qed.

(* ================================================================== *)
(** ** 19. Extraction of the position and of the orders                *)
(* ================================================================== *)

Lemma is_BTC_iff (c : option string) : is_BTC c = true <-> c = Some "BTC".
Proof.
  destruct c as [s |]; cbn; [| split; discriminate].
  rewrite String.eqb_eq. split; [now intros -> | now intros [= ->]].
Qed.

Lemma find_first {A} (f : A -> bool) (l : list A) :
  match find f l with
  | Some x => exists before after,
                l = (before ++ x :: after)%list /\ f x = true /\
                forall y, In y before -> f y = false
  | None => forall y, In y l -> f y = false
  end.
Proof.
  induction l as [| a l IH]; cbn [find].
  - intros y [].
  - destruct (f a) eqn:Ha.
    + exists [], l. repeat split; [exact Ha | intros y []].
    + destruct (find f l) as [x |].
      * destruct IH as (before & after & -> & Hx & Hb).
        exists (a :: before), after. repeat split; [exact Hx |].
        intros y [<- | Hy]; [exact Ha | now apply Hb].
      * intros y [<- | Hy]; [exact Ha | now apply IH].
Qed.

(** X1. [get_btc_position] returns the first position object whose coin is
    "BTC", and [None] exactly when there is none; an account state without
    ["assetPositions"], and entries without ["position"] or without a
    coin, are passed over without failing. *)
Theorem get_btc_position_first (account_state : AccountState) :
  match get_btc_position account_state with
  | Some position =>
      pos_coin position = Some "BTC" /\
      exists before after,
        positions_of account_state = (before ++ position :: after)%list /\
        forall p, In p before -> pos_coin p <> Some "BTC"
  | None =>
      forall p, In p (positions_of account_state) -> pos_coin p <> Some "BTC"
  end.
Proof.
  unfold get_btc_position. fold (positions_of account_state).
  pose proof (find_first (fun p => is_BTC (pos_coin p))
                         (positions_of account_state)) as H.
  destruct (find _ _) as [position |].
  - destruct H as (before & after & Heq & Hbtc & Hb).
    split; [now apply is_BTC_iff |].
    exists before, after. split; [exact Heq |].
    intros p Hp Hc. apply is_BTC_iff in Hc.
    specialize (Hb p Hp). cbn in Hb. congruence.
  - intros p Hp Hc. apply is_BTC_iff in Hc.
    specialize (H p Hp). cbn in H. congruence.
Qed.

(** X2. [get_btc_orders] keeps exactly the orders whose coin is "BTC" (an
    order without a coin is dropped), in their original order: it
    distributes over concatenation, and filtering twice changes nothing. *)
Theorem get_btc_orders_keeps_btc (orders more : list Order) :
  (forall o, In o (get_btc_orders orders) <->
             In o orders /\ ord_coin o = Some "BTC") /\
  get_btc_orders (orders ++ more) =
    (get_btc_orders orders ++ get_btc_orders more)%list /\
  get_btc_orders (get_btc_orders orders) = get_btc_orders orders /\
  (List.length (get_btc_orders orders) <= List.length orders)%nat.
Proof.
  unfold get_btc_orders. split; [| split; [| split]].
  - intros o. rewrite filter_In, is_BTC_iff. reflexivity.
  - apply filter_app.
  - induction orders as [| o l IH]; [reflexivity |]. cbn [filter].
    destruct (is_BTC (ord_coin o)) eqn:Ho; [| exact IH].
    cbn [filter]. now rewrite Ho, IH.
  - apply filter_length_le.
Qed.

Lemma to_Q_copy_abs (d : Decimal) : to_Q (copy_abs d) = Qabs (to_Q d).
Proof.
  unfold to_Q, copy_abs, signed_int; cbn [d_sign d_int d_exp].
  destruct (Z.leb_spec 0 (d_exp d)) as [He | He].
  - unfold inject_Z; cbn [Qabs]. f_equal.
    assert (0 < 10 ^ d_exp d)%Z by (now apply Z.pow_pos_nonneg).
    destruct (d_sign d); nia.
  - cbn [Qabs]. f_equal. destruct (d_sign d); lia.
Qed.

Lemma dec_abs_zero (d : Decimal) :
  is_zero d = true ->
  dec_abs d = Ok (mkDecimal false 0 (Z.min (Z.max (d_exp d) Etiny) Emax)).
Proof.
  intros Hz. unfold dec_abs, dec_neg, dec_pos. rewrite Hz.
  unfold dec_fix. change (is_zero (copy_abs d)) with (is_zero d).
  rewrite Hz. now destruct (d_sign d).
Qed.

(** X3. [get_position_size] raises nothing but [Overflow]; what it returns is
    never negative; it is exactly the absolute value of the signed size
    whenever that has at most 28 digits with exponents in range, and 0
    when the size is missing.  A position without direction has size
    zero. *)
Theorem get_position_size_abs (position : Position) :
  let szi := decimal_or_0 (pos_szi position) in
  (forall e, get_position_size position = Raise e -> e = Overflow) /\
  (forall size, get_position_size position = Ok size ->
                (0 <= to_Q size)%Q) /\
  (fits (copy_abs szi) ->
   exists size, get_position_size position = Ok size /\
                to_Q size = Qabs (to_Q szi)) /\
  (pos_szi position = None ->
   get_position_size position = Ok (mkDecimal false 0 0)) /\
  (determine_position_direction position = None ->
   exists size, get_position_size position = Ok size /\ (to_Q size == 0)%Q).
Proof.
  cbv zeta. unfold get_position_size.
  set (szi := decimal_or_0 (pos_szi position)).
  split; [| split; [| split; [| split]]].
  - intros e H. unfold dec_abs, dec_neg, dec_pos in H.
    destruct (d_sign szi); now apply dec_fix_raises in H.
  - intros size H. now apply dec_abs_nonneg with szi.
  - intros Hf. exists (copy_abs szi). split;
      [now apply dec_abs_magnitude | apply to_Q_copy_abs].
  - intros Hnone. unfold szi. rewrite Hnone. vm_compute. reflexivity.
  - intros Hdir.
    assert (Hz : is_zero szi = true).
    { unfold determine_position_direction in Hdir. fold szi in Hdir.
      rewrite dec_gt_zero, dec_lt_zero in Hdir.
      destruct (is_zero szi), (d_sign szi); cbn in Hdir;
        try discriminate; reflexivity. }
    rewrite (dec_abs_zero szi Hz). eexists. split; [reflexivity |].
    apply to_Q_zero. reflexivity.
Qed.

Lemma get_position_size_abs_witness :
  fits (copy_abs (decimal_or_0 (pos_szi short_position))) /\
  exists size, get_position_size short_position = Ok size /\
               to_Q size = Qabs (to_Q (decimal_or_0 (pos_szi short_position))).
Proof.
  assert (H : fits (copy_abs (decimal_or_0 (pos_szi short_position))))
    by (vm_compute; reflexivity).
  split; [exact H |].
  exact (proj1 (proj2 (proj2 (get_position_size_abs short_position))) H).
Defined.

(* ================================================================== *)
(** ** 20. [scale_orders] on every input                               *)
(* ================================================================== *)

Lemma scale_orders_single (ratio : Decimal) (order : Order) :
  scale_orders [order] ratio =
  match scale_order ratio order with
  | Ok so => Ok [so]
  | Raise e => Raise e
  end.
Proof. cbn [scale_orders]. now destruct (scale_order ratio order). Qed.

Lemma scale_orders_single_ok (ratio : Decimal) (order : Order) so :
  scale_orders [order] ratio = Ok [so] <-> scale_order ratio order = Ok so.
Proof.
  rewrite scale_orders_single.
  destruct (scale_order ratio order); split; congruence.
Qed.

Lemma scale_orders_single_raise (ratio : Decimal) (order : Order) e :
  scale_orders [order] ratio = Raise e <-> scale_order ratio order = Raise e.
Proof.
  rewrite scale_orders_single.
  destruct (scale_order ratio order); split; congruence.
Qed.

Lemma scale_orders_ok_iff (ratio : Decimal) (orders : list Order) scaled :
  scale_orders orders ratio = Ok scaled <->
  Forall2 (fun order so => scale_order ratio order = Ok so) orders scaled.
Proof.
  revert scaled. induction orders as [| order rest IH]; intros scaled.
  - cbn [scale_orders]. split.
    + intros [= <-]. constructor.
    + intros H. inversion H. reflexivity.
  - cbn [scale_orders]. split.
    + destruct (scale_order ratio order) as [so |] eqn:Hso;
        [| discriminate]. cbn [exc_bind].
      destruct (scale_orders rest ratio) as [sos |] eqn:Hrest;
        [| discriminate]. cbn [exc_bind]. intros [= <-].
      constructor; [exact Hso | now apply IH].
    + intros H. inversion H as [| ? so ? sos Hone Hall]; subst.
      rewrite Hone. cbn [exc_bind].
      apply IH in Hall. now rewrite Hall.
Qed.

Lemma scale_orders_raise_iff (ratio : Decimal) (orders : list Order) e :
  scale_orders orders ratio = Raise e <->
  exists before order after,
    orders = (before ++ order :: after)%list /\
    (exists done, scale_orders before ratio = Ok done) /\
    scale_order ratio order = Raise e.
Proof.
  revert e. induction orders as [| order rest IH]; intros e.
  - cbn [scale_orders]. split; [discriminate |].
    intros (before & o & after & H & _). now destruct before.
  - cbn [scale_orders]. split.
    + destruct (scale_order ratio order) as [so |] eqn:Hso.
      * cbn [exc_bind].
        destruct (scale_orders rest ratio) as [sos | e'] eqn:Hrest;
          [discriminate |]. cbn [exc_bind]. intros [= <-].
        destruct (proj1 (IH e') eq_refl)
          as (before & o & after & -> & (done & Hdone) & Ho).
        exists (order :: before), o, after.
        split; [reflexivity |]. split; [| exact Ho].
        exists (so :: done). cbn [scale_orders].
        now rewrite Hso, Hdone.
      * cbn [exc_bind]. intros [= <-].
        exists [], order, rest. split; [reflexivity |].
        split; [now exists [] | exact Hso].
    + intros (before & o & after & Heq & (done & Hdone) & Ho).
      destruct before as [| b before]; cbn [app] in Heq;
        injection Heq as -> ->.
      * now rewrite Ho.
      * cbn [scale_orders] in Hdone.
        destruct (scale_order ratio b) as [sb |]; [| discriminate].
        cbn [exc_bind] in *.
        destruct (scale_orders before ratio) as [sbs |] eqn:Hb;
          [| discriminate].
        assert (Hrest : scale_orders (before ++ o :: after) ratio = Raise e).
        { apply IH. exists before, o, after. split; [reflexivity |].
          split; [now exists sbs | exact Ho]. }
        now rewrite Hrest.
Qed.

(** X4. [scale_orders] treats the orders one by one and in order: when it
    returns, the result holds one scaled order per order, each being what
    the order alone is scaled to, with the side (or "") and the limit
    price (or 0) of its order; it raises exactly when some order alone
    raises, with the signal of the first such order, and then nothing is
    returned for the orders before it. *)
Theorem scale_orders_one_by_one (orders : list Order) (ratio : Decimal) :
  (forall scaled,
     scale_orders orders ratio = Ok scaled <->
     Forall2 (fun order so => scale_orders [order] ratio = Ok [so])
             orders scaled) /\
  (forall e,
     scale_orders orders ratio = Raise e <->
     exists before order after,
       orders = (before ++ order :: after)%list /\
       (exists done, scale_orders before ratio = Ok done) /\
       scale_orders [order] ratio = Raise e) /\
  (forall order so,
     scale_orders [order] ratio = Ok [so] ->
     side so = match ord_side order with Some s => s | None => "" end /\
     price so = decimal_or_0 (ord_limitPx order)).
Proof.
  split; [| split].
  - intros scaled. rewrite scale_orders_ok_iff.
    split; intros H; induction H; constructor; try assumption;
      now apply scale_orders_single_ok.
  - intros e. rewrite scale_orders_raise_iff.
    split; intros (before & o & after & Heq & Hdone & Ho);
      exists before, o, after; (split; [exact Heq |]);
      (split; [exact Hdone |]); now apply scale_orders_single_raise.
  - intros order so Hso. apply scale_orders_single_ok in Hso.
    unfold scale_order in Hso.
    destruct (dec_abs _); [| discriminate]. cbn [exc_bind] in Hso.
    destruct (dec_mul _ _); [| discriminate]. cbn [exc_bind] in Hso.
    destruct (dec_quantize _ _ _); [| discriminate]. cbn [exc_bind] in Hso.
    destruct (dec_mul _ _); [| discriminate]. cbn [exc_bind] in Hso.
    injection Hso as <-. now split.
Qed.

Lemma scale_orders_one_by_one_witness :
  scale_orders [order_B; huge_order; order_3_3] (mkDecimal false 1 0) =
    Raise InvalidOperation /\
  exists before order after,
    [order_B; huge_order; order_3_3] = (before ++ order :: after)%list /\
    (exists done, scale_orders before (mkDecimal false 1 0) = Ok done) /\
    scale_orders [order] (mkDecimal false 1 0) = Raise InvalidOperation.
Proof.
  assert (H : scale_orders [order_B; huge_order; order_3_3]
                (mkDecimal false 1 0) = Raise InvalidOperation)
    by (vm_compute; reflexivity).
  split; [exact H |].
  exact (proj1 (proj1 (proj2 (scale_orders_one_by_one
                                [order_B; huge_order; order_3_3]
                                (mkDecimal false 1 0)))
                  InvalidOperation) H).
Defined.

Lemma to_Q_copy_negate (d : Decimal) : (to_Q (copy_negate d) == - to_Q d)%Q.
Proof.
  rewrite !to_Q_Qpower.
  assert (H : signed_int (copy_negate d) = (- signed_int d)%Z).
  { unfold signed_int, copy_negate; cbn [d_sign d_int].
    destruct (d_sign d); cbn [negb]; lia. }
  rewrite H. change (d_exp (copy_negate d)) with (d_exp d).
  rewrite inject_Z_opp. ring.
Qed.

Lemma Qtrunc_opp (x : Q) : Qtrunc (- x) = (- Qtrunc x)%Z.
Proof.
  unfold Qtrunc, Qceiling.
  destruct (Qle_bool 0 x) eqn:Hx, (Qle_bool 0 (- x)) eqn:Hnx.
  - apply Qle_bool_iff in Hx, Hnx.
    assert (H0 : (x == 0)%Q).
    { apply Qle_antisym; [| exact Hx].
      apply Qopp_le_compat in Hnx. now rewrite Qopp_involutive in Hnx. }
    rewrite (Qfloor_comp (- x) 0), (Qfloor_comp x 0); [reflexivity | exact H0 |].
    now rewrite H0.
  - now rewrite (Qfloor_comp (- - x) x) by apply Qopp_involutive.
  - lia.
  - exfalso.
    destruct (Qlt_le_dec x 0) as [Hlt | Hle].
    + apply Qlt_le_weak, Qopp_le_compat in Hlt.
      apply Qle_bool_iff in Hlt. change (- 0)%Q with 0%Q in Hlt. congruence.
    + apply Qle_bool_iff in Hle. congruence.
Qed.

Lemma floor3_opp (x : Q) : (floor3 (- x) == - floor3 x)%Q.
Proof.
  unfold floor3.
  rewrite (Qtrunc_comp (- x * inject_Z 1000) (- (x * inject_Z 1000)))
    by ring.
  rewrite Qtrunc_opp, inject_Z_opp. field.
Qed.

Lemma floor3_close (x : Q) : (0 <= x)%Q -> (x < floor3 x + (1 # 1000))%Q.
Proof.
  intros Hx. unfold floor3.
  assert (Hx' : (0 <= x * inject_Z 1000)%Q).
  { apply Qmult_le_0_compat; [exact Hx | discriminate]. }
  rewrite (Qtrunc_nonneg _ Hx').
  pose proof (Qlt_floor (x * inject_Z 1000)) as H.
  rewrite inject_Z_plus in H.
  apply Qlt_shift_div_l in H; [| reflexivity].
  eapply Qlt_le_trans; [exact H |].
  apply Qle_lteq. right. field.
Qed.

Lemma floor3_comp (x y : Q) : (x == y)%Q -> (floor3 x == floor3 y)%Q.
Proof.
  intros H. unfold floor3.
  now rewrite (Qtrunc_comp (x * inject_Z 1000) (y * inject_Z 1000))
    by (now rewrite H).
Qed.

Lemma floor3_abs (x : Q) : (Qabs (floor3 x) == floor3 (Qabs x))%Q.
Proof.
  destruct (Qlt_le_dec x 0) as [Hlt | Hle].
  - assert (Hn : (0 <= - x)%Q).
    { apply Qlt_le_weak, Qopp_le_compat in Hlt. exact Hlt. }
    rewrite (floor3_comp (Qabs x) (- x))
      by (apply Qabs_neg; now apply Qlt_le_weak).
    destruct (floor3_bounds (- x) Hn) as [H0 _].
    rewrite floor3_opp in *.
    apply Qabs_neg.
    apply Qopp_le_compat in H0. now rewrite Qopp_involutive in H0.
  - destruct (floor3_bounds x Hle) as [H0 _].
    rewrite (floor3_comp (Qabs x) x) by now apply Qabs_pos.
    now apply Qabs_pos.
Qed.

(** Truncation to three decimals, for every number it accepts: the sign
    is kept and the coefficient is the integer part of a thousand times
    the absolute value. *)
Lemma dec_quantize_down3 (m q : Decimal) :
  dec_quantize m (mkDecimal false 1 (-3)) ROUND_DOWN = Ok q ->
  q = mkDecimal (d_sign m) (int_part (shift3 m)) (-3).
Proof.
  unfold dec_quantize. cbn [d_exp].
  change (negb ((Etiny <=? -3)%Z && (-3 <=? Emax)%Z)) with false. cbv iota.
  destruct (is_zero m) eqn:Hz.
  - apply is_zero_true in Hz. unfold shift3. rewrite Hz, int_part_zero.
    intros H. vm_compute in H. now injection H as <-.
  - destruct (Emax <? adjusted m)%Z; [discriminate |].
    destruct (prec <? adjusted m - -3 + 1)%Z; [discriminate |].
    rewrite (dec_rescale_down3 m Hz).
    destruct (Z.ltb_spec Emax
                (adjusted (mkDecimal (d_sign m) (int_part (shift3 m)) (-3))));
      [discriminate |].
    cbn [d_int].
    destruct (Z.ltb_spec prec (ndigits (int_part (shift3 m))));
      [discriminate |].
    rewrite fits_intro; [now intros [= <-] | | ];
      cbn [d_int d_exp]; unfold adjusted in *; cbn [d_int d_exp] in *;
      unfold Etiny, Emin, Emax, prec in *; lia.
Qed.

Lemma to_Q_quantize_down3 (m q : Decimal) :
  dec_quantize m (mkDecimal false 1 (-3)) ROUND_DOWN = Ok q ->
  d_exp q = (-3)%Z /\ (to_Q q == floor3 (to_Q m))%Q.
Proof.
  intros H. apply dec_quantize_down3 in H. subst q.
  split; [reflexivity |].
  destruct m as [[|] c e]; cbn [d_sign].
  - change (mkDecimal true (int_part (shift3 (mkDecimal true c e))) (-3))
      with (copy_negate
              (mkDecimal false (int_part (shift3 (mkDecimal false c e))) (-3))).
    change (mkDecimal true c e) with (copy_negate (mkDecimal false c e)).
    rewrite to_Q_copy_negate.
    rewrite (floor3_comp _ _ (to_Q_copy_negate (mkDecimal false c e))).
    rewrite floor3_opp. apply Qopp_comp.
    rewrite <- to_Q_floor3_decimal.
    now rewrite (floor3_decimal_to_Q (mkDecimal false c e)).
  - rewrite <- to_Q_floor3_decimal.
    now rewrite (floor3_decimal_to_Q (mkDecimal false c e)).
Qed.

(** X5. Whatever the order and the ratio, every order [scale_orders] returns
    has its original size as [abs] of the size field gives it, a scaled
    size with exactly three decimal places that is the product
    [original_size * ratio], as the context computes it, truncated
    toward zero (so less than 0.001 nearer to zero than the product),
    and as notional the context's product of scaled size and price. *)
Theorem scale_orders_truncates (ratio : Decimal) (order : Order)
    (so : ScaledOrder) :
  scale_orders [order] ratio = Ok [so] ->
  dec_abs (decimal_or_0 (ord_sz order)) = Ok (original_size so) /\
  dec_mul (scaled_size so) (price so) = Ok (notional so) /\
  d_exp (scaled_size so) = (-3)%Z /\
  exists product,
    dec_mul (original_size so) ratio = Ok product /\
    (to_Q (scaled_size so) == floor3 (to_Q product))%Q /\
    (Qabs (to_Q (scaled_size so)) <= Qabs (to_Q product))%Q /\
    (Qabs (to_Q product) < Qabs (to_Q (scaled_size so)) + (1 # 1000))%Q.
Proof.
  intros Hso. apply scale_orders_single_ok in Hso. unfold scale_order in Hso.
  destruct (dec_abs _) as [size |]; [| discriminate]. cbn [exc_bind] in Hso.
  destruct (dec_mul size ratio) as [product |] eqn:Hp; [| discriminate].
  cbn [exc_bind] in Hso.
  destruct (dec_quantize _ _ _) as [scaled |] eqn:Hq; [| discriminate].
  cbn [exc_bind] in Hso.
  destruct (dec_mul scaled _) as [total |] eqn:Hn; [| discriminate].
  cbn [exc_bind] in Hso. injection Hso as <-.
  cbn [original_size scaled_size price notional].
  destruct (to_Q_quantize_down3 _ _ Hq) as [Hexp Hval].
  split; [reflexivity |]. split; [exact Hn |]. split; [exact Hexp |].
  exists product. split; [exact Hp |]. split; [exact Hval |].
  rewrite Hval, floor3_abs.
  split.
  - apply floor3_bounds, Qabs_nonneg.
  - apply floor3_close, Qabs_nonneg.
Qed.

Lemma scale_orders_truncates_witness :
  exists so,
    scale_orders [order_3_3] one_third = Ok [so] /\
    d_exp (scaled_size so) = (-3)%Z /\
    exists product,
      dec_mul (original_size so) one_third = Ok product /\
      (to_Q (scaled_size so) == floor3 (to_Q product))%Q.
Proof.
  eexists. split; [vm_compute; reflexivity |].
  match goal with
  | |- context [scaled_size ?so] =>
      destruct (scale_orders_truncates one_third order_3_3 so)
        as (_ & _ & Hexp & product & Hp & Hval & _);
        [vm_compute; reflexivity |]
  end.
  split; [exact Hexp |]. exists product. now split.
Defined.

Lemma Qtrunc_Z (z : Z) : Qtrunc (inject_Z z) = z.
Proof.
  unfold Qtrunc. destruct (Qle_bool 0 (inject_Z z));
    [apply Qfloor_Z | apply Qceiling_Z].
Qed.

(** A number with at most three decimal places is its own truncation. *)
Lemma floor3_three_decimals (d : Decimal) :
  (-3 <= d_exp d)%Z -> (floor3 (to_Q d) == to_Q d)%Q.
Proof.
  intros He. unfold floor3.
  assert (H : (to_Q d * inject_Z 1000 ==
               inject_Z (signed_int d * 10 ^ (d_exp d + 3)))%Q).
  { rewrite to_Q_shift3. unfold to_Q; cbn [d_exp].
    destruct (Z.leb_spec 0 (d_exp d + 3)); [reflexivity | lia]. }
  rewrite (Qtrunc_comp _ _ H), Qtrunc_Z, <- H. field.
Qed.

(** X6. Scaling by one changes nothing that is already scaled: with a ratio
    of value 1, an order whose size has at most three decimal places
    keeps the value of its size, provided the product of size and ratio
    needs no rounding (it has at most 28 digits). *)
Theorem scale_orders_unit_ratio (ratio : Decimal) (order : Order)
    (so : ScaledOrder) :
  scale_orders [order] ratio = Ok [so] ->
  (to_Q ratio == 1)%Q ->
  (-3 <= d_exp (original_size so))%Z ->
  fits (raw_mul (original_size so) ratio) ->
  (to_Q (scaled_size so) == to_Q (original_size so))%Q.
Proof.
  intros Hso Hone Hexp Hfits.
  apply scale_orders_single_ok in Hso. unfold scale_order in Hso.
  destruct (dec_abs _) as [size |]; [| discriminate]. cbn [exc_bind] in Hso.
  destruct (dec_mul size ratio) as [product |] eqn:Hp; [| discriminate].
  cbn [exc_bind] in Hso.
  destruct (dec_quantize _ _ _) as [scaled |] eqn:Hq; [| discriminate].
  cbn [exc_bind] in Hso.
  destruct (dec_mul scaled _) as [total |]; [| discriminate].
  cbn [exc_bind] in Hso. injection Hso as <-.
  cbn [original_size scaled_size] in *.
  destruct (to_Q_quantize_down3 _ _ Hq) as [_ Hval].
  unfold dec_mul in Hp. rewrite Hfits in Hp. injection Hp as <-.
  assert (Hsame : (to_Q (raw_mul size ratio) == to_Q size)%Q).
  { rewrite to_Q_raw_mul, Hone. ring. }
  rewrite Hval, (floor3_comp _ _ Hsame).
  now apply floor3_three_decimals.
Qed.

Lemma scale_orders_unit_ratio_witness :
  exists so,
    scale_orders [order_3_3] (mkDecimal false 10 (-1)) = Ok [so] /\
    (to_Q (mkDecimal false 10 (-1)) == 1)%Q /\
    (to_Q (scaled_size so) == to_Q (original_size so))%Q.
Proof.
  eexists. split; [vm_compute; reflexivity |].
  assert (Hone : (to_Q (mkDecimal false 10 (-1)) == 1)%Q)
    by (vm_compute; reflexivity).
  split; [exact Hone |].
  match goal with
  | |- context [scaled_size ?so] =>
      apply (scale_orders_unit_ratio (mkDecimal false 10 (-1)) order_3_3 so);
        [vm_compute; reflexivity | exact Hone | vm_compute; discriminate
        | vm_compute; reflexivity]
  end.
Defined.

(* ================================================================== *)
(** ** 21. Comparison of decimal numbers                               *)
(* ================================================================== *)

(** Of two non-zero coefficients the one with the larger adjusted
    exponent is the larger, counted at a common exponent. *)
Lemma adjusted_lt_padded (a b : Decimal) (e : Z) :
  (e <= d_exp a)%Z -> (e <= d_exp b)%Z -> d_int a <> 0%N ->
  (adjusted b < adjusted a)%Z ->
  (d_int b * pow10 (d_exp b - e) < d_int a * pow10 (d_exp a - e))%N.
Proof.
  intros Hea Heb Ha Hadj. unfold adjusted in Hadj.
  destruct (ndigits_bounds (d_int a)) as (Hla & _ & Hlow).
  specialize (Hlow Ha).
  destruct (ndigits_bounds (d_int b)) as (Hlb & Hup & _).
  set (la := ndigits (d_int a)) in *. set (lb := ndigits (d_int b)) in *.
  pose proof (pow10_pos (d_exp b - e)) as Hpb.
  pose proof (pow10_pos (d_exp a - e)) as Hpa.
  assert (H1 : (pow10 (lb + (d_exp b - e)) <=
                pow10 ((la - 1) + (d_exp a - e)))%N)
    by (apply pow10_le_mono; lia).
  rewrite !pow10_add in H1 by lia.
  apply N.lt_le_trans with (pow10 lb * pow10 (d_exp b - e))%N.
  - now apply N.mul_lt_mono_pos_r.
  - eapply N.le_trans; [exact H1 |]. now apply N.mul_le_mono_r.
Qed.

(** [dec_cmp] compares the coefficients counted at the smaller of the two
    exponents. *)
Lemma dec_cmp_signed_at (a b : Decimal) :
  let e := Z.min (d_exp a) (d_exp b) in
  dec_cmp a b =
  match (signed_at a e ?= signed_at b e)%Z with
  | Lt => (-1)%Z
  | Eq => 0%Z
  | Gt => 1%Z
  end.
Proof.
  intros e. unfold dec_cmp, signed_at, sgn, is_zero.
  pose proof (pow10_pos (d_exp a - e)) as Hpa.
  pose proof (pow10_pos (d_exp b - e)) as Hpb.
  set (A := (d_int a * pow10 (d_exp a - e))%N).
  set (B := (d_int b * pow10 (d_exp b - e))%N).
  destruct (N.eqb_spec (d_int a) 0) as [Ha | Ha];
    destruct (N.eqb_spec (d_int b) 0) as [Hb | Hb].
  - assert (A = 0%N) by (unfold A; rewrite Ha; apply N.mul_0_l).
    assert (B = 0%N) by (unfold B; rewrite Hb; apply N.mul_0_l).
    replace A with 0%N; replace B with 0%N.
    now destruct (d_sign a), (d_sign b).
  - assert (HA : A = 0%N) by (unfold A; rewrite Ha; apply N.mul_0_l).
    assert (HB : (0 < B)%N) by (unfold B; lia).
    rewrite HA.
    destruct (d_sign a), (d_sign b); cbn [Z.opp Z.of_N];
      match goal with
      | |- context [(?x ?= ?y)%Z] => destruct (Z.compare_spec x y)
      end; lia.
  - assert (HB : B = 0%N) by (unfold B; rewrite Hb; apply N.mul_0_l).
    assert (HA : (0 < A)%N) by (unfold A; lia).
    rewrite HB.
    destruct (d_sign a), (d_sign b); cbn [Z.opp Z.of_N];
      match goal with
      | |- context [(?x ?= ?y)%Z] => destruct (Z.compare_spec x y)
      end; lia.
  - assert (HA : (0 < A)%N) by (unfold A; lia).
    assert (HB : (0 < B)%N) by (unfold B; lia).
    assert (Hmag :
      if (adjusted a =? adjusted b)%Z then
        ((d_int a * pow10 (d_exp a - d_exp b) ?=
          d_int b * pow10 (d_exp b - d_exp a))%N = (A ?= B)%N)
      else if (adjusted b <? adjusted a)%Z then (B < A)%N else (A < B)%N).
    { destruct (Z.eqb_spec (adjusted a) (adjusted b)) as [Heq | Hne].
      - unfold A, B, e.
        destruct (Z.le_ge_cases (d_exp a) (d_exp b)) as [Hle | Hle].
        + rewrite Z.min_l by assumption.
          rewrite (pow10_nonpos (d_exp a - d_exp b)) by lia.
          now rewrite Z.sub_diag.
        + rewrite Z.min_r by lia.
          rewrite (pow10_nonpos (d_exp b - d_exp a)) by lia.
          now rewrite Z.sub_diag.
      - destruct (Z.ltb_spec (adjusted b) (adjusted a)) as [Hlt | Hge].
        + apply adjusted_lt_padded; unfold e; try lia; assumption.
        + apply adjusted_lt_padded; unfold e; try lia; assumption. }
    destruct (adjusted a =? adjusted b)%Z.
    + rewrite N.eqb_compare, N.ltb_compare, Hmag.
      destruct (N.compare_spec A B) as [Heq | Hlt | Hgt];
        destruct (d_sign a), (d_sign b); cbn [andb negb];
        match goal with
        | |- context [(?x ?= ?y)%Z] => destruct (Z.compare_spec x y)
        end; lia.
    + destruct (adjusted b <? adjusted a)%Z;
        destruct (d_sign a), (d_sign b); cbn [andb negb];
        match goal with
        | |- context [(?x ?= ?y)%Z] => destruct (Z.compare_spec x y)
        end; lia.
Qed.

Lemma signed_at_compare (a b : Decimal) (e : Z) :
  (e <= d_exp a)%Z -> (e <= d_exp b)%Z ->
  (signed_at a e ?= signed_at b e)%Z = (to_Q a ?= to_Q b)%Q.
Proof.
  intros Ha Hb.
  assert (Hp : (0 < inject_Z 10 ^ e)%Q).
  { apply Qpower_0_lt. reflexivity. }
  rewrite (Qcompare_comp _ _ (Qeq_sym _ _ (to_Q_signed_at a e Ha))
                         _ _ (Qeq_sym _ _ (to_Q_signed_at b e Hb))).
  destruct (Z.compare_spec (signed_at a e) (signed_at b e)) as [H | H | H];
    symmetry.
  - apply Qeq_alt. now rewrite H.
  - apply Qlt_alt. apply Qmult_lt_compat_r; [exact Hp |].
    now rewrite <- Zlt_Qlt.
  - apply Qgt_alt. apply Qmult_lt_compat_r; [exact Hp |].
    now rewrite <- Zlt_Qlt.
Qed.

(** The comparison of two decimal numbers is the comparison of the
    numbers they denote. *)
Lemma dec_cmp_to_Q (a b : Decimal) :
  dec_cmp a b =
  match (to_Q a ?= to_Q b)%Q with
  | Lt => (-1)%Z
  | Eq => 0%Z
  | Gt => 1%Z
  end.
Proof.
  rewrite dec_cmp_signed_at. cbv zeta.
  rewrite signed_at_compare by lia. reflexivity.
Qed.

Lemma dec_lt_Q (a b : Decimal) : dec_lt a b = true <-> (to_Q a < to_Q b)%Q.
Proof.
  unfold dec_lt. rewrite dec_cmp_to_Q, Qlt_alt.
  destruct (to_Q a ?= to_Q b)%Q; cbn; split; congruence.
Qed.

Lemma dec_lt_false_Q (a b : Decimal) :
  dec_lt a b = false <-> (to_Q b <= to_Q a)%Q.
Proof.
  rewrite <- not_true_iff_false, dec_lt_Q. split.
  - apply Qnot_lt_le.
  - apply Qle_not_lt.
Qed.

Lemma dec_gt_Q (a b : Decimal) : dec_gt a b = true <-> (to_Q b < to_Q a)%Q.
Proof.
  unfold dec_gt. rewrite dec_cmp_to_Q, (Qgt_alt (to_Q a) (to_Q b)).
  destruct (to_Q a ?= to_Q b)%Q; cbn; split; congruence.
Qed.

Lemma dec_eq_Q (a b : Decimal) : dec_eq a b = true <-> (to_Q a == to_Q b)%Q.
Proof.
  unfold dec_eq. rewrite dec_cmp_to_Q, Qeq_alt.
  destruct (to_Q a ?= to_Q b)%Q; cbn; split; congruence.
Qed.

(* ================================================================== *)
(** ** 22. The table of scaled orders                                  *)
(* ================================================================== *)

Lemma insert_by_price_perm (x : ScaledOrder) (l : list ScaledOrder) :
  Permutation (x :: l) (insert_by_price x l).
Proof.
  induction l as [| y l IH]; cbn [insert_by_price]; [reflexivity |].
  destruct (dec_lt (price y) (price x)); [reflexivity |].
  rewrite perm_swap. now apply perm_skip.
Qed.

Lemma insert_by_price_sorted (x : ScaledOrder) (l : list ScaledOrder) :
  StronglySorted not_below l -> StronglySorted not_below (insert_by_price x l).
Proof.
  induction l as [| y l IH]; intros Hs; cbn [insert_by_price].
  - constructor; constructor.
  - inversion Hs as [| ? ? Hl Hy]; subst.
    destruct (dec_lt (price y) (price x)) eqn:Hlt.
    + apply dec_lt_Q in Hlt. constructor; [exact Hs |].
      constructor; [now apply Qlt_le_weak |].
      apply Forall_forall. intros z Hz.
      rewrite Forall_forall in Hy. specialize (Hy z Hz).
      unfold not_below in *. apply Qlt_le_weak.
      now apply Qle_lt_trans with (to_Q (price y)).
    + apply dec_lt_false_Q in Hlt. constructor; [now apply IH |].
      apply (Permutation_Forall (insert_by_price_perm x l)).
      constructor; assumption.
Qed.

Lemma filter_none {A} (f : A -> bool) (l : list A) :
  (forall z, In z l -> f z = false) -> filter f l = [].
Proof.
  induction l as [| x l IH]; intros H; cbn [filter]; [reflexivity |].
  rewrite (H x (or_introl eq_refl)). apply IH.
  intros z Hz. apply H. now right.
Qed.

Lemma insert_by_price_filter (p : Decimal) (x : ScaledOrder)
    (l : list ScaledOrder) :
  StronglySorted not_below l ->
  filter (same_price p) (insert_by_price x l) =
  (filter (same_price p) l ++ filter (same_price p) [x])%list.
Proof.
  induction l as [| y l IH]; intros Hs; cbn [insert_by_price];
    [reflexivity |].
  inversion Hs as [| ? ? Hl Hy]; subst.
  destruct (dec_lt (price y) (price x)) eqn:Hlt.
  - cbn [filter]. destruct (same_price p x) eqn:Hx;
      [| now rewrite app_nil_r].
    (* nothing from [y] on has the price of [x] *)
    apply dec_lt_Q in Hlt. apply dec_eq_Q in Hx.
    assert (Hnone : filter (same_price p) (y :: l) = []).
    { apply filter_none. intros z Hz.
      destruct (same_price p z) eqn:Hzp; [exfalso | reflexivity].
      apply dec_eq_Q in Hzp.
      assert (Hzy : (to_Q (price z) <= to_Q (price y))%Q).
      { destruct Hz as [<- | Hz]; [apply Qle_refl |].
        rewrite Forall_forall in Hy. exact (Hy z Hz). }
      rewrite Hzp, <- Hx in Hzy.
      exact (Qlt_not_le _ _ Hlt Hzy). }
    change (filter (same_price p) (y :: l)) with
      (if same_price p y then y :: filter (same_price p) l
       else filter (same_price p) l) in Hnone.
    now rewrite Hnone.
  - cbn [filter]. rewrite (IH Hl).
    now destruct (same_price p y).
Qed.

Lemma sorted_by_price_desc_acc (l : list ScaledOrder) :
  forall acc, StronglySorted not_below acc ->
  let sorted := fold_left (fun acc x => insert_by_price x acc) l acc in
  Permutation (acc ++ l) sorted /\
  StronglySorted not_below sorted /\
  forall p, filter (same_price p) sorted =
            (filter (same_price p) acc ++ filter (same_price p) l)%list.
Proof.
  induction l as [| x l IH]; intros acc Hacc; cbn [fold_left].
  - rewrite app_nil_r. split; [reflexivity |]. split; [exact Hacc |].
    intros p. now rewrite app_nil_r.
  - destruct (IH (insert_by_price x acc) (insert_by_price_sorted x acc Hacc))
      as (Hperm & Hsorted & Hfilter).
    split; [| split; [exact Hsorted |]].
    + rewrite <- Hperm. rewrite <- Permutation_middle.
      apply (Permutation_app_tail l (insert_by_price_perm x acc)).
    + intros p. rewrite Hfilter, (insert_by_price_filter p x acc Hacc).
      rewrite <- app_assoc. cbn [filter].
      now destruct (same_price p x).
Qed.

Lemma order_rows_nth (l : list ScaledOrder) : forall start i o,
  nth_error l i = Some o ->
  nth_error (order_rows start l) i = Some (order_row (start + i) o).
Proof.
  induction l as [| x l IH]; intros start [| i] o H; try discriminate H.
  - injection H as ->. now rewrite Nat.add_0_r.
  - cbn [order_rows nth_error]. rewrite (IH (S start) i o H).
    now rewrite Nat.add_succ_r.
Qed.

Lemma order_rows_length (l : list ScaledOrder) : forall start,
  List.length (order_rows start l) = List.length l.
Proof.
  induction l as [| x l IH]; intros start; cbn [order_rows List.length];
    [reflexivity | now rewrite IH].
Qed.

(** X7. [print_scaled_orders] prints the three header lines and then one row
    per order and nothing else, and returns.  The rows follow a
    rearrangement of the orders in which no order stands before one with
    a higher price, and in which orders of equal price keep the order
    they came in; row [i] (from 0) is the row of the [i]-th order of that
    arrangement. *)
Theorem print_scaled_orders_sorted (scaled_orders : list ScaledOrder) :
  exists sorted_orders,
    print_scaled_orders scaled_orders =
      ((table_header ++ order_rows 0 sorted_orders)%list, Done tt) /\
    Permutation scaled_orders sorted_orders /\
    StronglySorted not_below sorted_orders /\
    (forall p, filter (same_price p) sorted_orders =
               filter (same_price p) scaled_orders) /\
    List.length (fst (print_scaled_orders scaled_orders)) =
      (3 + List.length scaled_orders)%nat /\
    (forall i o,
       nth_error sorted_orders i = Some o ->
       nth_error (fst (print_scaled_orders scaled_orders)) (3 + i) =
       Some (order_row i o)).
Proof.
  exists (sorted_by_price_desc scaled_orders).
  destruct (sorted_by_price_desc_acc scaled_orders [] (SSorted_nil _))
    as (Hperm & Hsorted & Hfilter).
  fold (sorted_by_price_desc scaled_orders) in Hperm, Hsorted, Hfilter.
  split; [reflexivity |]. split; [exact Hperm |]. split; [exact Hsorted |].
  split; [exact Hfilter |]. split.
  - unfold print_scaled_orders. cbn [fst].
    rewrite length_app, order_rows_length.
    now rewrite <- (Permutation_length Hperm).
  - intros i o H. unfold print_scaled_orders. cbn [fst].
    change (3 + i)%nat with (List.length table_header + i)%nat.
    rewrite nth_error_app2 by lia.
    replace (List.length table_header + i - List.length table_header)%nat
      with i by lia.
    exact (order_rows_nth _ 0 i o H).
Qed.

(* ================================================================== *)
(** ** 23. The sell-fill projection                                    *)
(* ================================================================== *)

Lemma signed_at_not_negative (d : Decimal) (e : Z) :
  dec_lt d dec_zero = false -> (0 <= signed_at d e)%Z.
Proof.
  rewrite dec_lt_zero. unfold signed_at, is_zero.
  destruct (N.eqb_spec (d_int d) 0) as [-> | Hnz], (d_sign d);
    cbn [negb andb]; intros H; try discriminate H; cbn; lia.
Qed.

(** A difference below zero of a number that is not: what was taken away
    is positive. *)
Lemma dec_sub_lt_zero (a b s : Decimal) :
  dec_sub a b = Ok s ->
  dec_lt s dec_zero = true ->
  dec_lt a dec_zero = false ->
  dec_gt b dec_zero = true.
Proof.
  intros Hsub Hs Ha. unfold dec_sub, dec_add in Hsub.
  destruct (dec_fix_sign _ _ Hsub) as (Hsign & Hzero).
  rewrite dec_lt_zero in Hs. apply andb_true_iff in Hs.
  destruct Hs as (Hnz & Hneg). apply negb_true_iff in Hnz.
  rewrite Hsign in Hneg.
  assert (Hraw : is_zero (raw_add a (copy_negate b)) = false).
  { destruct (is_zero (raw_add a (copy_negate b))); [| reflexivity].
    rewrite Hzero in Hnz by reflexivity. discriminate. }
  unfold raw_add in Hneg, Hraw. cbn [d_sign] in Hneg.
  unfold is_zero in Hraw. cbn [d_int] in Hraw.
  change (d_exp (copy_negate b)) with (d_exp b) in *.
  set (e := Z.min (d_exp a) (d_exp b)) in *.
  pose proof (signed_at_not_negative a e Ha) as Hage.
  destruct (Z.eqb_spec (signed_at a e + signed_at (copy_negate b) e) 0)
    as [H0 | H0].
  - rewrite H0 in Hraw. discriminate Hraw.
  - apply Z.ltb_lt in Hneg.
    assert (Hb : (signed_at (copy_negate b) e < 0)%Z) by lia.
    rewrite dec_gt_zero. unfold signed_at, copy_negate, is_zero in *.
    cbn [d_sign d_int d_exp] in Hb.
    destruct (d_sign b), (N.eqb_spec (d_int b) 0) as [Hb0 | Hb0];
      try reflexivity; try rewrite Hb0 in Hb; cbn in Hb; lia.
Qed.

Lemma Qle_0_not_lt (d : Decimal) :
  (0 <= to_Q d)%Q -> dec_lt d dec_zero = false.
Proof.
  intros H. destruct (dec_lt d dec_zero) eqn:Hl; [| reflexivity].
  apply dec_lt_zero_Q in Hl. now apply Qle_not_lt in H.
Qed.

Section ShortSummary.

Variables (scaled_orders : list ScaledOrder).
Variables (current_position_size current_entry_price ratio : Decimal).
Variables (scaled_current_size total_sell_size total_sell_value net_position
           : Decimal).

Hypothesis some_sell_order : sell_orders scaled_orders <> [].
Hypothesis Hscaled :
  dec_mul current_position_size ratio = Ok scaled_current_size.
Hypothesis Hsize : sum_sizes (sell_orders scaled_orders) = Ok total_sell_size.
Hypothesis Hvalue :
  sum_costs (sell_orders scaled_orders) = Ok total_sell_value.
Hypothesis Hnet :
  dec_sub scaled_current_size total_sell_size = Ok net_position.

Let summary : Run unit :=
  print_short_summary scaled_orders current_position_size current_entry_price
                      ratio.

Ltac open_summary :=
  unfold summary, print_short_summary; fold (sell_orders scaled_orders);
  destruct (sell_orders scaled_orders) as [| o rest] eqn:Hsell;
  [ now elim some_sell_order | ];
  rewrite Hsize, Hvalue, Hscaled; run_steps; rewrite Hnet; run_steps.

(** No short position results: no average entry. *)
Lemma short_summary_not_short :
  dec_lt net_position dec_zero = false ->
  summary = (short_summary scaled_current_size total_sell_size net_position
                           None total_sell_value, Done tt).
Proof. intros Hn. open_summary. rewrite Hn. reflexivity. Qed.

(** Already short: the existing value is blended in. *)
Lemma short_summary_adds_to_short (size current_value total net average
    : Decimal) :
  dec_lt net_position dec_zero = true ->
  dec_lt scaled_current_size dec_zero = true ->
  dec_abs scaled_current_size = Ok size ->
  dec_mul size current_entry_price = Ok current_value ->
  dec_add current_value total_sell_value = Ok total ->
  dec_abs net_position = Ok net ->
  dec_div total net = Ok average ->
  summary = (short_summary scaled_current_size total_sell_size net_position
                           (Some average) total_sell_value, Done tt).
Proof.
  intros Hn Hs H1 H2 H3 H4 H5. open_summary.
  rewrite Hn, Hs, H1. run_steps. rewrite H2. run_steps. rewrite H3.
  run_steps. rewrite H4. run_steps. rewrite H5. reflexivity.
Qed.

(** Was long or flat: the average entry comes from the sells alone. *)
Lemma short_summary_from_long (average : Decimal) :
  dec_lt net_position dec_zero = true ->
  dec_lt scaled_current_size dec_zero = false ->
  dec_div total_sell_value total_sell_size = Ok average ->
  summary = (short_summary scaled_current_size total_sell_size net_position
                           (Some average) total_sell_value, Done tt).
Proof.
  intros Hn Hs H1.
  pose proof (dec_sub_lt_zero _ _ _ Hnet Hn Hs) as Hb.
  open_summary. rewrite Hn, Hs, Hb, H1. reflexivity.
Qed.

End ShortSummary.

Lemma in_sell_orders (scaled_orders : list ScaledOrder) (o : ScaledOrder) :
  In o (sell_orders scaled_orders) <->
  In o scaled_orders /\ str_upper (side o) = "A".
Proof.
  unfold sell_orders, is_side. rewrite filter_In, String.eqb_eq. reflexivity.
Qed.

(** X8. The sell-fill summary, for scaled orders with at least one sell
    order (an order is a sell order when its side, in capitals, is "A"),
    a signed position size [c], an entry price [e] and a ratio [r].
    With [scaled_current_size = c * r], [total_sell_size] the sum over
    the sell orders of [scaled_size], [total_sell_value] the sum over the
    sell orders of [scaled_size * price], and
    [net_position = scaled_current_size - total_sell_size], all in the
    arithmetic of the script (and exact whenever the exact results fit
    the context), the summary is exactly [short_summary]:
    without an average entry when [net_position >= 0]; with
    [(abs(scaled_current_size) * e + total_sell_value) / abs(net_position)]
    when the position is short already; and otherwise, when the sells
    turn a long or flat position short, with
    [total_sell_value / total_sell_size], where [total_sell_size > 0]
    and the entry price plays no part. *)
Theorem sell_fill_projection (scaled_orders : list ScaledOrder)
    (c e r scaled_current_size total_sell_size total_sell_value net_position
     : Decimal) (values : list Decimal) :
  sell_orders scaled_orders <> [] ->
  dec_mul c r = Ok scaled_current_size ->
  sum_is (sizes_of (sell_orders scaled_orders)) total_sell_size ->
  costs_are (sell_orders scaled_orders) values ->
  sum_is values total_sell_value ->
  dec_sub scaled_current_size total_sell_size = Ok net_position ->
  (forall o, In o (sell_orders scaled_orders) <->
             In o scaled_orders /\ str_upper (side o) = "A") /\
  (adds_exactly dec_zero (sizes_of (sell_orders scaled_orders)) ->
   (to_Q total_sell_size ==
    Qsum (map (fun o => to_Q (scaled_size o))
              (sell_orders scaled_orders)))%Q) /\
  (Forall (fun o => fits (raw_mul (scaled_size o) (price o)))
          (sell_orders scaled_orders) ->
   adds_exactly dec_zero values ->
   (to_Q total_sell_value ==
    Qsum (map exact_cost (sell_orders scaled_orders)))%Q) /\
  (fits (raw_add scaled_current_size (copy_negate total_sell_size)) ->
   (to_Q net_position == to_Q scaled_current_size - to_Q total_sell_size)%Q) /\
  ((0 <= to_Q net_position)%Q ->
   print_short_summary scaled_orders c e r =
   (short_summary scaled_current_size total_sell_size net_position None
                  total_sell_value, Done tt)) /\
  ((to_Q net_position < 0)%Q -> (to_Q scaled_current_size < 0)%Q ->
   forall size current_value total net average,
     dec_abs scaled_current_size = Ok size ->
     dec_mul size e = Ok current_value ->
     dec_add current_value total_sell_value = Ok total ->
     dec_abs net_position = Ok net ->
     dec_div total net = Ok average ->
     print_short_summary scaled_orders c e r =
     (short_summary scaled_current_size total_sell_size net_position
                    (Some average) total_sell_value, Done tt)) /\
  ((to_Q net_position < 0)%Q -> (0 <= to_Q scaled_current_size)%Q ->
   (0 < to_Q total_sell_size)%Q /\
   forall average,
     dec_div total_sell_value total_sell_size = Ok average ->
     forall e',
       print_short_summary scaled_orders c e' r =
       (short_summary scaled_current_size total_sell_size net_position
                      (Some average) total_sell_value, Done tt)).
Proof.
  intros Hsell Hscs Hsizes Hvalues Htotal Hnet.
  pose proof (sum_is_sum_sizes _ _ Hsizes) as Hsize.
  pose proof (sum_is_sum_costs _ _ _ Hvalues Htotal) as Hvalue.
  split; [| split; [| split; [| split; [| split; [| split]]]]].
  - intros o. apply in_sell_orders.
  - intros He. rewrite (sum_is_exact _ _ Hsizes He).
    unfold sizes_of. now rewrite map_map.
  - intros Hf He. rewrite (sum_is_exact _ _ Htotal He).
    now apply costs_exact.
  - intros Hf. unfold dec_sub in Hnet.
    rewrite (dec_add_exact _ _ _ Hf Hnet), to_Q_copy_negate. ring.
  - intros Hn. apply Qle_0_not_lt in Hn.
    now apply short_summary_not_short.
  - intros Hn Hs size current_value total net average H1 H2 H3 H4 H5.
    apply dec_lt_zero_Q in Hn, Hs.
    now apply short_summary_adds_to_short with size current_value total net.
  - intros Hn Hs. apply dec_lt_zero_Q in Hn. apply Qle_0_not_lt in Hs.
    split.
    + apply dec_gt_zero_Q. now apply dec_sub_lt_zero with (1 := Hnet).
    + intros average H1 e'. now apply short_summary_from_long.
Qed.

Lemma sell_fill_projection_witness :
  let c := mkDecimal false 2 (-1) in
  let e := mkDecimal false 48000 0 in
  let r := mkDecimal false 1 0 in
  let scs := mkDecimal false 2 (-1) in
  let tss := mkDecimal false 750 (-3) in
  let values :=
    [mkDecimal false 25000000 (-3); mkDecimal false 13000000 (-3)] in
  let value := mkDecimal false 38000000 (-3) in
  let net := mkDecimal true 550 (-3) in
  let average := mkDecimal false 5066666666666666666666666667 (-23) in
  sell_orders two_sells_and_a_buy <> [] /\
  dec_mul c r = Ok scs /\
  sum_is (sizes_of (sell_orders two_sells_and_a_buy)) tss /\
  costs_are (sell_orders two_sells_and_a_buy) values /\
  sum_is values value /\
  dec_sub scs tss = Ok net /\
  (to_Q net < 0)%Q /\ (0 <= to_Q scs)%Q /\
  dec_div value tss = Ok average /\
  (to_Q tss ==
   Qsum (map (fun o => to_Q (scaled_size o))
             (sell_orders two_sells_and_a_buy)))%Q /\
  print_short_summary two_sells_and_a_buy c e r =
  (short_summary scs tss net (Some average) value, Done tt).
Proof.
  cbv zeta.
  assert (H0 : sell_orders two_sells_and_a_buy <> []) by discriminate.
  assert (H1 : dec_mul (mkDecimal false 2 (-1)) (mkDecimal false 1 0) =
               Ok (mkDecimal false 2 (-1))) by (vm_compute; reflexivity).
  assert (H2 : sum_is (sizes_of (sell_orders two_sells_and_a_buy))
                      (mkDecimal false 750 (-3))).
  { unfold sum_is.
    eapply adds_up_cons; [vm_compute; reflexivity |].
    eapply adds_up_cons; [vm_compute; reflexivity |].
    apply adds_up_nil. }
  assert (H3 : costs_are (sell_orders two_sells_and_a_buy)
                 [mkDecimal false 25000000 (-3);
                  mkDecimal false 13000000 (-3)]).
  { unfold costs_are.
    constructor; [vm_compute; reflexivity |].
    constructor; [vm_compute; reflexivity |]. constructor. }
  assert (H4 : sum_is [mkDecimal false 25000000 (-3);
                       mkDecimal false 13000000 (-3)]
                      (mkDecimal false 38000000 (-3))).
  { unfold sum_is.
    eapply adds_up_cons; [vm_compute; reflexivity |].
    eapply adds_up_cons; [vm_compute; reflexivity |].
    apply adds_up_nil. }
  assert (H5 : dec_sub (mkDecimal false 2 (-1)) (mkDecimal false 750 (-3)) =
               Ok (mkDecimal true 550 (-3))) by (vm_compute; reflexivity).
  assert (H6 : (to_Q (mkDecimal true 550 (-3)) < 0)%Q)
    by (vm_compute; reflexivity).
  assert (H7 : (0 <= to_Q (mkDecimal false 2 (-1)))%Q)
    by (vm_compute; discriminate).
  assert (H8 : dec_div (mkDecimal false 38000000 (-3))
                       (mkDecimal false 750 (-3)) =
               Ok (mkDecimal false 5066666666666666666666666667 (-23)))
    by (vm_compute; reflexivity).
  destruct (sell_fill_projection two_sells_and_a_buy
              (mkDecimal false 2 (-1)) (mkDecimal false 48000 0)
              (mkDecimal false 1 0) (mkDecimal false 2 (-1))
              (mkDecimal false 750 (-3)) (mkDecimal false 38000000 (-3))
              (mkDecimal true 550 (-3))
              [mkDecimal false 25000000 (-3); mkDecimal false 13000000 (-3)]
              H0 H1 H2 H3 H4 H5)
    as (_ & Hsum & _ & _ & _ & _ & Hshort).
  repeat (split; [assumption |]).
  split.
  - apply Hsum. repeat split; vm_compute; reflexivity.
  - destruct (Hshort H6 H7) as (_ & Havg).
    exact (Havg _ H8 (mkDecimal false 48000 0)).
Defined.

(* ================================================================== *)
(** ** 24. Sides, and the totals of the summaries                      *)
(* ================================================================== *)

Lemma is_side_false (letter : string) (o : ScaledOrder) :
  str_upper (side o) <> letter -> is_side letter o = false.
Proof. intros H. unfold is_side. now apply String.eqb_neq. Qed.

Lemma filter_skip {A} (f : A -> bool) (before after : list A) (x : A) :
  f x = false ->
  filter f (before ++ x :: after) = filter f (before ++ after).
Proof.
  intros H. rewrite !filter_app. cbn [filter]. now rewrite H.
Qed.

(** X9. An order whose side is neither "B" nor "A" in any letter case (the
    empty side of an order without the field, for one) is listed in the
    table as SELL, in red, and is counted by neither summary: both print
    what they print without it. *)
Theorem other_side_listed_not_counted (so : ScaledOrder)
    (before after : list ScaledOrder) (c e r : Decimal) :
  str_upper (side so) <> "B" ->
  str_upper (side so) <> "A" ->
  (forall i, firstn 2 (order_row i so) = [Str RED; StrF "<6" "SELL"]) /\
  print_long_summary (before ++ so :: after) c e r =
    print_long_summary (before ++ after) c e r /\
  print_short_summary (before ++ so :: after) c e r =
    print_short_summary (before ++ after) c e r.
Proof.
  intros HB HA.
  apply is_side_false in HB, HA.
  split; [| split].
  - intros i. unfold order_row. now rewrite HB.
  - unfold print_long_summary. now rewrite (filter_skip _ before after so HB).
  - unfold print_short_summary. now rewrite (filter_skip _ before after so HA).
Qed.

Lemma other_side_listed_not_counted_witness :
  str_upper (side unsided_order) <> "B" /\
  str_upper (side unsided_order) <> "A" /\
  firstn 2 (order_row 0 unsided_order) = [Str RED; StrF "<6" "SELL"] /\
  print_short_summary ([] ++ unsided_order :: sell_half_at_50000)
    (mkDecimal false 2 (-1)) (mkDecimal false 48000 0) (mkDecimal false 1 0) =
  print_short_summary ([] ++ sell_half_at_50000)
    (mkDecimal false 2 (-1)) (mkDecimal false 48000 0) (mkDecimal false 1 0).
Proof.
  assert (HB : str_upper (side unsided_order) <> "B") by discriminate.
  assert (HA : str_upper (side unsided_order) <> "A") by discriminate.
  split; [exact HB |]. split; [exact HA |].
  destruct (other_side_listed_not_counted unsided_order []
              sell_half_at_50000 (mkDecimal false 2 (-1))
              (mkDecimal false 48000 0) (mkDecimal false 1 0) HB HA)
    as (Hrow & _ & Hshort).
  split; [exact (Hrow 0%nat) | exact Hshort].
Defined.

Lemma scale_order_notional (ratio : Decimal) (order : Order)
    (so : ScaledOrder) :
  scale_order ratio order = Ok so ->
  dec_mul (scaled_size so) (price so) = Ok (notional so).
Proof.
  unfold scale_order.
  destruct (dec_abs _); [| discriminate]. cbn [exc_bind].
  destruct (dec_mul _ ratio); [| discriminate]. cbn [exc_bind].
  destruct (dec_quantize _ _ _); [| discriminate]. cbn [exc_bind].
  destruct (dec_mul _ _) eqn:Hn; [| discriminate]. cbn [exc_bind].
  intros [= <-]. exact Hn.
Qed.

Lemma sum_costs_notional (l : list ScaledOrder) :
  Forall (fun so => dec_mul (scaled_size so) (price so) = Ok (notional so)) l ->
  sum_costs l = dec_sum (map notional l).
Proof.
  unfold sum_costs, dec_sum. generalize (Ok dec_zero).
  induction l as [| so l IH]; intros acc H; cbn [fold_left map];
    [reflexivity |].
  inversion H as [| ? ? Hso Hl]; subst.
  rewrite (IH _ Hl). f_equal.
  destruct acc as [a |]; cbn [exc_bind]; [| reflexivity].
  now rewrite Hso.
Qed.

(** X10. On the orders that [scale_orders] returns, the total that a summary
    reports as capital required is the sum of the notionals shown in the
    table for the orders of its side, added in the same order. *)
Theorem capital_required_sums_notionals (orders : list Order)
    (ratio : Decimal) (scaled_orders : list ScaledOrder) :
  scale_orders orders ratio = Ok scaled_orders ->
  sum_costs (buy_orders scaled_orders) =
    dec_sum (map notional (buy_orders scaled_orders)) /\
  sum_costs (sell_orders scaled_orders) =
    dec_sum (map notional (sell_orders scaled_orders)).
Proof.
  intros H. apply scale_orders_ok_iff in H.
  assert (Hall : Forall (fun so => dec_mul (scaled_size so) (price so) =
                                   Ok (notional so)) scaled_orders).
  { induction H as [| order so l l' Hso _ IH]; constructor;
      [now apply scale_order_notional with ratio order | exact IH]. }
  split; apply sum_costs_notional; apply Forall_forall; intros so Hso;
    apply filter_In in Hso; destruct Hso as [Hso _];
    rewrite Forall_forall in Hall; now apply Hall.
Qed.

Lemma capital_required_sums_notionals_witness :
  exists scaled_orders,
    scale_orders [order_B; order_3_3] (mkDecimal false 2 0) =
      Ok scaled_orders /\
    sum_costs (buy_orders scaled_orders) =
      dec_sum (map notional (buy_orders scaled_orders)).
Proof.
  eexists. split; [vm_compute; reflexivity |].
  refine (proj1 (capital_required_sums_notionals [order_B; order_3_3]
                   (mkDecimal false 2 0) _ _)).
  vm_compute. reflexivity.
Defined.

(* ================================================================== *)
(** ** 25. More runs of [main]                                         *)
(* ================================================================== *)

Lemma direction_of_zero (position : Position) :
  (to_Q (decimal_or_0 (pos_szi position)) == 0)%Q ->
  determine_position_direction position = None.
Proof.
  intros H. apply to_Q_zero in H. unfold determine_position_direction.
  rewrite dec_gt_zero, dec_lt_zero.
  apply is_zero_true in H. now rewrite H.
Qed.

Lemma find_none_all {A} (f : A -> bool) (l : list A) :
  (forall y, In y l -> f y = false) -> find f l = None.
Proof.
  induction l as [| a l IH]; intros H; cbn [find]; [reflexivity |].
  rewrite (H a (or_introl eq_refl)). apply IH.
  intros y Hy. apply H. now right.
Qed.

(** X11. A run whose account holds no BTC position, and a run whose first BTC
    position has size zero (or no size), both requests answered and the
    activity line printed: each
    ends with [sys.exit(1)] right after its own error line, whichever
    direction and size the user entered and whatever the orders are. *)
Theorem main_without_position (w : World) (account_state : AccountState)
    (orders : list Order) :
  clearinghouseState w = Response account_state ->
  openOrders w = Response orders ->
  activity_reported w orders ->
  ((forall p, In p (positions_of account_state) ->
              pos_coin p <> Some "BTC") ->
   main w = ((preamble w orders ++ [no_btc_position_message])%list, Exit 1)) /\
  (forall btc_position,
     get_btc_position account_state = Some btc_position ->
     (to_Q (decimal_or_0 (pos_szi btc_position)) == 0)%Q ->
     main w =
     ((preamble w orders ++ [no_active_position_message])%list, Exit 1)).
Proof.
  intros Hacc Hord Hact. split.
  - intros Hnone.
    assert (Hpos : get_btc_position account_state = None).
    { unfold get_btc_position. fold (positions_of account_state).
      apply find_none_all. intros p Hp.
      destruct (is_BTC (pos_coin p)) eqn:Hb; [| reflexivity].
      apply is_BTC_iff in Hb. now elim (Hnone p Hp). }
    open_main. rewrite Hacc, Hord.
    destruct (position_choice w) as [dialogue1 user_direction].
    destruct (btc_size w) as [dialogue2 user_btc_size].
    cbn [fst snd] in *.
    destruct (userFills w) as [fills | msg]; run_steps;
      activity_line Hact; run_steps; rewrite Hpos;
      cbv beta iota zeta delta [no_btc_position_message]; same_output.
  - intros btc_position Hpos Hzero.
    pose proof (direction_of_zero btc_position Hzero) as Hdir.
    open_main. rewrite Hacc, Hord.
    destruct (position_choice w) as [dialogue1 user_direction].
    destruct (btc_size w) as [dialogue2 user_btc_size].
    cbn [fst snd] in *.
    destruct (userFills w) as [fills | msg]; run_steps;
      activity_line Hact; run_steps; rewrite Hpos, Hdir;
      cbv beta iota zeta delta [no_active_position_message]; same_output.
Qed.

Lemma main_without_position_witness :
  let w := mkWorld None ([], "long") ([], mkDecimal false 1 0)
             (Response empty_account) (Response [order_3_3]) (Response [])
             1700000200000000 utc in
  clearinghouseState w = Response empty_account /\
  openOrders w = Response [order_3_3] /\
  activity_reported w [order_3_3] /\
  (forall p, In p (positions_of empty_account) -> pos_coin p <> Some "BTC") /\
  main w =
  ((preamble w [order_3_3] ++ [no_btc_position_message])%list, Exit 1).
Proof.
  cbv zeta.
  assert (H : forall p, In p (positions_of empty_account) ->
                        pos_coin p <> Some "BTC") by (intros p []).
  assert (H3 : activity_reported
                 (mkWorld None ([], "long") ([], mkDecimal false 1 0)
                    (Response empty_account) (Response [order_3_3])
                    (Response []) 1700000200000000 utc) [order_3_3])
    by discriminate.
  split; [reflexivity |]. split; [reflexivity |]. split; [exact H3 |].
  split; [exact H |].
  exact (proj1 (main_without_position
                  (mkWorld None ([], "long") ([], mkDecimal false 1 0)
                     (Response empty_account) (Response [order_3_3])
                     (Response []) 1700000200000000 utc)
                  empty_account [order_3_3] eq_refl eq_refl H3) H).
Defined.

Lemma not_zero_dec_eq (d : Decimal) :
  ~ (to_Q d == 0)%Q -> dec_eq d dec_zero = false.
Proof.
  intros Hnz. destruct (dec_eq d dec_zero) eqn:H; [| reflexivity].
  now apply dec_eq_zero_Q in H.
Qed.

(** X12. A run that computes its ratio (both requests answered, the activity
    line printed, a BTC position of the declared direction and of
    non-zero size, at least one BTC order).  What it has printed up to the ratio report is followed by the
    table of the scaled orders, the buy-fill summary, the sell-fill
    summary and the three closing lines, in this order, and the run ends
    normally; both summaries are given the signed size of the position
    and its entry price.  An arithmetic signal raised while the orders
    are scaled, or inside a summary, ends the run at that point: nothing
    of the table is printed in the first case, and what the summary had
    printed is the last output in the second. *)
Theorem main_complete_run (w : World) (account_state : AccountState)
    (orders : list Order) (btc_position : Position)
    (account_btc_size ratio : Decimal) :
  clearinghouseState w = Response account_state ->
  openOrders w = Response orders ->
  activity_reported w orders ->
  get_btc_position account_state = Some btc_position ->
  determine_position_direction btc_position = Some (snd (position_choice w)) ->
  get_btc_orders orders <> [] ->
  get_position_size btc_position = Ok account_btc_size ->
  ~ (to_Q account_btc_size == 0)%Q ->
  dec_div (snd (btc_size w)) account_btc_size = Ok ratio ->
  let current_size := decimal_or_0 (pos_szi btc_position) in
  let current_entry := decimal_or_0 (pos_entryPx btc_position) in
  let report :=
    (preamble w orders ++
     ratio_report (snd (position_choice w)) (snd (position_choice w))
       account_btc_size current_entry (snd (btc_size w)) ratio
       (List.length (get_btc_orders orders)))%list in
  (forall e,
     scale_orders (get_btc_orders orders) ratio = Raise e ->
     main w = (report, Uncaught e)) /\
  (forall scaled_orders,
     scale_orders (get_btc_orders orders) ratio = Ok scaled_orders ->
     let table := fst (print_scaled_orders scaled_orders) in
     let long :=
       print_long_summary scaled_orders current_size current_entry ratio in
     let short :=
       print_short_summary scaled_orders current_size current_entry ratio in
     (snd long = Done tt -> snd short = Done tt ->
      main w =
      ((report ++ table ++ fst long ++ fst short ++ closing)%list, Done tt)) /\
     (forall e, snd long = Uncaught e ->
      main w = ((report ++ table ++ fst long)%list, Uncaught e)) /\
     (forall e, snd long = Done tt -> snd short = Uncaught e ->
      main w = ((report ++ table ++ fst long ++ fst short)%list, Uncaught e))).
Proof.
  intros Hacc Hord Hact Hpos Hdir Hsome Hsize Hnz Hratio.
  apply not_zero_dec_eq in Hnz. cbv zeta.
  assert (Hmain : main w =
    (let current_size := decimal_or_0 (pos_szi btc_position) in
     let current_entry := decimal_or_0 (pos_entryPx btc_position) in
     run_bind
       ((preamble w orders ++
         ratio_report (snd (position_choice w)) (snd (position_choice w))
           account_btc_size current_entry (snd (btc_size w)) ratio
           (List.length (get_btc_orders orders)))%list, Done tt)
       (fun _ =>
          run_bind (eval (scale_orders (get_btc_orders orders) ratio))
            (fun scaled_orders =>
               run_bind (print_scaled_orders scaled_orders) (fun _ =>
               run_bind (print_long_summary scaled_orders current_size
                           current_entry ratio) (fun _ =>
               run_bind (print_short_summary scaled_orders current_size
                           current_entry ratio) (fun _ =>
               (closing, Done tt)))))))).
  { open_main. unfold print_scaled_orders. rewrite Hacc, Hord.
    destruct (position_choice w) as [dialogue1 user_direction].
    destruct (btc_size w) as [dialogue2 user_btc_size].
    cbn [fst snd] in *.
    destruct (get_btc_orders orders) as [| o rest] eqn:Hbtc;
      [now elim Hsome |].
    destruct (userFills w) as [fills | msg]; run_steps;
      activity_line Hact; run_steps;
      rewrite Hpos, Hdir, String.eqb_refl, Hbtc, Hsize, Hnz, Hratio;
      cbv beta iota zeta delta [negb ratio_report closing];
      (destruct (scale_orders (o :: rest) ratio) as [scaled | e]; run_steps;
       [ destruct (print_long_summary scaled _ _ _) as [o1 [[] | c1 | e1]];
         run_steps;
         [ destruct (print_short_summary scaled _ _ _)
             as [o2 [[] | c2 | e2]]; run_steps | | ] | ]);
      f_equal; cbn [app]; repeat rewrite <- app_assoc;
      cbn [app]; reflexivity. }
  rewrite Hmain. cbv zeta. split.
  - intros e He. rewrite He. run_steps. now rewrite app_nil_r.
  - intros scaled_orders Hscaled. rewrite Hscaled.
    unfold print_scaled_orders. run_steps.
    destruct (print_long_summary scaled_orders _ _ _) as [o1 r1].
    destruct (print_short_summary scaled_orders _ _ _) as [o2 r2].
    split; [| split].
    + intros -> ->. run_steps.
      f_equal; now repeat rewrite <- app_assoc.
    + intros e ->. run_steps.
      f_equal; now repeat rewrite <- app_assoc.
    + intros e -> ->. run_steps.
      f_equal; now repeat rewrite <- app_assoc.
Qed.

Lemma main_complete_run_witness :
  let w := world_with "short" short_position [order_3_3] in
  let size := mkDecimal false 5 (-1) in
  let ratio := mkDecimal false 2 0 in
  let current_size := decimal_or_0 (pos_szi short_position) in
  let current_entry := decimal_or_0 (pos_entryPx short_position) in
  clearinghouseState w = Response (account_with short_position) /\
  openOrders w = Response [order_3_3] /\
  activity_reported w [order_3_3] /\
  get_btc_position (account_with short_position) = Some short_position /\
  determine_position_direction short_position =
    Some (snd (position_choice w)) /\
  get_btc_orders [order_3_3] <> [] /\
  get_position_size short_position = Ok size /\
  ~ (to_Q size == 0)%Q /\
  dec_div (snd (btc_size w)) size = Ok ratio /\
  exists scaled_orders,
    scale_orders (get_btc_orders [order_3_3]) ratio = Ok scaled_orders /\
    main w =
    ((preamble w [order_3_3] ++
      ratio_report "short" "short" size current_entry (snd (btc_size w)) ratio
        1 ++
      fst (print_scaled_orders scaled_orders) ++
      fst (print_long_summary scaled_orders current_size current_entry ratio) ++
      fst (print_short_summary scaled_orders current_size current_entry ratio)
      ++ closing)%list, Done tt).
Proof.
  cbv zeta.
  assert (H4 : determine_position_direction short_position =
               Some (snd (position_choice
                            (world_with "short" short_position [order_3_3]))))
    by (vm_compute; reflexivity).
  assert (H3 : activity_reported
                 (world_with "short" short_position [order_3_3]) [order_3_3])
    by discriminate.
  assert (H5 : get_btc_orders [order_3_3] <> []) by discriminate.
  assert (H6 : get_position_size short_position = Ok (mkDecimal false 5 (-1)))
    by (vm_compute; reflexivity).
  assert (H7 : ~ (to_Q (mkDecimal false 5 (-1)) == 0)%Q)
    by (intros H; vm_compute in H; discriminate H).
  assert (H8 : dec_div (snd (btc_size (world_with "short" short_position
                                         [order_3_3])))
                 (mkDecimal false 5 (-1)) = Ok (mkDecimal false 2 0))
    by (vm_compute; reflexivity).
  repeat (split; [first [reflexivity | assumption] |]).
  eexists. split; [vm_compute; reflexivity |].
  refine (proj1 (proj2 (main_complete_run
                  (world_with "short" short_position [order_3_3])
                  (account_with short_position) [order_3_3] short_position
                  (mkDecimal false 5 (-1)) (mkDecimal false 2 0)
                  eq_refl eq_refl H3 eq_refl H4 H5 H6 H7 H8) _ _) _ _);
    vm_compute; reflexivity.
Defined.

Section Outcomes.

Context {A B : Type}.
Variable P : Outcome B -> Prop.

Lemma outcome_bind (m : Run A) (k : A -> Run B) :
  (forall code, snd m = Exit code -> P (Exit code)) ->
  (forall e, snd m = Uncaught e -> P (Uncaught e)) ->
  (forall a, snd m = Done a -> P (snd (k a))) ->
  P (snd (run_bind m k)).
Proof.
  unfold run_bind. destruct m as [out [a | code | e]]; cbn [snd];
    intros Hexit Hraise Hdone.
  - specialize (Hdone a eq_refl). now destruct (k a).
  - now apply Hexit.
  - now apply Hraise.
Qed.

Lemma outcome_eval (x : Exc A) (k : A -> Run B) :
  (forall e, x = Raise e -> P (Uncaught e)) ->
  (forall a, x = Ok a -> P (snd (k a))) ->
  P (snd (run_bind (eval x) k)).
Proof.
  intros Hraise Hok. destruct x as [a | e]; cbn [eval].
  - apply outcome_bind; cbn [snd]; try discriminate.
    intros a' [= <-]. now apply Hok.
  - now apply Hraise.
Qed.

End Outcomes.

Lemma outcome_print {B} (P : Outcome B -> Prop) (l : Line)
    (k : unit -> Run B) :
  P (snd (k tt)) -> P (snd (run_bind (print l) k)).
Proof.
  intros H. apply outcome_bind; cbn [print snd]; try discriminate.
  now intros [] _.
Qed.

Lemma no_exit_bind {A B} (m : Run A) (k : A -> Run B) :
  no_exit m -> (forall a, no_exit (k a)) -> no_exit (run_bind m k).
Proof.
  intros Hm Hk. unfold no_exit.
  apply (outcome_bind (fun r => forall code, r <> Exit code)).
  - intros code H. now elim (Hm code).
  - discriminate.
  - intros a _. apply Hk.
Qed.

Lemma no_exit_eval {A} (x : Exc A) : no_exit (eval x).
Proof. destruct x; discriminate. Qed.

Lemma no_exit_print (l : Line) : no_exit (print l).
Proof. discriminate. Qed.

Lemma no_exit_ret {A} (a : A) : no_exit (run_ret a).
Proof. discriminate. Qed.

Ltac no_exits :=
  repeat first
    [ apply no_exit_eval | apply no_exit_print | apply no_exit_ret
    | apply no_exit_bind; [| intros ?]
    | match goal with
      | |- no_exit (if ?c then _ else _) => destruct c
      | |- no_exit (match ?l with [] => _ | _ :: _ => _ end) => destruct l
      end ].

Lemma print_long_summary_no_exit (scaled_orders : list ScaledOrder)
    (c e r : Decimal) : no_exit (print_long_summary scaled_orders c e r).
Proof. unfold print_long_summary. no_exits. Qed.

Lemma print_short_summary_no_exit (scaled_orders : list ScaledOrder)
    (c e r : Decimal) : no_exit (print_short_summary scaled_orders c e r).
Proof. unfold print_short_summary. no_exits. Qed.

Lemma main_outcome (w : World) : expected_outcome w (snd (main w)).
Proof.
  unfold main. repeat apply outcome_print.
  apply outcome_bind; cbn [get_user_position_choice snd]; try discriminate.
  intros user_direction [= <-].
  apply outcome_bind; cbn [get_user_btc_size snd]; try discriminate.
  intros user_btc_size [= <-].
  repeat apply outcome_print.
  unfold fetch_account_state.
  destruct (clearinghouseState w) as [account_state | msg] eqn:Hacc;
    [| now left].
  apply outcome_bind; cbn [run_ret snd]; try discriminate.
  intros ? [= <-].
  unfold fetch_open_orders.
  destruct (openOrders w) as [orders | msg] eqn:Hord; [| now left].
  apply outcome_bind; cbn [run_ret snd]; try discriminate.
  intros ? [= <-].
  apply outcome_bind;
    [unfold fetch_user_fills; destruct (userFills w); discriminate ..
    | intros fills _].
  apply outcome_bind;
    [ destruct (get_last_activity_time w orders fills); discriminate
    | exact (fun _ _ => I) | intros last_activity _ ].
  apply outcome_print.
  destruct (get_btc_position account_state) as [btc_position |] eqn:Hpos;
    [| now left].
  destruct (determine_position_direction btc_position)
    as [account_direction |] eqn:Hdir; [| now left].
  destruct (String.eqb_spec account_direction (snd (position_choice w)))
    as [-> | Hneq]; cbn [negb]; [| now left].
  apply outcome_bind; cbn [run_ret snd]; try discriminate. intros _ _.
  destruct (get_btc_orders orders) as [| o rest] eqn:Hbtc.
  { right. split; [reflexivity |]. now exists orders. }
  apply outcome_bind; cbn [run_ret snd]; try discriminate. intros _ _.
  apply outcome_eval; [exact (fun _ _ => I) | intros account_btc_size _].
  destruct (dec_eq account_btc_size dec_zero); [now left |].
  apply outcome_bind; cbn [run_ret snd]; try discriminate. intros _ _.
  apply outcome_eval; [exact (fun _ _ => I) | intros ratio _].
  repeat apply outcome_print.
  apply outcome_eval; [exact (fun _ _ => I) | intros scaled_orders _].
  apply outcome_bind; cbn [print_scaled_orders snd]; try discriminate.
  intros _ _.
  apply outcome_bind;
    [ intros code H; now apply print_long_summary_no_exit in H
    | exact (fun _ _ => I) | intros _ _ ].
  apply outcome_bind;
    [ intros code H; now apply print_short_summary_no_exit in H
    | exact (fun _ _ => I) | intros _ _ ].
  repeat apply outcome_print.
  exists account_state, orders, btc_position. rewrite Hbtc.
  repeat (split; [reflexivity || assumption |]). discriminate.
Qed.

(** X13. The exit status of a run.  [main] exits with status 1 or 0 and no
    other; with 0 only when the open orders were fetched and none of them
    is a BTC order.  It gets to its end only when both requests were
    answered, the account holds a BTC position of the direction the user
    declared, and there was at least one BTC order to scale. *)
Theorem main_exit_status (w : World) :
  (forall code,
     snd (main w) = Exit code ->
     code = 1%Z \/
     (code = 0%Z /\
      exists orders,
        openOrders w = Response orders /\ get_btc_orders orders = [])) /\
  (snd (main w) = Done tt ->
   exists account_state orders btc_position,
     clearinghouseState w = Response account_state /\
     openOrders w = Response orders /\
     get_btc_position account_state = Some btc_position /\
     determine_position_direction btc_position =
       Some (snd (position_choice w)) /\
     get_btc_orders orders <> []).
Proof.
  pose proof (main_outcome w) as H. split.
  - intros code Hexit. now rewrite Hexit in H.
  - intros Hdone. now rewrite Hdone in H.
Qed.

Lemma main_exit_status_witness :
  let w := world_with "short" short_position [eth_order] in
  snd (main w) = Exit 0 /\
  (0 = 1 \/
   0 = 0 /\
   exists orders,
     openOrders w = Response orders /\ get_btc_orders orders = [])%Z.
Proof.
  cbv zeta.
  assert (H : snd (main (world_with "short" short_position [eth_order])) =
              Exit 0) by (vm_compute; reflexivity).
  split; [exact H |].
  exact (proj1 (main_exit_status
                  (world_with "short" short_position [eth_order])) 0%Z H).
Defined.

Ltac same_after :=
  eexists; split; cbn [app]; repeat rewrite <- app_assoc; cbn [app];
  reflexivity.

(** X14. The fills, the clock and the time zone are used for the "Last
    account activity" line and for nothing else.  Take a run in which
    both requests are answered.  If the latest timestamp cannot be
    converted, the run ends there, after the banner, with the exception
    uncaught.  If it can, and can also with other fills, another reading
    of the clock or another time zone, then the two runs end the same way
    and print the same lines, that one line apart, which is the first
    line after the banner.  A run that fails to fetch the account state
    or the open orders does not depend on the three at all. *)
Theorem main_activity_line_only (w : World) (fills : Fetch (list Fill))
    (now : Z) (zone : Z -> option Z) :
  let w' := at_another_time w fills now zone in
  (forall account_state orders,
     clearinghouseState w = Response account_state ->
     openOrders w = Response orders ->
     (~ activity_reported w orders ->
      main w = (banner w, Uncaught TimestampError)) /\
     (activity_reported w orders -> activity_reported w' orders ->
      snd (main w') = snd (main w) /\
      exists after,
        fst (main w) =
          (banner w ++ last_activity_line w orders :: after)%list /\
        fst (main w') =
          (banner w ++ last_activity_line w' orders :: after)%list)) /\
  ((forall account_state orders,
      ~ (clearinghouseState w = Response account_state /\
         openOrders w = Response orders)) ->
   main w' = main w).
Proof.
  cbv zeta. split.
  - intros account_state orders Hacc Hord. split.
    + intros Hnot. open_main. rewrite Hacc, Hord.
      destruct (position_choice w) as [dialogue1 user_direction].
      destruct (btc_size w) as [dialogue2 user_btc_size].
      destruct (userFills w) as [fills1 | msg3]; run_steps;
        (destruct (get_last_activity_time w orders _) as [text |];
         [now elim Hnot | run_steps; same_output]).
    + unfold at_another_time, last_activity_line. open_main.
      unfold print_scaled_orders.
      cbn [HYPERLIQUID_ADDRESS position_choice btc_size clearinghouseState
           openOrders userFills now_us get_address] in *.
      rewrite Hacc, Hord.
      destruct (position_choice w) as [dialogue1 user_direction].
      destruct (btc_size w) as [dialogue2 user_btc_size].
      intros Hact Hact'.
      destruct (userFills w) as [fills1 | msg3], fills as [fills2 | msg4];
        run_steps;
        repeat match goal with
          | |- context [get_last_activity_time ?v ?o ?f] =>
              destruct (get_last_activity_time v o f) as [? |];
              [| solve [now elim Hact | now elim Hact']]
          end;
        run_steps;
        (destruct (get_btc_position account_state) as [btc_position |];
         run_steps;
         [ destruct (determine_position_direction btc_position)
             as [account_direction |]; run_steps;
           [ destruct (String.eqb account_direction user_direction);
             cbv beta iota zeta delta [negb]; run_steps;
             [ destruct (get_btc_orders orders) as [| o rest]; run_steps;
               [ | destruct (get_position_size btc_position)
                     as [account_btc_size | e]; run_steps;
                   [ destruct (dec_eq account_btc_size dec_zero); run_steps;
                     [ | destruct (dec_div user_btc_size account_btc_size)
                           as [ratio | e]; run_steps;
                         [ destruct (scale_orders (o :: rest) ratio)
                             as [scaled | e]; run_steps;
                           [ destruct (print_long_summary scaled _ _ _)
                               as [o1 [[] | c1 | e1]]; run_steps;
                             [ destruct (print_short_summary scaled _ _ _)
                                 as [o2 [[] | c2 | e2]]; run_steps | | ]
                           | ]
                         | ] ]
                   | ] ]
             | ]
           | ]
         | ]);
        (split; [reflexivity | same_after]).
  - intros Hnone. unfold at_another_time. open_main.
    cbn [HYPERLIQUID_ADDRESS position_choice btc_size clearinghouseState
         openOrders userFills now_us get_address].
    destruct (position_choice w) as [dialogue1 user_direction].
    destruct (btc_size w) as [dialogue2 user_btc_size].
    destruct (clearinghouseState w) as [account_state | msg1];
      [| reflexivity].
    destruct (openOrders w) as [orders | msg2]; [| reflexivity].
    now elim (Hnone account_state orders).
Qed.

Lemma main_activity_line_only_witness :
  let w := world_with "short" short_position [order_3_3] in
  let w' := at_another_time w (RequestException "timeout") 0 utc in
  clearinghouseState w = Response (account_with short_position) /\
  openOrders w = Response [order_3_3] /\
  activity_reported w [order_3_3] /\
  activity_reported w' [order_3_3] /\
  snd (main w') = snd (main w) /\
  exists after,
    fst (main w) =
      (banner w ++ last_activity_line w [order_3_3] :: after)%list /\
    fst (main w') =
      (banner w ++ last_activity_line w' [order_3_3] :: after)%list.
Proof.
  cbv zeta. split; [reflexivity |]. split; [reflexivity |].
  assert (H1 : activity_reported
                 (world_with "short" short_position [order_3_3]) [order_3_3])
    by discriminate.
  assert (H2 : activity_reported
                 (at_another_time
                    (world_with "short" short_position [order_3_3])
                    (RequestException "timeout") 0 utc) [order_3_3])
    by discriminate.
  split; [exact H1 |]. split; [exact H2 |].
  exact (proj2 (proj1 (main_activity_line_only
                         (world_with "short" short_position [order_3_3])
                         (RequestException "timeout") 0 utc)
                  (account_with short_position) [order_3_3] eq_refl eq_refl)
           H1 H2).
Defined.

(** X17. The guard before the ratio is for sizes too small for the
    context only: a position that has a direction and whose absolute size
    fits the context has a size that [get_position_size] returns and
    that is not zero, so a run that reaches the guard goes on to compute
    the ratio, and the division does not fail for a zero divisor. *)
Theorem position_size_not_zero (position : Position) (direction : string)
    (user_btc_size : Decimal) :
  determine_position_direction position = Some direction ->
  fits (copy_abs (decimal_or_0 (pos_szi position))) ->
  exists size,
    get_position_size position = Ok size /\
    dec_eq size dec_zero = false /\
    ~ (to_Q size == 0)%Q /\
    forall e, dec_div user_btc_size size = Raise e -> e = Overflow.
Proof.
  intros Hdir Hfits. unfold get_position_size.
  set (szi := decimal_or_0 (pos_szi position)) in *.
  exists (copy_abs szi).
  assert (Hnz : is_zero (copy_abs szi) = false).
  { change (is_zero (copy_abs szi)) with (is_zero szi).
    unfold determine_position_direction in Hdir. fold szi in Hdir.
    rewrite dec_gt_zero, dec_lt_zero in Hdir.
    destruct (is_zero szi); [discriminate Hdir | reflexivity]. }
  split; [now apply dec_abs_magnitude |].
  split; [now rewrite dec_eq_zero |].
  split.
  - intros H. apply to_Q_zero in H. apply is_zero_false in Hnz.
    now elim Hnz.
  - intros e He. exact (dec_div_raises _ _ _ Hnz He).
Qed.

Lemma position_size_not_zero_witness :
  determine_position_direction short_position = Some "short" /\
  fits (copy_abs (decimal_or_0 (pos_szi short_position))) /\
  exists size,
    get_position_size short_position = Ok size /\
    dec_eq size dec_zero = false.
Proof.
  assert (H1 : determine_position_direction short_position = Some "short")
    by (vm_compute; reflexivity).
  assert (H2 : fits (copy_abs (decimal_or_0 (pos_szi short_position))))
    by (vm_compute; reflexivity).
  split; [exact H1 |]. split; [exact H2 |].
  destruct (position_size_not_zero short_position "short"
              (mkDecimal false 1 0) H1 H2) as (size & Hsize & Hnz & _).
  exists size. now split.
Defined.

(* ================================================================== *)
(** ** 26. More on the time since the last activity                    *)
(* ================================================================== *)

Lemma relative_time_counts (us : Z) :
  relative_time us = "just now" \/
  exists n unit,
    relative_time us = ago n unit /\
    (unit = "minute" /\ 1 <= n <= 59 \/
     unit = "hour" /\ 1 <= n <= 23 \/
     unit = "day" /\ 1 <= n <= 6 \/
     unit = "week" /\ 1 <= n <= 4 \/
     unit = "month" /\ 1 <= n)%Z.
Proof.
  destruct (relative_time_buckets us)
    as (Hnow & Hmin & Hhour & Hday & Hweek & _ & Hmonth).
  destruct (Z.lt_ge_cases us (60 * 1000000)) as [H1 | H1];
    [left; now apply Hnow | right].
  destruct (Z.lt_ge_cases us (3600 * 1000000)) as [H2 | H2].
  { exists (us / (60 * 1000000))%Z, "minute".
    split; [apply Hmin; lia | left]. split; [reflexivity |].
    Z.div_mod_to_equations. lia. }
  destruct (Z.lt_ge_cases us (86400 * 1000000)) as [H3 | H3].
  { exists (us / (3600 * 1000000))%Z, "hour".
    split; [apply Hhour; lia | right; left]. split; [reflexivity |].
    Z.div_mod_to_equations. lia. }
  destruct (Z.lt_ge_cases us (604800 * 1000000)) as [H4 | H4].
  { exists (us / (86400 * 1000000))%Z, "day".
    split; [apply Hday; lia | right; right; left]. split; [reflexivity |].
    Z.div_mod_to_equations. lia. }
  destruct (Z.lt_ge_cases us (2592000 * 1000000)) as [H5 | H5].
  { exists (us / (604800 * 1000000))%Z, "week".
    split; [apply Hweek; lia | right; right; right; left].
    split; [reflexivity |]. Z.div_mod_to_equations. lia. }
  exists (int_of_Q (float_div (total_seconds us) 2592000)), "month".
  split; [apply Hmonth; lia | right; right; right; right].
  split; [reflexivity |].
  assert (HU : (1 <= 2592000 < 2 ^ 22)%Z) by (split; [lia | reflexivity]).
  assert (Hone : (inject_Z 1 <= float_div (total_seconds us) 2592000)%Q).
  { apply (count_lower 2592000 HU us 1); [lia | reflexivity | lia]. }
  rewrite int_of_Q_floor.
  - rewrite <- (Qfloor_Z 1). now apply Qfloor_resp_le.
  - apply Qle_trans with (inject_Z 1); [discriminate | exact Hone].
Qed.

(** X15. What [get_relative_time] can answer when the timestamp can be
    converted (it raises exactly when it cannot): "just now", or a count
    of minutes from 1 to 59, of hours from 1 to 23, of days from 1 to 6,
    of weeks from 1 to 4, or of months from 1 on; the count is never 0.
    A timestamp whose local date and time is not before the clock's
    reads "just now". *)
Theorem get_relative_time_counts (w : World) (timestamp_ms : Z) :
  match get_relative_time w timestamp_ms with
  | None => local_datetime w timestamp_ms = None
  | Some answer =>
      local_datetime w timestamp_ms <> None /\
      (answer = "just now" \/
       exists n unit,
         answer = ago n unit /\
         (unit = "minute" /\ 1 <= n <= 59 \/
          unit = "hour" /\ 1 <= n <= 23 \/
          unit = "day" /\ 1 <= n <= 6 \/
          unit = "week" /\ 1 <= n <= 4 \/
          unit = "month" /\ 1 <= n)%Z)
  end /\
  (forall dt,
     local_datetime w timestamp_ms = Some dt ->
     (now_us w <= dt)%Z ->
     get_relative_time w timestamp_ms = Some "just now").
Proof.
  unfold get_relative_time. split.
  - destruct (local_datetime w timestamp_ms) as [dt |]; [| reflexivity].
    split; [discriminate | apply relative_time_counts].
  - intros dt -> H. f_equal.
    apply (proj1 (relative_time_buckets (now_us w - dt))). lia.
Qed.

Lemma get_relative_time_counts_witness :
  local_datetime (clock 1700000200000000) 1700000300000 =
    Some 1700000300000000%Z /\
  (now_us (clock 1700000200000000) <= 1700000300000000)%Z /\
  get_relative_time (clock 1700000200000000) 1700000300000 = Some "just now".
Proof.
  assert (H1 : local_datetime (clock 1700000200000000) 1700000300000 =
               Some 1700000300000000%Z) by (vm_compute; reflexivity).
  assert (H2 : (now_us (clock 1700000200000000) <= 1700000300000000)%Z)
    by (cbn; lia).
  split; [exact H1 |]. split; [exact H2 |].
  pose proof (get_relative_time_counts (clock 1700000200000000)
                1700000300000) as [_ H].
  apply (H _ H1 H2).
Defined.

Lemma list_max_bounded (t : Z) (ts : list Z) (bound : Z) :
  (forall x, In x (t :: ts) -> (x <= bound)%Z) -> (list_max t ts <= bound)%Z.
Proof.
  intros H. destruct (list_max_in ts t) as [-> | Hin].
  - apply H. now left.
  - apply H. now right.
Qed.

(** X16. Only the latest timestamp counts: two pairs of an order list and a
    fill list in which each timestamp of the one is matched or exceeded
    by a timestamp of the other give the same answer.  So the order of
    the entries, their number, and whether a timestamp comes from an
    order or from a fill make no difference, and neither do entries
    older than the latest one. *)
Theorem get_last_activity_time_latest (w : World) (orders orders' : list Order)
    (fills fills' : list Fill) :
  (forall t, found t orders fills ->
             exists t', found t' orders' fills' /\ (t <= t')%Z) ->
  (forall t, found t orders' fills' ->
             exists t', found t' orders fills /\ (t <= t')%Z) ->
  get_last_activity_time w orders fills =
  get_last_activity_time w orders' fills'.
Proof.
  intros H12 H21. unfold get_last_activity_time.
  assert (H12' : forall t,
            In t (collect ord_timestamp orders ++ collect fill_time fills)%list ->
            exists t', In t' (collect ord_timestamp orders' ++
                              collect fill_time fills')%list /\ (t <= t')%Z).
  { intros t Ht. apply in_timestamps in Ht.
    destruct (H12 t Ht) as (t' & Ht' & Hle).
    exists t'. split; [now apply in_timestamps | exact Hle]. }
  assert (H21' : forall t,
            In t (collect ord_timestamp orders' ++
                  collect fill_time fills')%list ->
            exists t', In t' (collect ord_timestamp orders ++
                              collect fill_time fills)%list /\ (t <= t')%Z).
  { intros t Ht. apply in_timestamps in Ht.
    destruct (H21 t Ht) as (t' & Ht' & Hle).
    exists t'. split; [now apply in_timestamps | exact Hle]. }
  clear H12 H21.
  destruct (collect ord_timestamp orders ++ collect fill_time fills)%list
    as [| t ts];
    destruct (collect ord_timestamp orders' ++ collect fill_time fills')%list
      as [| t' ts'].
  - reflexivity.
  - destruct (H21' t' (or_introl eq_refl)) as (x & [] & _).
  - destruct (H12' t (or_introl eq_refl)) as (x & [] & _).
  - f_equal. apply Z.le_antisymm; apply list_max_bounded; intros x Hx.
    + destruct (H12' x Hx) as (y & Hy & Hle).
      destruct (list_max_ge ts' t') as (Hhead & Htail).
      destruct Hy as [<- | Hy]; [lia |].
      specialize (Htail y Hy). lia.
    + destruct (H21' x Hx) as (y & Hy & Hle).
      destruct (list_max_ge ts t) as (Hhead & Htail).
      destruct Hy as [<- | Hy]; [lia |].
      specialize (Htail y Hy). lia.
Qed.

Lemma get_last_activity_time_latest_witness :
  get_last_activity_time (clock 1700000200000000)
    [order_at 1700000000000] [mkFill (Some 1700000100000)] =
  get_last_activity_time (clock 1700000200000000)
    [order_at 1700000100000; order_at 1700000100000] [].
Proof.
  apply get_last_activity_time_latest.
  - intros t [(o & [<- | []] & Ho) | (f & [<- | []] & Hf)];
      exists 1700000100000%Z;
      (split; [left; exists (order_at 1700000100000);
               split; [now left | reflexivity] |]).
    + injection Ho as <-. lia.
    + injection Hf as <-. lia.
  - intros t [(o & [<- | [<- | []]] & Ho) | (f & [] & _)];
      exists 1700000100000%Z;
      (split; [right; exists (mkFill (Some 1700000100000));
               split; [now left | reflexivity] |]);
      injection Ho as <-; lia.
Defined.
